(** * htsprophet: hierarchical time-series reconciliation (hts.py)

    A shallow embedding of [hts.py]: the summing-matrix constructor
    [SummingMat], the validation and dispatch of [hts] (with the
    cross-validated method selection and its MASE score), and the part of
    [orderHier] that validates the level assignment, names the columns
    of the wide table and derives the [nodes] descriptor.

    Conventions.
    - Python exceptions are values of [exn]; a computation that can raise
      returns a [result].
    - numpy arrays are [ndarray]s: one-dimensional ([Arr1]) or
      two-dimensional ([Arr2], with its column count, so that an array of
      shape (0, m) is representable).  The entries of the summing matrix
      are sums of zeros and ones; they are modelled as integers.
    - A numeric column of a DataFrame is an int64 or a float64 array;
      the forecasts and the scores are float64.  float64 numbers are
      those of [SpecFloat] (IEEE 754 binary64, round to nearest even);
      int64 arithmetic wraps around.  Comparisons of floats go through
      their values ([fval]: a rational, an infinity or a NaN). *)

From Stdlib Require Import ZArith QArith Qabs String Ascii List Bool Arith Lia.
From Stdlib Require Import Permutation.
From Stdlib Require SpecFloat.
Import ListNotations.
Open Scope string_scope.
Open Scope list_scope.
Open Scope nat_scope.

(** ** Python exceptions and results *)

Module Py.

Inductive exn : Type :=
| SystemExit (msg : string)
| IndexError
| ValueError
| TypeError
| KeyError
| ZeroDivisionError
| BackendError.

Inductive result (A : Type) : Type :=
| Ok (a : A)
| Raise (e : exn).

Arguments Ok {A} a.
Arguments Raise {A} e.

Definition rbind {A B : Type} (m : result A) (k : A -> result B) : result B :=
  match m with
  | Ok a => k a
  | Raise e => Raise e
  end.

(** [l[-k]] for [k >= 1]: the k-th element from the end. *)
Definition neg_index {A : Type} (l : list A) (k : nat) : result A :=
  if (k <=? length l) && (1 <=? k)
  then match nth_error l (length l - k) with
       | Some x => Ok x
       | None => Raise IndexError
       end
  else Raise IndexError.

(** [l[i]] for [i >= 0]. *)
Definition index {A : Type} (l : list A) (i : nat) : result A :=
  match nth_error l i with
  | Some x => Ok x
  | None => Raise IndexError
  end.

(** [l[lo:hi]] for [0 <= lo], [0 <= hi]: slices never raise. *)
Definition slice {A : Type} (l : list A) (lo hi : nat) : list A :=
  firstn (hi - lo) (skipn lo l).

End Py.

Import Py.

Declare Scope py_scope.
Delimit Scope py_scope with py.
Notation "x <- m ;; k" := (rbind m (fun x => k))
  (at level 61, m at next level, right associativity) : py_scope.
Open Scope py_scope.

(** ** numpy arrays *)

Module Np.

Inductive ndarray : Type :=
| Arr1 (v : list Z)
| Arr2 (ncols : nat) (rows : list (list Z)).

Definition ones (n : nat) : ndarray := Arr1 (repeat 1%Z n).
Definition zeros (n : nat) : ndarray := Arr1 (repeat 0%Z n).

Definition unit_row (n i : nat) : list Z :=
  map (fun j => if j =? i then 1%Z else 0%Z) (seq 0 n).

Definition identity (n : nat) : ndarray :=
  Arr2 n (map (unit_row n) (seq 0 n)).

Definition vadd (u v : list Z) : list Z := map (fun p => (fst p + snd p)%Z) (combine u v).

(** Column sums of a two-dimensional block with [c] columns. *)
Definition colsum (c : nat) (rows : list (list Z)) : list Z :=
  fold_left vadd rows (repeat 0%Z c).

(** [blMat[lo:hi, :].sum(axis = 0)]: two indices on a one-dimensional
    array raise IndexError. *)
Definition block_sum (blMat : ndarray) (lo hi : nat) : result (list Z) :=
  match blMat with
  | Arr1 _ => Raise IndexError
  | Arr2 c rows => Ok (colsum c (slice rows lo hi))
  end.

(** [np.all(B == 0)] *)
Definition all_zero (B : ndarray) : bool :=
  match B with
  | Arr1 v => forallb (Z.eqb 0) v
  | Arr2 _ rows => forallb (forallb (Z.eqb 0)) rows
  end.

(** [np.atleast_2d], as [np.vstack] applies it to each argument. *)
Definition atleast_2d (a : ndarray) : nat * list (list Z) :=
  match a with
  | Arr1 v => (length v, [v])
  | Arr2 c rows => (c, rows)
  end.

(** [np.vstack((a, b))]: the column counts must agree. *)
Definition vstack (a b : ndarray) : result ndarray :=
  let '(ca, ra) := atleast_2d a in
  let '(cb, rb) := atleast_2d b in
  if ca =? cb then Ok (Arr2 ca (ra ++ rb)) else Raise ValueError.

End Np.

Import Np.

(** ** The summing matrix *)

Definition topology : Type := list (list nat).

Definition numAtLev (nodes : topology) : list nat := map (@list_sum) nodes.

(** The inner loop of [SummingMat] (lines 112-119): [count] and
    [num2sumInd] delimit the block of children of the current parent. *)
Fixpoint sum_blocks (blMat : ndarray) (summing : list nat)
         (count num2sumInd : nat) (B : ndarray) : result ndarray :=
  match summing with
  | [] => Ok B
  | num2sum :: rest =>
      let num2sumInd := num2sumInd + num2sum in
      s <- block_sum blMat count num2sumInd ;;
      let count := count + num2sum in
      if all_zero B
      then sum_blocks blMat rest count num2sumInd (Arr1 s)
      else B' <- vstack B (Arr1 s) ;;
           sum_blocks blMat rest count num2sumInd B'
  end.

(** The outer loop (lines 106-121), over [lev] in [range(numLevs - 1)]. *)
Fixpoint build_levels (nodes : topology) (levs : list nat) (nleaf : nat)
         (finalMat blMat : ndarray) : result ndarray :=
  match levs with
  | [] => Ok finalMat
  | lev :: levs' =>
      summing <- neg_index nodes (lev + 1) ;;
      B <- sum_blocks blMat summing 0 0 (zeros nleaf) ;;
      finalMat' <- vstack B finalMat ;;
      build_levels nodes levs' nleaf finalMat' B
  end.

Definition SummingMat (nodes : topology) : result ndarray :=
  let numAtLev := numAtLev nodes in
  let numLevs := length numAtLev in
  nleaf <- neg_index numAtLev 1 ;;
  let top := ones nleaf in
  let blMat := identity nleaf in
  finalMat <- build_levels nodes (seq 0 (numLevs - 1)) nleaf blMat blMat ;;
  vstack top finalMat.

(** The number of leaves of a topology: the sum of its last level. *)
Definition leaf_count (nodes : topology) : nat := last (numAtLev nodes) 0.

(** The number of nodes of a topology below the total. *)
Definition node_count (nodes : topology) : nat := list_sum (numAtLev nodes).

(** *** The summing matrix as the specification describes it *)

(** [rows] cut into consecutive blocks of the sizes [counts]. *)
Fixpoint chunks {A : Type} (counts : list nat) (rows : list A) : list (list A) :=
  match counts with
  | [] => []
  | k :: counts' => firstn k rows :: chunks counts' (skipn k rows)
  end.

Definition identity_rows (n : nat) : list (list Z) := map (unit_row n) (seq 0 n).

(** The rows of the nodes of a level, [below] being the child counts of
    that level and of the levels under it: the leaves have the rows of
    the identity, and a parent the sum of the rows of its children. *)
Fixpoint level_rows (n : nat) (below : topology) : list (list Z) :=
  match below with
  | [] => identity_rows n
  | counts :: below' => map (colsum n) (chunks counts (level_rows n below'))
  end.

(** The rows of a level followed by those of all the levels under it. *)
Fixpoint all_rows (n : nat) (levels : topology) : list (list Z) :=
  match levels with
  | [] => level_rows n []
  | _ :: levels' => level_rows n levels ++ all_rows n levels'
  end.

(** The outer loop of [SummingMat] as a recursion on the levels taken
    from the bottom. *)
Fixpoint build_up (ups : topology) (nleaf : nat) (finalMat blMat : ndarray)
  : result ndarray :=
  match ups with
  | [] => Ok finalMat
  | summing :: ups' =>
      B <- sum_blocks blMat summing 0 0 (zeros nleaf) ;;
      finalMat' <- vstack B finalMat ;;
      build_up ups' nleaf finalMat' B
  end.

(** A row of length [n] with no negative entry and some positive one. *)
Definition good_row (n : nat) (r : list Z) : Prop :=
  length r = n /\ Forall (fun x => (0 <= x)%Z) r /\ Exists (fun x => (0 < x)%Z) r.

(** The levels [levels] under a level of [parents] nodes: every level
    lists one positive child count per node. *)
Fixpoint consistent (parents : nat) (levels : topology) : Prop :=
  match levels with
  | [] => True
  | counts :: levels' =>
      length counts = parents
      /\ Forall (fun k => 0 < k) counts
      /\ consistent (list_sum counts) levels'
  end.

(** The topologies on which [SummingMat] works: the root has a child,
    every node above the leaves has its positive child count, and from
    the second level on every level above the leaves has two nodes at
    least. *)
Definition regular (nodes : topology) : Prop :=
  match nodes with
  | [] => False
  | l0 :: levels =>
      1 <= list_sum l0
      /\ consistent (list_sum l0) levels
      /\ Forall (fun counts => 2 <= length counts) (tl levels)
  end.

(** The number of leaves under [parents] nodes with the [levels] of
    child counts under them: the sum of the last level. *)
Fixpoint width (parents : nat) (levels : topology) : nat :=
  match levels with
  | [] => parents
  | counts :: levels' => width (list_sum counts) levels'
  end.

(** The sum of a list of integers. *)
Definition zsum (l : list Z) : Z := fold_right Z.add 0%Z l.

(** The property of the specification on a matrix given by its rows: the
    row of every parent is the sum of the rows of its children.  The
    [parents] of a level have [counts] children each, which lie in
    order in [children]. *)
Fixpoint blocks_sum_ok (c : nat) (parents : list (list Z)) (counts : list nat)
         (children : list (list Z)) : bool :=
  match counts, parents with
  | [], [] => true
  | k :: counts', p :: parents' =>
      (k <=? length children)
      && (if list_eq_dec Z.eq_dec p (colsum c (firstn k children)) then true else false)
      && blocks_sum_ok c parents' counts' (skipn k children)
  | _, _ => false
  end.

(** [rows] starts with the [parent_count] rows of a level, whose child
    counts are the head of [nodes]; the rows of the levels below follow,
    down to the leaves. *)
Fixpoint levels_ok (c : nat) (rows : list (list Z)) (parent_count : nat)
         (nodes : topology) : bool :=
  match nodes with
  | [] => length rows =? parent_count
  | counts :: nodes' =>
      let rest := skipn parent_count rows in
      (length counts =? parent_count)
      && blocks_sum_ok c (firstn parent_count rows) counts (firstn (list_sum counts) rest)
      && levels_ok c rest (list_sum counts) nodes'
  end.

Definition parents_sum_children (nodes : topology) (M : ndarray) : bool :=
  match M with
  | Arr2 c rows => levels_ok c rows 1 nodes
  | Arr1 _ => false
  end.

(** ** Machine numbers *)

(** float64, the type of the forecasts and of the scores: the binary64
    numbers of IEEE 754 as the Standard Library specifies them
    ([SpecFloat]), every operation rounding to nearest, ties to even. *)
Definition float64 : Type := SpecFloat.spec_float.

Definition prec : Z := 53.
Definition emax : Z := 1024.

Definition f_add : float64 -> float64 -> float64 := SpecFloat.SFadd prec emax.
Definition f_sub : float64 -> float64 -> float64 := SpecFloat.SFsub prec emax.
Definition f_mul : float64 -> float64 -> float64 := SpecFloat.SFmul prec emax.
Definition f_div : float64 -> float64 -> float64 := SpecFloat.SFdiv prec emax.
Definition f_abs : float64 -> float64 := SpecFloat.SFabs.

Definition f_zero : float64 := SpecFloat.S754_zero false.
Definition f_inf : float64 := SpecFloat.S754_infinity false.
Definition f_nan : float64 := SpecFloat.S754_nan.

(** [float(z)]: the float64 nearest to the integer [z]. *)
Definition f_of_int (z : Z) : float64 :=
  SpecFloat.binary_normalize prec emax z 0 false.

(** [x == 0.0] *)
Definition f_is_zero (x : float64) : bool :=
  match x with SpecFloat.S754_zero _ => true | _ => false end.

Definition f_is_nan (x : float64) : bool :=
  match x with SpecFloat.S754_nan => true | _ => false end.

Definition f_is_finite (x : float64) : bool :=
  match x with
  | SpecFloat.S754_zero _ | SpecFloat.S754_finite _ _ _ => true
  | _ => false
  end.

(** The sign bit of [x] is clear, or [x] is a NaN: [x] is not below
    zero, and is not the negative zero. *)
Definition sign_clear (x : float64) : Prop :=
  match x with
  | SpecFloat.S754_zero s | SpecFloat.S754_infinity s
  | SpecFloat.S754_finite s _ _ => s = false
  | SpecFloat.S754_nan => True
  end.

(** int64: the integers from -2^63 to 2^63 - 1; numpy's arithmetic on
    them wraps around. *)
Definition wrap64 (z : Z) : Z := ((z + 2 ^ 63) mod 2 ^ 64 - 2 ^ 63)%Z.

Definition in_int64 (z : Z) : Prop := (- 2 ^ 63 <= z < 2 ^ 63)%Z.

(** The value of a float64: a rational, an infinity or a NaN.  The
    comparisons of floats are those of their values; the two zeros have
    the same value. *)
Inductive fval : Type :=
| Fin (q : Q)
| PInf
| NInf
| NaN.

Definition f_value (x : float64) : fval :=
  match x with
  | SpecFloat.S754_zero _ => Fin 0
  | SpecFloat.S754_infinity false => PInf
  | SpecFloat.S754_infinity true => NInf
  | SpecFloat.S754_nan => NaN
  | SpecFloat.S754_finite s m e =>
      let z := if s then Z.neg m else Z.pos m in
      Fin (match e with
           | Z.neg p => Qmake z (2 ^ p)
           | _ => inject_Z (z * 2 ^ e)
           end)
  end.

(** [a[-n:]] for [n = len(testIndex) >= 0]; [a[-0:]] is the whole of [a]. *)
Definition last_n {A : Type} (a : list A) (n : nat) : list A :=
  match n with
  | O => a
  | _ => skipn (length a - n) a
  end.

(** [a[:-1]] *)
Definition drop_last {A : Type} (a : list A) : list A := removelast a.

Fixpoint mapM {A B : Type} (f : A -> result B) (l : list A) : result (list B) :=
  match l with
  | [] => Ok []
  | x :: l' => y <- f x ;; ys <- mapM f l' ;; Ok (y :: ys)
  end.

(** ** Numeric arrays and DataFrames *)

(** A one-dimensional numpy array of numbers, as [.values] returns it
    for a numeric column: all its elements have the type of the column,
    int64 or float64. *)
Inductive narray : Type :=
| Int64 (v : list Z)
| Float64 (v : list float64).

Definition alen (a : narray) : nat :=
  match a with Int64 v => length v | Float64 v => length v end.

(** The elements as float64: what numpy makes of an int64 array that
    meets a float64 array. *)
Definition as_float64 (a : narray) : list float64 :=
  match a with Int64 v => map f_of_int v | Float64 v => v end.

(** The rows [rows] of a column. *)
Definition take (a : narray) (rows : list nat) : result narray :=
  match a with
  | Int64 v => r <- mapM (index v) rows ;; Ok (Int64 r)
  | Float64 v => r <- mapM (index v) rows ;; Ok (Float64 r)
  end.

(** [a - b] on one-dimensional arrays of [f], with broadcasting. *)
Definition broadcast {A : Type} (f : A -> A -> A) (a b : list A) : result (list A) :=
  if length a =? length b
  then Ok (map (fun p => f (fst p) (snd p)) (combine a b))
  else match a, b with
       | [x], _ => Ok (map (fun v => f x v) b)
       | _, [v] => Ok (map (fun x => f x v) a)
       | _, _ => Raise ValueError
       end.

(** [a - b] on numpy arrays: in int64, wrapping, when both are int64;
    in float64 otherwise. *)
Definition np_sub (a b : narray) : result narray :=
  match a, b with
  | Int64 u, Int64 v => r <- broadcast (fun x y => wrap64 (x - y)) u v ;; Ok (Int64 r)
  | _, _ => r <- broadcast f_sub (as_float64 a) (as_float64 b) ;; Ok (Float64 r)
  end.

(** [abs(a)]: the absolute value of the least int64 is itself. *)
Definition np_abs (a : narray) : narray :=
  match a with
  | Int64 v => Int64 (map (fun z => wrap64 (Z.abs z)) v)
  | Float64 v => Float64 (map f_abs v)
  end.

(** A DataFrame is the list of its columns; column 0 of the wide table is
    the time column. *)
Definition DataFrame : Type := list narray.

(** [y.iloc[rows, c].values] *)
Definition iloc (y : DataFrame) (rows : list nat) (c : nat) : result narray :=
  col <- index y c ;; take col rows.

(** [y.iloc[rows, :]] *)
Definition iloc_rows (y : DataFrame) (rows : list nat) : result DataFrame :=
  mapM (fun col => take col rows) y.

(** The forecast tables returned by the backend: key (node index) to the
    [yhat] column, a float64 column, in the order of the dictionary. *)
Definition Forecasts : Type := list (nat * list float64).

Fixpoint lookup (d : Forecasts) (key : nat) : result (list float64) :=
  match d with
  | [] => Raise KeyError
  | (k, v) :: d' => if k =? key then Ok v else lookup d' key
  end.

Definition keys (d : Forecasts) : list nat := map fst d.

(** ** Scalars *)

(** The operands of the MASE division.  Python's builtin [sum] starts
    from the Python integer 0 and adds the elements one by one with [+]:
    over an empty array it returns that 0, over an int64 array a numpy
    int64 (the additions wrap), over a float64 array a numpy float64. *)
Inductive scalar : Type :=
| PyInt (z : Z)
| PyFloat (x : float64)
| NpInt (z : Z)
| NpFloat (x : float64).

Definition scalar_float (s : scalar) : float64 :=
  match s with
  | PyInt z | NpInt z => f_of_int z
  | PyFloat x | NpFloat x => x
  end.

(** [sum(a)] for a one-dimensional array [a]. *)
Definition py_sum (a : narray) : scalar :=
  match a with
  | Int64 [] | Float64 [] => PyInt 0
  | Int64 v => NpInt (fold_left (fun acc z => wrap64 (acc + z)) v 0%Z)
  | Float64 v => NpFloat (fold_left f_add v (f_of_int 0))
  end.

(** Python float times scalar: a numpy scalar makes the product a numpy
    float64. *)
Definition py_mul (x : float64) (s : scalar) : scalar :=
  match s with
  | PyInt z => PyFloat (f_mul x (f_of_int z))
  | PyFloat v => PyFloat (f_mul x v)
  | NpInt z => NpFloat (f_mul x (f_of_int z))
  | NpFloat v => NpFloat (f_mul x v)
  end.

(** [num / den]: Python's division raises on a zero divisor when both
    operands are Python numbers; numpy's returns an infinity or a NaN
    (with a warning). *)
Definition truediv (num den : scalar) : result float64 :=
  match num, den with
  | (PyInt _ | PyFloat _), (PyInt _ | PyFloat _) =>
      if f_is_zero (scalar_float den) then Raise ZeroDivisionError
      else Ok (f_div (scalar_float num) (scalar_float den))
  | _, _ => Ok (f_div (scalar_float num) (scalar_float den))
  end.

(** [a / b] on the lengths of lists, Python integers below 2^53: the
    float64 nearest to the quotient. *)
Definition int_truediv (a b : Z) : result float64 :=
  if (b =? 0)%Z then Raise ZeroDivisionError else Ok (f_div (f_of_int a) (f_of_int b)).

(** ** The MASE of one node over one test window (lines 183-187) *)

(** The numerator: [sum(abs(ynew[key].yhat[-len(testIndex):].values
    - y.iloc[testIndex, key+1].values))]. *)
Definition mase_numerator (ynew : Forecasts) (y : DataFrame)
           (testIndex : list nat) (key : nat) : result scalar :=
  tbl <- lookup ynew key ;;
  actual <- iloc y testIndex (key + 1) ;;
  err <- np_sub (Float64 (last_n tbl (length testIndex))) actual ;;
  Ok (py_sum (np_abs err)).

(** The divisor: [(len(testIndex)/(len(testIndex)-1)) *
    sum(abs(y.iloc[testIndex[1:], key+1].values
            - y.iloc[testIndex[:-1], key+1].values))]. *)
Definition mase_divisor (y : DataFrame) (testIndex : list nat) (key : nat)
  : result scalar :=
  let n := Z.of_nat (length testIndex) in
  ratio <- int_truediv n (n - 1) ;;
  later <- iloc y (tl testIndex) (key + 1) ;;
  earlier <- iloc y (drop_last testIndex) (key + 1) ;;
  diffs <- np_sub later earlier ;;
  Ok (py_mul ratio (py_sum (np_abs diffs))).

Definition mase (ynew : Forecasts) (y : DataFrame) (testIndex : list nat)
           (key : nat) : result float64 :=
  num <- mase_numerator ynew y testIndex key ;;
  den <- mase_divisor y testIndex key ;;
  truediv num den.

(** *** The MASE as the specification writes it *)

(** The sum of [|g t|] over the instants [ts], in the rationals. *)
Definition sum_abs_over (ts : list nat) (g : nat -> Q) : Q :=
  fold_left Qplus (map (fun t => Qabs (g t)) ts) 0%Q.

(** The formula of the specification in exact arithmetic, for a test
    window of [n] instants numbered from 0: the sum of the absolute errors
    over the window, divided by [n/(n-1)] times the sum of the absolute
    first differences of the actuals inside the window. *)
Definition mase_spec (forecast actual : nat -> Q) (n : nat) : Q :=
  (sum_abs_over (seq 0 n) (fun t => forecast t - actual t)
   / ((inject_Z (Z.of_nat n) / inject_Z (Z.of_nat n - 1))
      * sum_abs_over (seq 1 (n - 1)) (fun t => actual t - actual (t - 1)%nat)))%Q.

(** The same formula in machine arithmetic.  The errors are float64, an
    int64 actual being converted; the first differences, their absolute
    values and their sum are in the type of the column, int64 (wrapping)
    or float64; the sums run from the left, from 0. *)
Definition float_sum_abs (ts : list nat) (g : nat -> float64) : float64 :=
  fold_left f_add (map (fun t => f_abs (g t)) ts) (f_of_int 0).

Definition int_sum_abs (ts : list nat) (g : nat -> Z) : Z :=
  fold_left (fun acc z => wrap64 (acc + z))
            (map (fun t => wrap64 (Z.abs (g t))) ts) 0%Z.

Inductive actuals : Type :=
| IntActuals (a : nat -> Z)
| FloatActuals (a : nat -> float64).

Definition actual_float (a : actuals) (t : nat) : float64 :=
  match a with
  | IntActuals f => f_of_int (f t)
  | FloatActuals f => f t
  end.

Definition diff_sum (a : actuals) (n : nat) : float64 :=
  match a with
  | IntActuals f =>
      f_of_int (int_sum_abs (seq 1 (n - 1)) (fun t => wrap64 (f t - f (t - 1))))
  | FloatActuals f =>
      float_sum_abs (seq 1 (n - 1)) (fun t => f_sub (f t) (f (t - 1)))
  end.

(** The actuals of the window that starts at row [start] of a column. *)
Definition window_actuals (col : narray) (start : nat) : actuals :=
  match col with
  | Int64 v => IntActuals (fun t => nth (start + t) v 0%Z)
  | Float64 v => FloatActuals (fun t => nth (start + t) v f_zero)
  end.

Definition mase_machine (forecast : nat -> float64) (actual : actuals) (n : nat)
  : float64 :=
  f_div (float_sum_abs (seq 0 n) (fun t => f_sub (forecast t) (actual_float actual t)))
        (f_mul (f_div (f_of_int (Z.of_nat n)) (f_of_int (Z.of_nat n - 1)))
               (diff_sum actual n)).

(** ** Mean, minimum and position of the minimum *)

(** The eight partial sums of numpy's unrolled loop: the first eight
    elements, to which every further block of eight is added. *)
Fixpoint add_blocks (blocks : nat) (r a : list float64) : list float64 :=
  match blocks with
  | O => r
  | S k => add_blocks k (map (fun p => f_add (fst p) (snd p)) (combine r (firstn 8 a)))
                      (skipn 8 a)
  end.

(** [pairwise_sum] of numpy (loops_utils.h.src), which [np.add.reduce]
    runs on a contiguous float64 array: below eight elements a plain loop
    from 0; up to 128 elements eight interleaved partial sums, added two
    by two, then the remaining elements; above, the two halves, the first
    of a length that is a multiple of eight. *)
Fixpoint pairwise_sum (fuel : nat) (a : list float64) : float64 :=
  let n := length a in
  if n <? 8 then fold_left f_add a f_zero
  else if n <=? 128 then
    let r := add_blocks (n / 8 - 1) (firstn 8 a) (skipn 8 a) in
    let r_ i := nth i r f_zero in
    let res := f_add (f_add (f_add (r_ 0) (r_ 1)) (f_add (r_ 2) (r_ 3)))
                     (f_add (f_add (r_ 4) (r_ 5)) (f_add (r_ 6) (r_ 7))) in
    fold_left f_add (skipn (n - n mod 8) a) res
  else
    match fuel with
    | O => f_nan
    | S fuel' =>
        let n2 := n / 2 - (n / 2) mod 8 in
        f_add (pairwise_sum fuel' (firstn n2 a)) (pairwise_sum fuel' (skipn n2 a))
    end.

(** [np.mean(l)] of a Python list of floats: [np.add.reduce] adds the
    pairwise sum to its initial 0, and the sum is divided by the length;
    the mean of the empty list is 0/0, a NaN. *)
Definition np_mean (l : list float64) : float64 :=
  f_div (f_add f_zero (pairwise_sum (length l) l)) (f_of_int (Z.of_nat (length l))).

(** [a < b] on floats: false as soon as a NaN is involved. *)
Definition flt (a b : fval) : bool :=
  match a, b with
  | NaN, _ | _, NaN => false
  | NInf, NInf => false
  | NInf, _ => true
  | _, NInf => false
  | PInf, _ => false
  | Fin _, PInf => true
  | Fin x, Fin y => negb (Qle_bool y x)
  end.

(** [a is b or a == b] for an element [a] of the list and the object [b]
    that [min] returned: equal floats match, and a NaN minimum is the very
    object that sits first in the list. *)
Definition fsame (a b : fval) : bool :=
  match a, b with
  | NaN, NaN => true
  | PInf, PInf => true
  | NInf, NInf => true
  | Fin x, Fin y => Qeq_bool x y
  | _, _ => false
  end.

(** One step of [min]: the candidate [best] gives way to a strictly
    smaller element only. *)
Definition keep_smaller (best c : fval) : fval := if flt c best then c else best.

(** [min(l)] *)
Definition py_min (l : list fval) : result fval :=
  match l with
  | [] => Raise ValueError
  | x :: l' => Ok (fold_left keep_smaller l' x)
  end.

(** [l.index(x)] *)
Fixpoint py_index (l : list fval) (x : fval) : result nat :=
  match l with
  | [] => Raise ValueError
  | c :: l' => if fsame c x then Ok 0
               else i <- py_index l' x ;; Ok (S i)
  end.

Definition methodList : list string := ["OC"; "FP"; "PHA"; "AHP"; "BU"].

(** [methodList[choices.index(min(choices))]] (line 192) *)
Definition choose (choices : list fval) : result string :=
  m <- py_min choices ;;
  i <- py_index choices m ;;
  index methodList i.

(** The order of preference that the specification gives for ties. *)
Definition spec_priority : list string := ["BU"; "FP"; "PHA"; "AHP"; "OC"].

Fixpoint position (m : string) (l : list string) : nat :=
  match l with
  | [] => 0
  | x :: l' => if String.eqb x m then 0 else S (position m l')
  end.

(** The average of method [m] among the [choices], which follow
    [methodList]. *)
Definition average_of (choices : list fval) (m : string) : fval :=
  nth (position m methodList) choices NaN.

(** No average is strictly below [c]. *)
Definition is_minimal (choices : list fval) (c : fval) : bool :=
  forallb (fun d => negb (flt d c)) choices.

(** The selection as the specification words it: the first method, in
    the order of [spec_priority], whose average is minimal. *)
Definition choose_by_priority (choices : list fval) : option string :=
  find (fun m => is_minimal choices (average_of choices m)) spec_priority.

(** ** The orchestrator *)

(** The observable steps of a run: calls of the forecasting backend
    (method, horizon, rows of the table passed) and printing in [hts];
    in [orderHier], the series stored in [allDataframes] (by key). *)
Inductive event : Type :=
| BackendCall (method : string) (h : Z) (rows : nat)
| Print (s : string)
| BuildSeries (key : string).

(** Computations that raise and leave a trace of events. *)
Definition M (A : Type) : Type := list event -> result A * list event.

Definition mret {A : Type} (a : A) : M A := fun tr => (Ok a, tr).

Definition mbind {A B : Type} (m : M A) (k : A -> M B) : M B :=
  fun tr =>
    match m tr with
    | (Ok a, tr') => k a tr'
    | (Raise e, tr') => (Raise e, tr')
    end.

Definition lift {A : Type} (r : result A) : M A := fun tr => (r, tr).

Definition emit (e : event) : M unit := fun tr => (Ok tt, tr ++ [e]).

(** [sys.exit(msg)] *)
Definition sys_exit {A : Type} (msg : string) : M A :=
  lift (Raise (SystemExit msg)).

Notation "x <~ m ;; k" := (mbind m (fun x => k))
  (at level 61, m at next level, right associativity) : py_scope.
Notation "'do' m ;; k" := (mbind m (fun _ => k))
  (at level 61, m at next level, right associativity) : py_scope.

Fixpoint forM {A : Type} {S : Type} (l : list A) (s : S) (body : A -> S -> M S) : M S :=
  match l with
  | [] => mret s
  | x :: l' => s' <~ body x s ;; forM l' s' body
  end.

(** The values [cap] and [capF] can take. *)
Inductive capacity : Type :=
| CapNone
| CapInt (z : Z)
| CapFloat (q : Q)
| CapFrame (df : DataFrame)
| CapOther.

Definition is_frame (c : capacity) : bool :=
  match c with CapFrame _ => true | _ => false end.

Definition cap_columns (c : capacity) : nat :=
  match c with CapFrame df => length df | _ => 0 end.

Definition is_cap_other (c : capacity) : bool :=
  match c with CapOther => true | _ => false end.

Definition nrows_df (y : DataFrame) : nat :=
  match y with
  | [] => 0
  | col :: _ => alen col
  end.

Definition str_in (s : string) (l : list string) : bool :=
  existsb (String.eqb s) l.

(** The five lists [MASE1] ... [MASE5]. *)
Definition Scores : Type :=
  (list float64 * list float64 * list float64 * list float64 * list float64)%type.

Definition no_scores : Scores := ([], [], [], [], []).

(** The error handling of [hts] (lines 130-147): the message of the first
    check that fails, if any. *)
Definition config_error (y : DataFrame) (h : Z) (nodes : topology)
    (method : string) (cap capF : capacity) : option string :=
  if (h <? 1)%Z then
    Some "you must set h (number of step-ahead forecasts) to a positive number"
  else if negb (str_in method ["OC"; "FP"; "PHA"; "AHP"; "BU"; "cvSelect"]) then
    Some "not a valid method input, must be one of the following: 'OC','FP','PHA','AHP','BU','cvSelect'"
  else if length nodes <? 1 then
    Some "nodes input should at least be of length 1"
  else if negb (Z.of_nat (list_sum (numAtLev nodes)) =? Z.of_nat (length y) - 2)%Z then
    Some "The sum of the nodes list does not equal the number of columns - 2, dataframe should contain a time column in the 0th pos. Double check node input"
  else if is_cap_other cap then
    Some "cap should be a constant (float or int) or a DataFrame, or not specified"
  else if is_cap_other capF then
    Some "capF should be a constant (float or int) or a DataFrame, or not specified"
  else if is_frame cap && negb (Z.of_nat (cap_columns cap) =? Z.of_nat (length y) - 1)%Z then
    Some "If cap is a DataFrame, it should have a number of columns equal to the input Dataframe - 1"
  else if is_frame capF && negb (Z.of_nat (cap_columns capF) =? Z.of_nat (length y) - 1)%Z then
    Some "If capF is a DataFrame, it should have a number of columns equal to the input Dataframe - 1"
  else None.

Section Orchestrator.

(** The arguments that [hts] hands to the backend without looking at
    them: [freq], [changepoints], [n_changepoints], the seasonalities,
    [holidays], the prior scales, [mcmc_samples], [interval_width] and
    [uncertainty_samples]. *)
Variable Hyper : Type.

(** The forecasting backend [fitForecast] of [htsprophet.fitForecast]. *)
Variable fitForecast :
  DataFrame -> Z -> ndarray -> topology -> string -> bool ->
  capacity -> capacity -> Hyper -> result Forecasts.

(** [TimeSeriesSplit(n_splits=3).split(X)], as a function of [len(X)]:
    the list of (trainIndex, testIndex). *)
Variable tscv_split : nat -> result (list (list nat * list nat)).

Definition call_fitForecast (y : DataFrame) (h : Z) (sumMat : ndarray)
    (nodes : topology) (method : string) (include_history : bool)
    (cap capF : capacity) (hp : Hyper) : M Forecasts :=
  do emit (BackendCall method h (nrows_df y)) ;;
  lift (fitForecast y h sumMat nodes method include_history cap capF hp).

(** The body of the loop over [ynew1.keys()] (lines 183-187). *)
Definition score_key (ynew1 ynew2 ynew3 ynew4 ynew5 : Forecasts)
    (y : DataFrame) (testIndex : list nat) (key : nat) (s : Scores) : M Scores :=
  let '(MASE1, MASE2, MASE3, MASE4, MASE5) := s in
  v1 <~ lift (mase ynew1 y testIndex key) ;;
  v2 <~ lift (mase ynew2 y testIndex key) ;;
  v3 <~ lift (mase ynew3 y testIndex key) ;;
  v4 <~ lift (mase ynew4 y testIndex key) ;;
  v5 <~ lift (mase ynew5 y testIndex key) ;;
  mret (MASE1 ++ [v1], MASE2 ++ [v2], MASE3 ++ [v3], MASE4 ++ [v4], MASE5 ++ [v5]).

(** The body of the loop over the folds (lines 167-187). *)
Definition cv_fold (y : DataFrame) (sumMat : ndarray) (nodes : topology)
    (include_history : bool) (cap capF : capacity) (hp : Hyper)
    (fold : list nat * list nat) (s : Scores) : M Scores :=
  let '(trainIndex, testIndex) := fold in
  let fit method :=
    ytrain <~ lift (iloc_rows y trainIndex) ;;
    m <~ lift (index methodList method) ;;
    call_fitForecast ytrain (Z.of_nat (length testIndex)) sumMat nodes m
                     include_history cap capF hp in
  ynew1 <~ fit 0 ;;
  ynew2 <~ fit 1 ;;
  ynew3 <~ fit 2 ;;
  ynew4 <~ fit 3 ;;
  ynew5 <~ fit 4 ;;
  forM (keys ynew1) s (score_key ynew1 ynew2 ynew3 ynew4 ynew5 y testIndex).

(** The loop over [tscv.split(y.iloc[:,0])] (lines 166-187). *)
Definition cv_scores (y : DataFrame) (sumMat : ndarray) (nodes : topology)
    (include_history : bool) (cap capF : capacity) (hp : Hyper) : M Scores :=
  time <~ lift (index y 0) ;;
  folds <~ lift (tscv_split (alen time)) ;;
  forM folds no_scores (cv_fold y sumMat nodes include_history cap capF hp).

Definition choices_of (s : Scores) : list fval :=
  let '(MASE1, MASE2, MASE3, MASE4, MASE5) := s in
  map f_value [np_mean MASE1; np_mean MASE2; np_mean MASE3; np_mean MASE4; np_mean MASE5].

Definition hts (y : DataFrame) (h : Z) (nodes : topology) (method : string)
    (include_history : bool) (cap capF : capacity) (hp : Hyper) : M Forecasts :=
  match config_error y h nodes method cap capF with
  | Some msg => sys_exit msg
  | None =>
    if String.eqb method "cvSelect" then
      sumMat <~ lift (SummingMat nodes) ;;
      s <~ cv_scores y sumMat nodes include_history cap capF hp ;;
      choice <~ lift (choose (choices_of s)) ;;
      ynew <~ call_fitForecast y h sumMat nodes choice include_history cap capF hp ;;
      do emit (Print choice) ;;
      mret ynew
    else
      sumMat <~ lift (SummingMat nodes) ;;
      call_fitForecast y h sumMat nodes method include_history cap capF hp
  end.

End Orchestrator.

(** A wide table of [ncols] columns and no rows, for runs in which only
    the shape of [y] matters. *)
Definition empty_table (ncols : nat) : DataFrame := repeat (Int64 []) ncols.

(** The configurations that [hts] must refuse. *)
Definition misconfigured (y : DataFrame) (h : Z) (nodes : topology)
    (method : string) (cap capF : capacity) : Prop :=
  (h < 1)%Z
  \/ ~ In method ["OC"; "FP"; "PHA"; "AHP"; "BU"; "cvSelect"]
  \/ nodes = []
  \/ Z.of_nat (list_sum (numAtLev nodes)) <> (Z.of_nat (length y) - 2)%Z
  \/ (exists df, cap = CapFrame df /\ Z.of_nat (length df) <> (Z.of_nat (length y) - 1)%Z)
  \/ (exists df, capF = CapFrame df /\ Z.of_nat (length df) <> (Z.of_nat (length y) - 1)%Z).

(** Every one of the five lists has [n] scores. *)
Definition scores_each (s : Scores) (n : nat) : Prop :=
  let '(MASE1, MASE2, MASE3, MASE4, MASE5) := s in
  length MASE1 = n /\ length MASE2 = n /\ length MASE3 = n
  /\ length MASE4 = n /\ length MASE5 = n.

Section ScoredKeys.

Variable Hyper : Type.
Variable fitForecast :
  DataFrame -> Z -> ndarray -> topology -> string -> bool ->
  capacity -> capacity -> Hyper -> result Forecasts.

(** The number of keys of [ynew1] in a fold: the forecast tables that the
    backend returns for the first method on the train rows. *)
Definition keys_scored (y : DataFrame) (sumMat : ndarray) (nodes : topology)
    (include_history : bool) (cap capF : capacity) (hp : Hyper)
    (fold : list nat * list nat) : nat :=
  match iloc_rows y (fst fold) with
  | Ok ytrain =>
      match fitForecast ytrain (Z.of_nat (length (snd fold))) sumMat nodes "OC"
                        include_history cap capF hp with
      | Ok ynew1 => length (keys ynew1)
      | Raise _ => 0
      end
  | Raise _ => 0
  end.

(** The contract of the backend in the specification: one forecast table
    per column of the table it is given, the time column apart, keyed
    0, 1, 2, ... *)
Definition per_node_backend : Prop :=
  forall y h sumMat nodes method include_history cap capF hp ynew,
    fitForecast y h sumMat nodes method include_history cap capF hp = Ok ynew ->
    keys ynew = seq 0 (length y - 1).

End ScoredKeys.

(** ** A splitter and a backend to run the orchestrator on *)

(** Modelled from the spec: the splitter is scikit-learn's
    [TimeSeriesSplit], which is not part of the sources.  The spec asks for
    a deterministic 3-fold forward-chaining split, each test window a
    contiguous block strictly after its train prefix, the windows
    non-overlapping and increasing; the boundaries below are
    scikit-learn's: blocks of [n_samples // 4] rows, the last three of
    them being the test windows. *)
Definition TimeSeriesSplit (n_samples : nat) : result (list (list nat * list nat)) :=
  let n_splits := 3 in
  let n_folds := n_splits + 1 in
  if n_samples <? n_folds then Raise ValueError
  else
    let test_size := n_samples / n_folds in
    let first := n_samples - n_splits * test_size in
    Ok (map (fun i => let test_start := first + i * test_size in
                      (seq 0 test_start, seq test_start test_size))
            (seq 0 n_splits)).

(** Modelled from the spec: [fitForecast] is in
    [htsprophet/fitForecast.py], which is not part of the sources.  The
    spec has the backend return one forecast table per node of the wide
    table, keyed by node index (0 for the total), each with the history
    followed by [h] future rows.  This stand-in forecasts every node by
    its last observed value (0 for an empty history), whatever the method. *)
Definition naive_fitForecast (y : DataFrame) (h : Z) (sumMat : ndarray)
    (nodes : topology) (method : string) (include_history : bool)
    (cap capF : capacity) (hp : unit) : result Forecasts :=
  Ok (map (fun node =>
             let series := as_float64 (nth (node + 1) y (Float64 [])) in
             let future := repeat (last series f_zero) (Z.to_nat h) in
             (node, if include_history then series ++ future else future))
          (seq 0 (length y - 1))).

Definition hts_naive (y : DataFrame) (h : Z) (nodes : topology) (method : string) : M Forecasts :=
  hts unit naive_fitForecast TimeSeriesSplit y h nodes method true CapNone CapNone tt.

Definition floats (l : list Z) : list float64 := map f_of_int l.

Definition y8 : DataFrame :=
  [ Int64 [1;2;3;4;5;6;7;8]%Z;
    Int64 [10;12;15;17;18;21;21;26]%Z;
    Int64 [4;5;7;8;8;10;9;12]%Z;
    Int64 [6;7;8;9;10;11;12;14]%Z ].

(** Six rows: every test window of [TimeSeriesSplit] has length one,
    after three rows of training at least. *)
Definition y6 : DataFrame :=
  [ Int64 [1;2;3;4;5;6]%Z;
    Int64 [10;12;15;17;18;21]%Z;
    Int64 [4;5;7;8;8;10]%Z;
    Int64 [6;7;8;9;10;11]%Z ].

(** Eight rows; the last column does not move over the first test window
    (rows 2 and 3). *)
Definition y8_flat : DataFrame :=
  [ Int64 [1;2;3;4;5;6;7;8]%Z;
    Int64 [10;12;15;16;18;21;21;26]%Z;
    Int64 [4;5;7;8;8;10;9;12]%Z;
    Int64 [6;7;8;8;10;11;12;14]%Z ].

(** The scenario of the specification, with four rows of history before
    the test window: actuals 10, 12, 14, 16 and forecasts 11, 11, 15, 15. *)
Definition y_scenario : DataFrame :=
  [ Int64 [1;2;3;4;5;6;7;8]%Z; Int64 [3;5;8;9;10;12;14;16]%Z ].

Definition ynew_scenario : Forecasts :=
  [ (0, floats [3;5;8;9;11;11;15;15]%Z) ].

(** An int64 column whose first difference overflows: the two actuals
    are 2^62 and -2^62, the forecasts are 0. *)
Definition y_overflow : DataFrame :=
  [ Int64 [1; 2]%Z; Int64 [2 ^ 62; - 2 ^ 62]%Z ].

Definition ynew_overflow : Forecasts := [ (0, floats [0; 0]%Z) ].

(** The summing matrix of a total with two leaves, and the
    cross-validation of [y8] with the stand-in backend. *)
Definition sumMat2 : ndarray := Arr2 2 [[1; 1]; [1; 0]; [0; 1]]%Z.

Definition cv_run8 : result Scores * list event :=
  cv_scores unit naive_fitForecast TimeSeriesSplit y8 sumMat2 [[2]]
            true CapNone CapNone tt [].

Definition scores8 : Scores :=
  match fst cv_run8 with
  | Ok s => s
  | Raise _ => no_scores
  end.

Definition trace8 : list event := snd cv_run8.

(** Modelled from the spec: a second stand-in for the backend, whose
    forecasts depend on the method, as those of the real backend do.  It
    forecasts every node by its last observed value plus an offset that
    the method fixes: 0 for OC, 2 for FP and for PHA, 1 for AHP, 3 for BU. *)
Definition method_offset (method : string) : Z :=
  if String.eqb method "OC" then 0
  else if String.eqb method "FP" then 2
  else if String.eqb method "PHA" then 2
  else if String.eqb method "AHP" then 1
  else 3.

Definition offset_fitForecast (y : DataFrame) (h : Z) (sumMat : ndarray)
    (nodes : topology) (method : string) (include_history : bool)
    (cap capF : capacity) (hp : unit) : result Forecasts :=
  Ok (map (fun node =>
             let series := as_float64 (nth (node + 1) y (Float64 [])) in
             let future :=
               repeat (f_add (last series f_zero) (f_of_int (method_offset method)))
                      (Z.to_nat h) in
             (node, if include_history then series ++ future else future))
          (seq 0 (length y - 1))).

Definition hts_offset (y : DataFrame) (h : Z) (nodes : topology) (method : string)
  : M Forecasts :=
  hts unit offset_fitForecast TimeSeriesSplit y h nodes method true CapNone CapNone tt.

(** The three folds of a table of eight rows. *)
Definition folds8 : list (list nat * list nat) :=
  [([0; 1], [2; 3]); ([0; 1; 2; 3], [4; 5]); ([0; 1; 2; 3; 4; 5], [6; 7])].

(** ** The averages of the methods, as the specification describes them *)

(** The list of a method among the five lists of scores, by its position
    in [methodList]. *)
Definition scores_nth (s : Scores) (k : nat) : list float64 :=
  let '(MASE1, MASE2, MASE3, MASE4, MASE5) := s in
  nth k [MASE1; MASE2; MASE3; MASE4; MASE5] [].

Section MethodAverages.

Variable Hyper : Type.
Variable fitForecast :
  DataFrame -> Z -> ndarray -> topology -> string -> bool ->
  capacity -> capacity -> Hyper -> result Forecasts.
Variables (y : DataFrame) (sumMat : ndarray) (nodes : topology)
          (include_history : bool) (cap capF : capacity) (hp : Hyper).

(** The scores of [method] in one fold: the method is fitted on the
    train rows at the horizon of the test window, and its forecast is
    scored over the test window for every node that is scored (the keys
    of the forecast of the first method). *)
Definition fold_scores (method : string) (fold : list nat * list nat)
  : result (list float64) :=
  ytrain <- iloc_rows y (fst fold) ;;
  first <- fitForecast ytrain (Z.of_nat (length (snd fold))) sumMat nodes "OC"
                       include_history cap capF hp ;;
  ynew <- fitForecast ytrain (Z.of_nat (length (snd fold))) sumMat nodes method
                      include_history cap capF hp ;;
  mapM (mase ynew y (snd fold)) (keys first).

(** The scores of [method] over all the folds, and their average. *)
Definition method_scores (method : string) (folds : list (list nat * list nat))
  : result (list float64) :=
  per_fold <- mapM (fold_scores method) folds ;; Ok (concat per_fold).

Definition method_average (method : string) (folds : list (list nat * list nat))
  : result fval :=
  l <- method_scores method folds ;; Ok (f_value (np_mean l)).

End MethodAverages.


(** ** The hierarchy builder [orderHier] *)

(** [s.count(sub)]: the number of non-overlapping occurrences of [sub] in
    [s], scanning from the left; [skip] characters of the last match are
    still to be passed over. *)
Fixpoint count_from (sub s : string) (skip : nat) : nat :=
  match s with
  | EmptyString => 0
  | String _ s' =>
      match skip with
      | S k => count_from sub s' k
      | O => if String.prefix sub s
             then S (count_from sub s' (String.length sub - 1))
             else count_from sub s' 0
      end
  end.

Definition str_count (s sub : string) : nat :=
  match sub with
  | EmptyString => S (String.length s)
  | _ => count_from sub s 0
  end.

(** [x | y] on level assignments: [None | int] raises TypeError. *)
Definition py_or (x y : option Z) : result Z :=
  match x, y with
  | Some a, Some b => Ok (Z.lor a b)
  | _, _ => Raise TypeError
  end.

Definition py_eq (x y : option Z) : bool :=
  match x, y with
  | Some a, Some b => (a =? b)%Z
  | None, None => true
  | _, _ => false
  end.

(** [c in [1,2,3]] *)
Definition in_123 (c : option Z) : bool :=
  match c with
  | Some z => ((z =? 1) || (z =? 2) || (z =? 3))%Z
  | None => false
  end.

Definition is_None (c : option Z) : bool :=
  match c with None => true | Some _ => false end.

(** The condition of line 279, [col1 == col2 | col1 == col3 | col2 == col3]:
    [|] binds tighter than [==], so that this is the chained comparison
    [col1 == (col2 | col1) == (col3 | col2) == col3], evaluated from the
    left and stopping at the first comparison that fails. *)
Definition same_level (col1 col2 col3 : option Z) : result bool :=
  t1 <- py_or col2 col1 ;;
  if negb (py_eq col1 (Some t1)) then Ok false
  else t2 <- py_or col3 col2 ;;
       if negb (t1 =? t2)%Z then Ok false
       else Ok (py_eq (Some t2) col3).

(** [orderList.index(k)] *)
Fixpoint list_index (l : list Z) (k : Z) : result nat :=
  match l with
  | [] => Raise ValueError
  | x :: l' => if (x =? k)%Z then Ok 0 else i <- list_index l' k ;; Ok (S i)
  end.

Fixpoint forM_ {A : Type} (l : list A) (body : A -> M unit) : M unit :=
  match l with
  | [] => mret tt
  | x :: l' => do body x ;; forM_ l' body
  end.

Definition joined (a b : string) : string := (a ++ "_" ++ b)%string.

Section Builder.

Variable numIn : nat.
Variable orderList : list Z.
(** [uniqueList]: the distinct values of the tag columns, column by column. *)
Variable uniqueList : list (list string).

(** The distinct values of the tag column that was given level [k]:
    [uniqueList[orderList.index(k)]]. *)
Definition level_values (k : Z) : result (list string) :=
  i <- list_index orderList k ;; index uniqueList i.

(** Lines 314-338: the series of every node, stored under its key. *)
Definition build_series : M unit :=
  l1 <~ lift (level_values 1) ;;
  do forM_ l1 (fun u1 =>
    do emit (BuildSeries u1) ;;
    do emit (BuildSeries (u1 ++ "1")%string) ;;
    if 1 <? numIn then
      l2 <~ lift (level_values 2) ;;
      forM_ l2 (fun u2 =>
        do emit (BuildSeries (joined u1 u2)) ;;
        if 2 <? numIn then
          l3 <~ lift (level_values 3) ;;
          forM_ l3 (fun u3 =>
            do emit (BuildSeries (joined (joined u1 u2) u3)) ;;
            if 3 <? numIn then
              l4 <~ lift (level_values 4) ;;
              forM_ l4 (fun u4 =>
                emit (BuildSeries (joined (joined (joined u1 u2) u3) u4)))
            else mret tt)
        else mret tt)
    else mret tt) ;;
  emit (BuildSeries "total").

Fixpoint concatM {A B : Type} (f : A -> result (list B)) (l : list A) : result (list B) :=
  match l with
  | [] => Ok []
  | x :: l' => ys <- f x ;; zs <- concatM f l' ;; Ok (ys ++ zs)
  end.

(** Lines 341-365: the columns of [y] after the merges, in merge order. *)
Definition merged_columns : result (list string) :=
  l1 <- level_values 1 ;;
  below <- concatM (fun u1 =>
    l2s <- (if 1 <? numIn then
      l2 <- level_values 2 ;;
      concatM (fun u2 =>
        l3s <- (if 2 <? numIn then
          l3 <- level_values 3 ;;
          concatM (fun u3 =>
            l4s <- (if 3 <? numIn then
              l4 <- level_values 4 ;;
              Ok (map (joined (joined (joined u1 u2) u3)) l4)
            else Ok []) ;;
            Ok (joined (joined u1 u2) u3 :: l4s)) l3
        else Ok []) ;;
        Ok (joined u1 u2 :: l3s)) l2
    else Ok []) ;;
    Ok (u1 :: l2s)) l1 ;;
  Ok ("time" :: "total" :: below).

End Builder.

(** Lines 375-408: the columns by number of underscores. *)
Definition with_underscores (k : nat) (cols : list string) : list string :=
  filter (fun col => str_count col "_" =? k) cols.

(** Lines 418, 424, 430: for every parent column, the sum over the child
    columns of [child.count(parent)]. *)
Definition numberList (parents children : list string) : list nat :=
  map (fun parent => list_sum (map (fun i => str_count i parent) children)) parents.

(** Lines 413-432. *)
Definition derive_nodes (numIn : nat) (ycols : list string)
    (count1 count2 count3 count4 : nat) : topology :=
  [[count1 - 2]]
  ++ (if 1 <? numIn
      then [numberList (slice ycols 2 count1) (slice ycols count1 (count1 + count2))]
      else [])
  ++ (if 2 <? numIn
      then [numberList (slice ycols count1 (count1 + count2))
                       (slice ycols (count1 + count2) (count1 + count2 + count3))]
      else [])
  ++ (if 3 <? numIn
      then [numberList (slice ycols (count1 + count2) (count1 + count2 + count3))
                       (slice ycols (count1 + count2 + count3)
                                    (count1 + count2 + count3 + count4))]
      else []).

(** [orderHier(data, col1, col2, col3, col4, rmZeros)].  Of [data] the
    model keeps the distinct values of its tag columns ([tags], one list
    per column, in column order); of the table [y] it keeps the column
    names.  The names are those that pandas gives when the names of the
    data are apart ([names_apart] below): the keys of [allDataframes]
    are taken as distinct, and so are the names of the columns and of
    the value column.
    [dropped] tells which node columns [dropna] removes when [rmZeros]
    is set (the time and total columns have no missing value); this is
    the [dropna] of pandas before 1.5, which takes [how] and [thresh]
    together.  Later versions refuse the two together and raise
    TypeError at line 370. *)
Definition orderHier (tags : list (list string)) (col1 col2 col3 col4 : option Z)
    (rmZeros : bool) (dropped : string -> bool) : M (list string * topology) :=
  if negb (in_123 col1) then sys_exit "col1 should equal 1, 2, 3, or 4"
  else if negb (in_123 col2) then sys_exit "col2 should equal 1, 2, 3, or 4"
  else if negb (is_None col3) && negb (in_123 col3) then
    sys_exit "col3 should equal 1, 2, 3, or 4"
  else
  dup <~ lift (same_level col1 col2 col3) ;;
  if (dup : bool) then sys_exit "col1, col2, and col3 should all have different values"
  else
  match col1 with
  | None => sys_exit "You need at least 1 column specified"
  | Some c1 =>
    setup <~ lift
      match col2, col3, col4 with
      | None, _, _ =>
          u1 <- index tags 0 ;; Ok ([c1], [u1], 1)
      | Some c2, None, _ =>
          u1 <- index tags 0 ;; u2 <- index tags 1 ;;
          Ok ([c1; c2], [u1; u2], 2)
      | Some c2, Some c3, None =>
          u1 <- index tags 0 ;; u2 <- index tags 1 ;; u3 <- index tags 2 ;;
          Ok ([c1; c2; c3], [u1; u2; u3], 3)
      | Some c2, Some c3, Some c4 =>
          u1 <- index tags 0 ;; u2 <- index tags 1 ;; u3 <- index tags 2 ;;
          u4 <- index tags 3 ;;
          Ok ([c1; c2; c3; c4], [u1; u2; u3; u4], 4)
      end ;;
    let '(orderList, uniqueList, numIn) := setup in
    do build_series numIn orderList uniqueList ;;
    merged <~ lift (merged_columns numIn orderList uniqueList) ;;
    let cols :=
      if rmZeros
      then firstn 2 merged ++ filter (fun c => negb (dropped c)) (skipn 2 merged)
      else merged in
    let list1 := with_underscores 0 cols in
    let list2 := with_underscores 1 cols in
    let list3 := with_underscores 2 cols in
    let list4 := with_underscores 3 cols in
    let newOrder := list1 ++ list2 ++ list3 ++ list4 in
    let nodes := derive_nodes numIn newOrder (length list1) (length list2)
                              (length list3) (length list4) in
    mret (newOrder, nodes)
  end.

Definition ab : list string := ["a"; "b"].
Definition xy : list string := ["x"; "y"].
Definition pq : list string := ["p"; "q"].

(** The count that the specification describes for a parent column: the
    child columns whose name starts with the parent's name, each counted
    once. *)
Definition prefix_counts (parents children : list string) : list nat :=
  map (fun parent => length (filter (String.prefix parent) children)) parents.

(** An array of one or two dimensions with [n] columns, all its rows of
    length [n]. *)
Definition shaped (n : nat) (a : ndarray) : Prop :=
  match a with
  | Arr1 v => length v = n
  | Arr2 c rows => c = n /\ Forall (fun r => length r = n) rows
  end.

(** The configurations that pass the checks of [hts]. *)
Definition well_configured (y : DataFrame) (h : Z) (nodes : topology)
    (method : string) (cap capF : capacity) : Prop :=
  (1 <= h)%Z
  /\ In method ["OC"; "FP"; "PHA"; "AHP"; "BU"; "cvSelect"]
  /\ nodes <> []
  /\ Z.of_nat (list_sum (numAtLev nodes)) = (Z.of_nat (length y) - 2)%Z
  /\ cap <> CapOther
  /\ capF <> CapOther
  /\ (forall df, cap = CapFrame df -> Z.of_nat (length df) = (Z.of_nat (length y) - 1)%Z)
  /\ (forall df, capF = CapFrame df -> Z.of_nat (length df) = (Z.of_nat (length y) - 1)%Z).

(** The five backend calls of a fold, in the order of [methodList]: the
    horizon is the length of the test window, the table has the rows of
    the train window. *)
Definition fold_calls (fold : list nat * list nat) : list event :=
  map (fun m => BackendCall m (Z.of_nat (length (snd fold))) (length (fst fold)))
      methodList.

(** [orderList] as lines 283-305 set it from the levels given. *)
Definition order_list (col1 col2 col3 col4 : option Z) : list Z :=
  match col1, col2, col3, col4 with
  | None, _, _, _ => []
  | Some c1, None, _, _ => [c1]
  | Some c1, Some c2, None, _ => [c1; c2]
  | Some c1, Some c2, Some c3, None => [c1; c2; c3]
  | Some c1, Some c2, Some c3, Some c4 => [c1; c2; c3; c4]
  end.

(** The columns that the merges of lines 352-358 add for a parent level
    [parents] and a child level [children]: every parent followed by its
    children; and the child columns alone. *)
Definition below_total (parents children : list string) : list string :=
  flat_map (fun a => a :: map (joined a) children) parents.

Definition second_level (parents children : list string) : list string :=
  flat_map (fun a => map (joined a) children) parents.

(** The merges of lines 341-365 name the columns as [merged_columns]
    says when no name is taken twice.  Every merge adds the column
    [numCol] and renames it: a column that is already called [numCol]
    makes pandas put suffixes on both instead, and a name given twice,
    time or total among them, leaves two columns of one name.  The
    frames merged are looked up in [allDataframes], whose keys are the
    level-1 values, the same values followed by 1, and the joined names:
    a key used twice keeps the later frame only.  So [numCol] is no
    column name, and the column names ([merged], with time and total)
    and the keys of the level-1 values ([level1]) all differ. *)
Definition names_apart (numCol : string) (level1 merged : list string) : Prop :=
  NoDup (merged ++ map (fun u => (u ++ "1")%string) level1) /\ ~ In numCol merged.

(** * Properties *)

(** ** The summing matrix on the two scenarios of the specification *)

(** C2: [SummingMat([[2]])] is [[1,1],[1,0],[0,1]], and
    [SummingMat([[2],[1,2]])] is the 6 x 3 matrix with root row [1,1,1],
    level-1 rows [1,0,0] and [0,1,1], and the 3 x 3 identity below. *)
Theorem SummingMat_scenarios :
  SummingMat [[2]] = Ok (Arr2 2 [[1;1]; [1;0]; [0;1]]%Z)
  /\ SummingMat [[2]; [1;2]]
     = Ok (Arr2 3 [[1;1;1]; [1;0;0]; [0;1;1]; [1;0;0]; [0;1;0]; [0;0;1]]%Z).
Proof. split; reflexivity. Qed.

(** ** Arrays: zeros and lengths *)

Lemma all_zero_zeros (n : nat) : all_zero (zeros n) = true.
Proof. unfold zeros. cbn. induction n; cbn; auto. Qed.

Lemma vadd_length (u v : list Z) :
  length u = length v -> length (vadd u v) = length u.
Proof.
  intros H. unfold vadd. rewrite length_map, length_combine, <- H. apply Nat.min_id.
Qed.

Lemma fold_vadd_length (c : nat) (rows : list (list Z)) :
  Forall (fun r => length r = c) rows ->
  forall acc, length acc = c -> length (fold_left vadd rows acc) = c.
Proof.
  induction 1 as [| r rows Hr _ IH]; intros acc Hacc; [exact Hacc |].
  cbn [fold_left]. apply IH. rewrite vadd_length; congruence.
Qed.

Lemma colsum_length (c : nat) (rows : list (list Z)) :
  Forall (fun r => length r = c) rows -> length (colsum c rows) = c.
Proof. intros H. apply fold_vadd_length; [exact H | apply repeat_length]. Qed.

Lemma unit_row_length (n i : nat) : length (unit_row n i) = n.
Proof. unfold unit_row. now rewrite length_map, length_seq. Qed.

Lemma identity_rows_length (n : nat) :
  Forall (fun r => length r = n) (map (unit_row n) (seq 0 n)).
Proof. apply Forall_forall. intros r Hr. apply in_map_iff in Hr.
  destruct Hr as [i [<- _]]. apply unit_row_length. Qed.

Lemma Forall_take {A : Type} (P : A -> Prop) (n : nat) (l : list A) :
  Forall P l -> Forall P (firstn n l).
Proof.
  intros H. revert n. induction H as [| x l Hx _ IH]; intros [| n]; cbn; auto.
Qed.

Lemma Forall_drop {A : Type} (P : A -> Prop) (n : nat) (l : list A) :
  Forall P l -> Forall P (skipn n l).
Proof.
  intros H. revert n. induction H as [| x l Hx Hl IH]; intros [| n]; cbn; auto.
Qed.

Lemma Forall_slice {A : Type} (P : A -> Prop) (l : list A) (lo hi : nat) :
  Forall P l -> Forall P (slice l lo hi).
Proof. intros H. unfold slice. now apply Forall_take, Forall_drop. Qed.

(** ** The summing matrix: where the construction breaks *)

(** C1: a topology of three levels has a single node at its second
    level; its block sum is a one-dimensional array, and slicing it with
    two indices at the next level raises IndexError: [SummingMat] returns
    no matrix, whatever the child counts (for instance on [[1],[1],[2]],
    a total above one node above one node with two leaves).  On
    [[2],[0,2]] the all-zero sum of the first block is taken for the
    initial value of the accumulator and replaced: the matrix has four
    rows for five nodes.  [hts] accepts [[1],[1],[2]] with a table of six
    columns and ends on the IndexError. *)
Theorem SummingMat_single_node_level :
  (forall a b k : nat, SummingMat [[a]; [b]; [k]] = Raise IndexError)
  /\ SummingMat [[1]; [1]; [2]] = Raise IndexError
  /\ config_error (empty_table 6) 1 [[1]; [1]; [2]] "BU" CapNone CapNone = None
  /\ hts_naive (empty_table 6) 1 [[1]; [1]; [2]] "BU" [] = (Raise IndexError, [])
  /\ SummingMat [[2]; [0; 2]] = Ok (Arr2 2 [[1;1]; [1;1]; [1;0]; [0;1]]%Z)
  /\ 1 + node_count [[2]; [0; 2]] = 5.
Proof.
  split; [| repeat split; reflexivity].
  intros a b k. unfold SummingMat, numAtLev.
  cbn [map list_sum fold_right length seq Nat.sub neg_index Nat.leb andb nth_error].
  rewrite Nat.add_0_r. cbn [rbind build_levels].
  cbn [Nat.add neg_index length Nat.leb andb Nat.sub nth_error rbind sum_blocks].
  unfold identity at 1. cbn [block_sum rbind]. rewrite all_zero_zeros.
  cbn [rbind]. unfold vstack, identity. cbn [atleast_2d].
  rewrite colsum_length by apply Forall_slice, identity_rows_length.
  rewrite Nat.eqb_refl. cbn [rbind block_sum]. reflexivity.
Qed.

(** C3: on [[1],[1],[3]] the matrix in which every parent row is the sum
    of its children's rows exists, and [SummingMat] raises instead of
    returning it; on [[2],[0,2]] the matrix returned does not have the
    property (the row of the childless first node is dropped). *)
Theorem SummingMat_parent_rows_break :
  parents_sum_children [[1]; [1]; [3]]
    (Arr2 3 [[1;1;1]; [1;1;1]; [1;1;1]; [1;0;0]; [0;1;0]; [0;0;1]]%Z) = true
  /\ ~ (exists M, SummingMat [[1]; [1]; [3]] = Ok M
                  /\ parents_sum_children [[1]; [1]; [3]] M = true)
  /\ (exists M, SummingMat [[2]; [0; 2]] = Ok M
                /\ parents_sum_children [[2]; [0; 2]] M = false)
  /\ (exists M, SummingMat [[2]; [1; 2]] = Ok M
                /\ parents_sum_children [[2]; [1; 2]] M = true).
Proof.
  split; [vm_compute; reflexivity |]. split; [| split].
  - intros [M [H _]]. vm_compute in H. discriminate.
  - eexists. split; vm_compute; reflexivity.
  - eexists. split; vm_compute; reflexivity.
Qed.

(** ** The summing matrix on regular topologies *)

Lemma all_zero_cons (c : nat) (s : list Z) (rows : list (list Z)) :
  all_zero (Arr1 s) = false -> all_zero (Arr2 c (s :: rows)) = false.
Proof. unfold all_zero. intros H. change (forallb (forallb (Z.eqb 0)) (s :: rows))
  with (forallb (Z.eqb 0) s && forallb (forallb (Z.eqb 0)) rows). now rewrite H. Qed.

Lemma all_zero_app (c : nat) (rows rows' : list (list Z)) :
  all_zero (Arr2 c rows) = false -> all_zero (Arr2 c (rows ++ rows')) = false.
Proof. unfold all_zero. intros H. now rewrite forallb_app, H. Qed.

Section Blocks.

Variable n : nat.
Variable R : list (list Z).
Hypothesis R_length : Forall (fun r => length r = n) R.

Lemma block_sum_chunk (off k : nat) :
  block_sum (Arr2 n R) off (off + k) = Ok (colsum n (firstn k (skipn off R))).
Proof. cbn. unfold slice. now replace (off + k - off) with k by lia. Qed.

Lemma block_length (off k : nat) :
  length (colsum n (firstn k (skipn off R))) = n.
Proof. apply colsum_length. now apply Forall_take, Forall_drop. Qed.

(** Once the accumulator is a matrix that is not all zero, every block
    adds its row. *)
Lemma sum_blocks_tail (counts : list nat) :
  forall off rowsB,
    all_zero (Arr2 n rowsB) = false ->
    sum_blocks (Arr2 n R) counts off off (Arr2 n rowsB)
    = Ok (Arr2 n (rowsB ++ map (colsum n) (chunks counts (skipn off R)))).
Proof.
  induction counts as [| k counts IH]; intros off rowsB Hnz.
  - cbn. now rewrite app_nil_r.
  - cbn [sum_blocks]. rewrite block_sum_chunk. cbn [rbind]. rewrite Hnz.
    unfold vstack. cbn [atleast_2d]. rewrite block_length, Nat.eqb_refl.
    cbn [rbind]. rewrite IH.
    + cbn [chunks map]. rewrite skipn_skipn, <- app_assoc.
      now replace (k + off) with (off + k) by lia.
    + now apply all_zero_app.
Qed.

(** From the zero accumulator: a single block leaves a one-dimensional
    array, two blocks or more a matrix, provided the first sum is not
    zero. *)
Lemma sum_blocks_first (k : nat) (counts : list nat) :
  all_zero (Arr1 (colsum n (firstn k R))) = false ->
  sum_blocks (Arr2 n R) (k :: counts) 0 0 (zeros n)
  = match counts with
    | [] => Ok (Arr1 (colsum n (firstn k R)))
    | _ => Ok (Arr2 n (map (colsum n) (chunks (k :: counts) R)))
    end.
Proof.
  intros Hnz. cbn [sum_blocks]. rewrite (block_sum_chunk 0 k).
  cbn [rbind skipn]. rewrite all_zero_zeros.
  destruct counts as [| k2 counts]; [reflexivity |].
  cbn [sum_blocks]. rewrite (block_sum_chunk (0 + k) k2). cbn [rbind].
  rewrite Hnz. unfold vstack. cbn [atleast_2d].
  pose proof (block_length 0 k) as L1. pose proof (block_length (0 + k) k2) as L2.
  cbn [skipn] in L1. rewrite L1, L2, Nat.eqb_refl. cbn [rbind].
  rewrite sum_blocks_tail.
  - cbn [chunks map app Nat.add]. rewrite skipn_skipn.
    now replace (k2 + k) with (k + k2) by lia.
  - now apply all_zero_cons.
Qed.

End Blocks.

(** *** Rows that are not zero *)

Lemma vadd_zeros_l (r : list Z) : vadd (repeat 0%Z (length r)) r = r.
Proof.
  unfold vadd. induction r as [| x r IH]; [reflexivity |].
  cbn [length repeat combine map fst snd]. now rewrite IH.
Qed.

Lemma vadd_good (n : nat) (u v : list Z) :
  good_row n u -> length v = n -> Forall (fun x => (0 <= x)%Z) v ->
  good_row n (vadd u v).
Proof.
  intros (Hlen & Hpos & Hex) Hv Hvpos. subst n. unfold good_row, vadd.
  revert v Hv Hvpos. induction u as [| x u IH]; intros [| y v] Hv Hvpos;
    try discriminate.
  - inversion Hex.
  - inversion Hpos as [| ? ? Hx Hu]; subst. inversion Hvpos as [| ? ? Hy Hv']; subst.
    cbn [combine map fst snd length]. split; [| split].
    + rewrite length_map, length_combine. cbn in Hv. injection Hv as Hv.
      now rewrite <- Hv, Nat.min_id.
    + constructor; [lia |].
      apply Forall_forall. intros z Hz. apply in_map_iff in Hz.
      destruct Hz as [[a b] [<- Hab]]. cbn.
      pose proof (in_combine_l _ _ _ _ Hab) as Ha.
      pose proof (in_combine_r _ _ _ _ Hab) as Hb.
      rewrite Forall_forall in Hu, Hv'. specialize (Hu a Ha). specialize (Hv' b Hb). lia.
    + inversion Hex as [? ? Hx0 | ? ? Hu0]; subst.
      * apply Exists_cons_hd. lia.
      * apply Exists_cons_tl. cbn in Hv. injection Hv as Hv.
        destruct (IH Hu Hu0 v Hv Hv') as (_ & _ & Hgoal). exact Hgoal.
Qed.

Lemma fold_vadd_good (n : nat) (rows : list (list Z)) :
  Forall (good_row n) rows ->
  forall acc, good_row n acc -> good_row n (fold_left vadd rows acc).
Proof.
  induction 1 as [| r rows Hr _ IH]; intros acc Hacc; [exact Hacc |].
  cbn [fold_left]. apply IH. destruct Hr as (Hl & Hp & _). now apply vadd_good.
Qed.

(** The sum of a block that is not empty, of good rows, is a good row. *)
Lemma colsum_good (n : nat) (rows : list (list Z)) :
  rows <> [] -> Forall (good_row n) rows -> good_row n (colsum n rows).
Proof.
  destruct rows as [| r rows]; [congruence |]. intros _ H.
  inversion H as [| ? ? Hr Hrows]; subst. unfold colsum. cbn [fold_left].
  destruct Hr as (Hl & Hp & He). subst n. rewrite vadd_zeros_l.
  apply fold_vadd_good; [assumption | now repeat split].
Qed.

Lemma good_row_not_zero (n : nat) (r : list Z) :
  good_row n r -> all_zero (Arr1 r) = false.
Proof.
  intros (_ & _ & He). unfold all_zero.
  induction He as [x r Hx | x r _ IH];
    change (forallb (Z.eqb 0) (x :: r)) with ((0 =? x)%Z && forallb (Z.eqb 0) r).
  - destruct (Z.eqb_spec 0 x); [lia | reflexivity].
  - rewrite IH. apply andb_false_r.
Qed.

Lemma good_row_length (n : nat) (rows : list (list Z)) :
  Forall (good_row n) rows -> Forall (fun r => length r = n) rows.
Proof. apply Forall_impl. now intros r (H & _). Qed.

Lemma unit_row_good (n i : nat) : i < n -> good_row n (unit_row n i).
Proof.
  intros Hi. unfold good_row, unit_row. split; [| split].
  - now rewrite length_map, length_seq.
  - apply Forall_forall. intros x Hx. apply in_map_iff in Hx.
    destruct Hx as [j [<- _]]. destruct (j =? i); lia.
  - apply Exists_exists. exists 1%Z. split; [| lia].
    apply in_map_iff. exists i. rewrite Nat.eqb_refl. split; [reflexivity |].
    apply in_seq. lia.
Qed.

Lemma identity_rows_good (n : nat) : Forall (good_row n) (identity_rows n).
Proof.
  apply Forall_forall. intros r Hr. apply in_map_iff in Hr.
  destruct Hr as [i [<- Hi]]. apply unit_row_good. apply in_seq in Hi. lia.
Qed.

(** *** Blocks *)

Lemma chunks_length {A : Type} (counts : list nat) (rows : list A) :
  length (chunks counts rows) = length counts.
Proof. revert rows. induction counts; intros; cbn; auto. Qed.

Lemma chunks_Forall {A : Type} (P : A -> Prop) (counts : list nat) (rows : list A) :
  Forall P rows -> Forall (Forall P) (chunks counts rows).
Proof.
  revert rows. induction counts as [| k counts IH]; intros rows H; cbn; constructor.
  - now apply Forall_take.
  - now apply IH, Forall_drop.
Qed.

Lemma chunks_nonempty {A : Type} (counts : list nat) (rows : list A) :
  Forall (fun k => 0 < k) counts -> list_sum counts <= length rows ->
  Forall (fun ch => ch <> []) (chunks counts rows).
Proof.
  revert rows. induction counts as [| k counts IH]; intros rows Hpos Hlen;
    [constructor |].
  inversion Hpos as [| ? ? Hk Hcounts]; subst.
  change (list_sum (k :: counts)) with (k + list_sum counts) in Hlen.
  cbn [chunks]. constructor.
  - destruct rows as [| r rows]; [cbn [length] in Hlen; lia |].
    destruct k; [lia | discriminate].
  - apply IH; [assumption |]. rewrite length_skipn. lia.
Qed.

Lemma list_sum_positive (counts : list nat) :
  Forall (fun k => 0 < k) counts -> 1 <= length counts -> 1 <= list_sum counts.
Proof.
  destruct counts as [| k counts]; cbn; [lia |]. intros H _. inversion H. lia.
Qed.

(** *** The rows of a level *)

Lemma level_rows_good (below : topology) :
  forall p, consistent p below ->
    length (level_rows (width p below) below) = p
    /\ Forall (good_row (width p below)) (level_rows (width p below) below).
Proof.
  induction below as [| counts below IH]; intros p Hc.
  - cbn. unfold identity_rows. rewrite length_map, length_seq.
    split; [reflexivity | apply identity_rows_good].
  - destruct Hc as (Hlen & Hpos & Hc). cbn [width level_rows].
    destruct (IH _ Hc) as (HL & HG). set (n := width (list_sum counts) below) in *.
    split; [now rewrite length_map, chunks_length |].
    apply Forall_forall. intros r Hr. apply in_map_iff in Hr.
    destruct Hr as [ch [<- Hch]].
    pose proof (chunks_Forall (good_row n) counts _ HG) as HF.
    pose proof (chunks_nonempty counts (level_rows n below) Hpos) as HN.
    rewrite Forall_forall in HF, HN.
    apply colsum_good; [apply HN; [lia | assumption] | now apply HF].
Qed.

Lemma consistent_app_inv (xs ys : topology) :
  forall q, 1 <= q -> consistent q (xs ++ ys) ->
    exists p, 1 <= p /\ consistent p ys /\ width q (xs ++ ys) = width p ys.
Proof.
  induction xs as [| c xs IH]; intros q Hq Hc.
  - exists q. now repeat split.
  - destruct Hc as (Hlen & Hpos & Hc). cbn [app width].
    apply IH; [| assumption]. apply list_sum_positive; [assumption | lia].
Qed.

(** *** The outer loop *)

Lemma skipn_nth_error {A : Type} (l : list A) (a : nat) (x : A) :
  nth_error l a = Some x -> skipn a l = x :: skipn (S a) l.
Proof.
  revert a. induction l as [| y l IH]; intros [| a] H; try discriminate.
  - cbn in H. inversion H. reflexivity.
  - cbn in H. cbn [skipn]. rewrite (IH a H). reflexivity.
Qed.

(** The loop over [lev] visits the levels from the last one up. *)
Lemma build_levels_rev (nodes : topology) (n : nat) (k : nat) :
  forall a F B,
    a + k <= length nodes ->
    build_levels nodes (seq a k) n F B
    = build_up (firstn k (skipn a (rev nodes))) n F B.
Proof.
  induction k as [| k IH]; intros a F B Hlen; [reflexivity |].
  cbn [seq build_levels]. unfold neg_index.
  replace (a + 1 <=? length nodes) with true by (symmetry; apply Nat.leb_le; lia).
  replace (1 <=? a + 1) with true by (symmetry; apply Nat.leb_le; lia).
  cbn [andb].
  pose proof (nth_error_rev a nodes) as Hrev.
  replace (a <? length nodes) with true in Hrev by (symmetry; apply Nat.ltb_lt; lia).
  replace (length nodes - (a + 1)) with (length nodes - S a) by lia.
  rewrite <- Hrev.
  destruct (nth_error (rev nodes) a) as [summing |] eqn:E.
  - rewrite (skipn_nth_error _ _ _ E). cbn [firstn build_up rbind].
    destruct (sum_blocks B summing 0 0 (zeros n)) as [B' |]; [| reflexivity].
    cbn [rbind]. destruct (vstack B' F) as [F' |]; [| reflexivity].
    cbn [rbind]. apply IH. lia.
  - apply nth_error_None in E. rewrite length_rev in E. lia.
Qed.

(** The loop builds, level by level, the rows of the specification. *)
Lemma build_up_spec (ups : topology) :
  forall below q,
    1 <= q ->
    consistent q (rev ups ++ below) ->
    Forall (fun counts => 2 <= length counts) (tl (rev ups ++ below)) ->
    let n := width q (rev ups ++ below) in
    build_up ups n (Arr2 n (all_rows n below)) (Arr2 n (level_rows n below))
    = Ok (Arr2 n (all_rows n (rev ups ++ below))).
Proof.
  induction ups as [| s ups IH]; intros below q Hq Hc Hw; [reflexivity |].
  cbn zeta in *. cbn [rev] in *. rewrite <- app_assoc in *. cbn [app] in *.
  destruct (consistent_app_inv (rev ups) (s :: below) q Hq Hc) as (p & Hp & Hcs & Hwid).
  destruct Hcs as (Hslen & Hspos & Hcb).
  destruct (level_rows_good below _ Hcb) as (HL & HG).
  cbn [width] in Hwid. rewrite <- Hwid in HL, HG.
  set (n := width q (rev ups ++ s :: below)) in *.
  pose proof (good_row_length _ _ HG) as HRlen.
  destruct s as [| k cs]; [cbn in Hslen; lia |].
  assert (Hfirst : good_row n (colsum n (firstn k (level_rows n below)))).
  { apply colsum_good.
    - inversion Hspos; subst.
      change (list_sum (k :: cs)) with (k + list_sum cs) in HL.
      destruct (level_rows n below); [cbn [length] in HL; lia |].
      destruct k; [lia | discriminate].
    - now apply Forall_take. }
  cbn [build_up].
  rewrite (sum_blocks_first n _ HRlen k cs (good_row_not_zero _ _ Hfirst)).
  destruct cs as [| k2 cs].
  - (* a single node: the loop ends here *)
    destruct ups as [| s' ups].
    + cbn [rbind]. unfold vstack. cbn [atleast_2d].
      destruct Hfirst as (Hl & _). rewrite Hl, Nat.eqb_refl. reflexivity.
    + exfalso. cbn [rev] in Hw.
      assert (Hin : In [k] (tl ((rev ups ++ [s']) ++ [k] :: below))).
      { destruct (rev ups) as [| x xs]; cbn; [now left |].
        rewrite <- app_assoc. apply in_or_app. right. cbn. now right; left. }
      rewrite Forall_forall in Hw. specialize (Hw _ Hin). cbn in Hw. lia.
  - cbn [rbind]. unfold vstack. cbn [atleast_2d]. rewrite Nat.eqb_refl. cbn [rbind].
    change (map (colsum n) (chunks (k :: k2 :: cs) (level_rows n below)))
      with (level_rows n ((k :: k2 :: cs) :: below)).
    change (level_rows n ((k :: k2 :: cs) :: below) ++ all_rows n below)
      with (all_rows n ((k :: k2 :: cs) :: below)).
    exact (IH ((k :: k2 :: cs) :: below) q Hq Hc Hw).
Qed.

Lemma width_leaf_count (l0 : list nat) (levels : topology) :
  leaf_count (l0 :: levels) = width (list_sum l0) levels.
Proof.
  unfold leaf_count, numAtLev. revert l0.
  induction levels as [| c levels IH]; intros l0; [reflexivity |].
  cbn [map width]. rewrite <- IH. reflexivity.
Qed.

Lemma neg_index_last (l : list nat) (x : nat) :
  neg_index (x :: l) 1 = Ok (last (x :: l) 0).
Proof.
  unfold neg_index. cbn [length Nat.leb andb]. 
  replace (S (length l) - 1) with (length l) by lia.
  revert x. induction l as [| y l IH]; intros x; [reflexivity |].
  cbn [length nth_error]. rewrite IH. reflexivity.
Qed.

(** On a regular topology [SummingMat] returns the matrix of the
    specification: the row of ones, then the rows of the levels from the
    first to the leaves. *)
Theorem SummingMat_regular (nodes : topology) :
  regular nodes ->
  SummingMat nodes
  = Ok (Arr2 (leaf_count nodes)
             (repeat 1%Z (leaf_count nodes) :: all_rows (leaf_count nodes) (tl nodes))).
Proof.
  destruct nodes as [| l0 levels]; [intros [] |]. intros (Hq & Hc & Hw).
  unfold SummingMat. change (numAtLev (l0 :: levels))
    with (list_sum l0 :: numAtLev levels).
  rewrite neg_index_last. cbn [rbind].
  change (last (list_sum l0 :: numAtLev levels) 0) with (leaf_count (l0 :: levels)).
  set (n := leaf_count (l0 :: levels)).
  cbn [length Nat.sub]. rewrite Nat.sub_0_r.
  rewrite build_levels_rev by (unfold numAtLev; rewrite length_map; cbn; lia).
  cbn [skipn rev]. unfold numAtLev. rewrite length_map, <- length_rev.
  rewrite firstn_app, Nat.sub_diag, firstn_all. cbn [firstn]. rewrite app_nil_r.
  pose proof (build_up_spec (rev levels) [] (list_sum l0) Hq) as Hup.
  rewrite rev_involutive, app_nil_r in Hup. specialize (Hup Hc Hw).
  cbn zeta in Hup. rewrite <- width_leaf_count in Hup. fold n in Hup.
  cbn [tl]. unfold identity. change (map (unit_row n) (seq 0 n)) with (all_rows n []).
  change (all_rows n []) with (level_rows n []) at 2.
  rewrite Hup. cbn [rbind]. unfold vstack, ones. cbn [atleast_2d].
  rewrite repeat_length, Nat.eqb_refl. reflexivity.
Qed.

(** *** Shape of the matrix on regular topologies *)

Lemma all_rows_split (n : nat) (levels : topology) :
  exists rest,
    all_rows n levels = level_rows n levels ++ rest
    /\ (levels = [] -> rest = [])
    /\ (forall c ls, levels = c :: ls -> rest = all_rows n ls).
Proof.
  destruct levels as [| c ls].
  - exists []. cbn. rewrite app_nil_r. repeat split; auto; discriminate.
  - exists (all_rows n ls). repeat split; auto; try discriminate.
    intros c' ls' H. now inversion H.
Qed.

Lemma all_rows_ends_with_identity (n : nat) (levels : topology) :
  exists upper, all_rows n levels = upper ++ identity_rows n.
Proof.
  induction levels as [| c ls [upper IH]].
  - now exists [].
  - exists (level_rows n (c :: ls) ++ upper). cbn [all_rows].
    now rewrite IH, app_assoc.
Qed.

Lemma all_rows_length (levels : topology) :
  forall p, consistent p levels ->
    length (all_rows (width p levels) levels) = p + list_sum (numAtLev levels).
Proof.
  induction levels as [| c ls IH]; intros p Hc.
  - cbn. unfold identity_rows. rewrite length_map, length_seq. lia.
  - pose proof (level_rows_good (c :: ls) p Hc) as [HL _].
    destruct Hc as (Hlen & Hpos & Hc). cbn [all_rows]. rewrite length_app, HL.
    cbn [width]. rewrite (IH _ Hc). unfold numAtLev. cbn [map].
    change (list_sum (list_sum c :: map list_sum ls))
      with (list_sum c + list_sum (map list_sum ls)). lia.
Qed.

(** X1: On a regular topology the matrix has one row per node, the total
    included, and one column per leaf; its first row is all ones and its
    last rows are those of the identity; between them come the rows of
    the levels in order ([SummingMat_regular]). *)
Theorem SummingMat_regular_shape (nodes : topology) :
  regular nodes ->
  exists upper,
    SummingMat nodes
    = Ok (Arr2 (leaf_count nodes)
               (repeat 1%Z (leaf_count nodes) :: upper ++ identity_rows (leaf_count nodes)))
    /\ length (repeat 1%Z (leaf_count nodes) :: upper ++ identity_rows (leaf_count nodes))
       = 1 + node_count nodes
    /\ length (identity_rows (leaf_count nodes)) = leaf_count nodes.
Proof.
  intros Hreg. pose proof (SummingMat_regular nodes Hreg) as HS.
  destruct nodes as [| l0 levels]; [destruct Hreg |].
  destruct Hreg as (Hq & Hc & Hw). cbn [tl] in HS.
  destruct (all_rows_ends_with_identity (leaf_count (l0 :: levels)) levels)
    as [upper Hupper].
  exists upper. rewrite <- Hupper. split; [exact HS |]. split.
  - cbn [length]. rewrite width_leaf_count, (all_rows_length levels _ Hc).
    unfold node_count, numAtLev. cbn [map].
    change (list_sum (list_sum l0 :: map list_sum levels))
      with (list_sum l0 + list_sum (map list_sum levels)). lia.
  - unfold identity_rows. now rewrite length_map, length_seq.
Qed.

Lemma SummingMat_regular_shape_example :
  regular [[2]; [2; 1]; [2; 1; 3]]
  /\ exists upper,
       SummingMat [[2]; [2; 1]; [2; 1; 3]]
       = Ok (Arr2 6 (repeat 1%Z 6 :: upper ++ identity_rows 6))
       /\ length (repeat 1%Z 6 :: upper ++ identity_rows 6) = 12.
Proof.
  assert (H : regular [[2]; [2; 1]; [2; 1; 3]]).
  { cbn. repeat split; repeat constructor. }
  split; [exact H |].
  destruct (SummingMat_regular_shape _ H) as (upper & HS & HL & _).
  exists upper. split; [exact HS | exact HL].
Defined.

(** *** Column sums, entry by entry *)

Lemma nth_vadd (u : list Z) :
  forall v j, length u = length v -> j < length u ->
    nth j (vadd u v) 0%Z = (nth j u 0 + nth j v 0)%Z.
Proof.
  unfold vadd. induction u as [| x u IH]; intros [| y v] j Hlen Hj;
    try discriminate; [cbn in Hj; lia |].
  destruct j as [| j]; [reflexivity |].
  cbn [combine map nth]. apply IH; cbn in *; lia.
Qed.

Lemma nth_fold_vadd (n j : nat) (rows : list (list Z)) :
  Forall (fun r => length r = n) rows -> j < n ->
  forall acc, length acc = n ->
    nth j (fold_left vadd rows acc) 0%Z
    = (nth j acc 0 + zsum (map (fun r => nth j r 0%Z) rows))%Z.
Proof.
  intros Hrows Hj. induction Hrows as [| r rows Hr _ IH]; intros acc Hacc.
  - cbn. lia.
  - cbn [fold_left map zsum fold_right]. rewrite IH.
    + rewrite nth_vadd by lia. fold (zsum (map (fun r0 => nth j r0 0%Z) rows)). lia.
    + rewrite vadd_length; lia.
Qed.

Lemma nth_zeros (n j : nat) : nth j (repeat 0%Z n) 0%Z = 0%Z.
Proof. revert j. induction n; intros [| j]; cbn; auto. Qed.

Lemma colsum_nth (n j : nat) (rows : list (list Z)) :
  Forall (fun r => length r = n) rows -> j < n ->
  nth j (colsum n rows) 0%Z = zsum (map (fun r => nth j r 0%Z) rows).
Proof.
  intros Hrows Hj. unfold colsum.
  rewrite (nth_fold_vadd n j rows Hrows Hj) by apply repeat_length.
  now rewrite nth_zeros.
Qed.

Lemma zsum_app (l l' : list Z) : zsum (l ++ l') = (zsum l + zsum l')%Z.
Proof. induction l as [| x l IH]; cbn; [reflexivity |]. fold (zsum (l ++ l')).
  fold (zsum l). lia. Qed.

Lemma zsum_concat (f : list Z -> Z) (chs : list (list (list Z))) :
  zsum (map f (concat chs)) = zsum (map (fun ch => zsum (map f ch)) chs).
Proof.
  induction chs as [| ch chs IH]; [reflexivity |].
  cbn [concat map]. rewrite map_app, zsum_app, IH. reflexivity.
Qed.

(** Summing the sums of blocks is summing all their rows. *)
Lemma colsum_concat (n : nat) (chs : list (list (list Z))) :
  Forall (Forall (fun r => length r = n)) chs ->
  colsum n (map (colsum n) chs) = colsum n (concat chs).
Proof.
  intros H.
  assert (H1 : Forall (fun r => length r = n) (map (colsum n) chs)).
  { apply Forall_forall. intros r Hr. apply in_map_iff in Hr.
    destruct Hr as [ch [<- Hch]]. apply colsum_length.
    rewrite Forall_forall in H. now apply H. }
  assert (H2 : Forall (fun r => length r = n) (concat chs)).
  { apply Forall_concat. exact H. }
  apply (nth_ext _ _ 0%Z 0%Z).
  - now rewrite !colsum_length.
  - intros j Hj. rewrite colsum_length in Hj by assumption.
    rewrite !colsum_nth by assumption. rewrite zsum_concat, map_map.
    f_equal. apply map_ext_in. intros ch Hch. apply colsum_nth; [| assumption].
    rewrite Forall_forall in H. now apply H.
Qed.

Lemma concat_chunks {A : Type} (counts : list nat) :
  forall rows : list A,
    list_sum counts = length rows -> concat (chunks counts rows) = rows.
Proof.
  induction counts as [| k counts IH]; intros rows H.
  - destruct rows; [reflexivity | discriminate].
  - change (list_sum (k :: counts)) with (k + list_sum counts) in H.
    cbn [chunks concat]. rewrite IH by (rewrite length_skipn; lia).
    apply firstn_skipn.
Qed.

Lemma zsum_indicator (j : nat) (m : nat) :
  forall a,
    zsum (map (fun i => if j =? i then 1%Z else 0%Z) (seq a m))
    = if (a <=? j) && (j <? a + m) then 1%Z else 0%Z.
Proof.
  induction m as [| m IH]; intros a.
  - cbn [seq map zsum fold_right].
    destruct (Nat.leb_spec a j), (Nat.ltb_spec j (a + 0)); cbn [andb];
      try reflexivity; lia.
  - cbn [seq map zsum fold_right].
    fold (zsum (map (fun i => if j =? i then 1%Z else 0%Z) (seq (S a) m))).
    rewrite IH.
    destruct (Nat.eqb_spec j a), (Nat.leb_spec a j), (Nat.leb_spec (S a) j),
      (Nat.ltb_spec j (a + S m)), (Nat.ltb_spec j (S a + m)); cbn [andb];
      try reflexivity; lia.
Qed.

Lemma unit_row_nth (n i j : nat) :
  j < n -> nth j (unit_row n i) 0%Z = if j =? i then 1%Z else 0%Z.
Proof.
  intros Hj. unfold unit_row.
  rewrite (nth_indep _ 0%Z ((fun k => if k =? i then 1%Z else 0%Z) 0))
    by now rewrite length_map, length_seq.
  rewrite (map_nth (fun k => if k =? i then 1%Z else 0%Z)), seq_nth by assumption.
  reflexivity.
Qed.

(** The rows of the identity sum to the row of ones. *)
Lemma colsum_identity (n : nat) : colsum n (identity_rows n) = repeat 1%Z n.
Proof.
  pose proof (identity_rows_length n) as HI. fold (identity_rows n) in HI.
  apply (nth_ext _ _ 0%Z 0%Z).
  - now rewrite colsum_length, repeat_length.
  - intros j Hj. rewrite colsum_length in Hj by assumption.
    rewrite colsum_nth by assumption. unfold identity_rows. rewrite map_map.
    rewrite (map_ext_in _ (fun i => if j =? i then 1%Z else 0%Z)).
    + rewrite zsum_indicator. cbn [Nat.leb andb Nat.add].
      replace (j <? n) with true by (symmetry; now apply Nat.ltb_lt).
      rewrite (nth_indep _ 0%Z 1%Z) by now rewrite repeat_length.
      now rewrite nth_repeat.
    + intros i _. now apply unit_row_nth.
Qed.

(** Every level is a partition of the leaves: its rows sum to ones. *)
Lemma level_rows_partition (levels : topology) :
  forall p, consistent p levels ->
    colsum (width p levels) (level_rows (width p levels) levels)
    = repeat 1%Z (width p levels).
Proof.
  induction levels as [| c ls IH]; intros p Hc.
  - cbn [width level_rows]. apply colsum_identity.
  - destruct Hc as (Hlen & Hpos & Hc). cbn [width level_rows].
    destruct (level_rows_good ls _ Hc) as (HL & HG).
    rewrite colsum_concat.
    + rewrite concat_chunks by now rewrite HL.
      now apply IH.
    + apply chunks_Forall. now apply good_row_length.
Qed.

(** *** Parents and children on regular topologies *)

Lemma blocks_sum_ok_chunks (n : nat) (counts : list nat) :
  forall R : list (list Z),
    list_sum counts <= length R ->
    blocks_sum_ok n (map (colsum n) (chunks counts R)) counts R = true.
Proof.
  induction counts as [| k counts IH]; intros R H; [reflexivity |].
  change (list_sum (k :: counts)) with (k + list_sum counts) in H.
  cbn [chunks map blocks_sum_ok].
  replace (k <=? length R) with true by (symmetry; apply Nat.leb_le; lia).
  destruct (list_eq_dec Z.eq_dec (colsum n (firstn k R)) (colsum n (firstn k R)))
    as [_ | Hne]; [| congruence].
  cbn [andb]. apply IH. rewrite length_skipn. lia.
Qed.

Lemma firstn_exact {A : Type} (l l' : list A) : firstn (length l) (l ++ l') = l.
Proof. rewrite firstn_app, Nat.sub_diag, firstn_all. cbn. apply app_nil_r. Qed.

Lemma skipn_exact {A : Type} (l l' : list A) : skipn (length l) (l ++ l') = l'.
Proof. rewrite skipn_app, Nat.sub_diag, skipn_all. reflexivity. Qed.

Lemma firstn_level_rows (levels : topology) (p : nat) :
  consistent p levels ->
  firstn p (all_rows (width p levels) levels) = level_rows (width p levels) levels.
Proof.
  intros Hc. destruct (level_rows_good levels p Hc) as (HL & _).
  destruct (all_rows_split (width p levels) levels) as (rest & -> & _).
  rewrite <- HL at 1. apply firstn_exact.
Qed.

Lemma levels_ok_all_rows (levels : topology) :
  forall p, consistent p levels ->
    levels_ok (width p levels) (all_rows (width p levels) levels) p levels = true.
Proof.
  induction levels as [| c ls IH]; intros p Hc.
  - cbn. unfold identity_rows. rewrite length_map, length_seq. apply Nat.eqb_refl.
  - pose proof (level_rows_good (c :: ls) p Hc) as (HL & _).
    destruct Hc as (Hlen & Hpos & Hc).
    destruct (level_rows_good ls _ Hc) as (HLs & _).
    cbn [width] in *. set (n := width (list_sum c) ls) in *.
    cbn [all_rows levels_ok]. rewrite Hlen, Nat.eqb_refl.
    rewrite <- HL. rewrite firstn_exact, skipn_exact.
    pose proof (firstn_level_rows ls _ Hc) as Hf. fold n in Hf. rewrite Hf.
    cbn [level_rows]. rewrite blocks_sum_ok_chunks by lia.
    cbn [andb]. now apply IH.
Qed.

(** X2: On a regular topology whose first level is a single count, the row
    of every node above the leaves, the total included, is the sum of the
    rows of its children. *)
Theorem SummingMat_regular_parent_rows (q : nat) (levels : topology) :
  regular ([q] :: levels) ->
  exists M,
    SummingMat ([q] :: levels) = Ok M
    /\ parents_sum_children ([q] :: levels) M = true.
Proof.
  intros Hreg. pose proof (SummingMat_regular _ Hreg) as HS.
  destruct Hreg as (Hq & Hc & Hw).
  eexists. split; [exact HS |].
  cbn [tl parents_sum_children]. rewrite width_leaf_count.
  set (p := list_sum [q]) in *. set (n := width p levels).
  cbn [levels_ok length Nat.eqb andb skipn firstn]. fold p.
  pose proof (firstn_level_rows levels p Hc) as Hf. fold n in Hf. rewrite Hf.
  destruct (level_rows_good levels p Hc) as (HL & HG). fold n in HL, HG.
  pose proof (levels_ok_all_rows levels p Hc) as Hok. fold n in Hok.
  rewrite Hok, andb_true_r.
  cbn [blocks_sum_ok].
  assert (Hp : p = q) by (unfold p; cbn; lia).
  replace (q <=? length (level_rows n levels)) with true
    by (symmetry; apply Nat.leb_le; lia).
  rewrite <- Hp, <- HL, firstn_all.
  pose proof (level_rows_partition levels p Hc) as Hones. fold n in Hones.
  rewrite Hones.
  destruct (list_eq_dec Z.eq_dec (repeat 1%Z n) (repeat 1%Z n)) as [_ | Hne];
    [| congruence].
  reflexivity.
Qed.

Lemma SummingMat_regular_parent_rows_example :
  regular [[2]; [2; 1]; [2; 1; 3]]
  /\ exists M,
       SummingMat [[2]; [2; 1]; [2; 1; 3]] = Ok M
       /\ parents_sum_children [[2]; [2; 1]; [2; 1; 3]] M = true.
Proof.
  assert (H : regular [[2]; [2; 1]; [2; 1; 3]]).
  { cbn. repeat split; repeat constructor. }
  split; [exact H | exact (SummingMat_regular_parent_rows 2 _ H)].
Defined.

(** ** The MASE of a node *)

Lemma mapM_index_seq {A : Type} (col : list A) (d : A) (start n : nat) :
  start + n <= length col ->
  mapM (index col) (seq start n) = Ok (map (fun t => nth (start + t) col d) (seq 0 n)).
Proof.
  revert start. induction n as [| n IH]; intros start Hlen; [reflexivity |].
  cbn [seq mapM map]. unfold index at 1.
  destruct (nth_error col start) as [x |] eqn:Hx.
  - cbn [rbind]. rewrite IH by lia. cbn [rbind].
    rewrite Nat.add_0_r. rewrite (nth_error_nth _ _ d Hx).
    do 2 f_equal. rewrite <- seq_shift, map_map.
    apply map_ext. intros t. f_equal. lia.
  - apply nth_error_None in Hx. lia.
Qed.

Lemma skipn_as_map {A : Type} (l : list A) (d : A) (k n : nat) :
  k + n = length l ->
  skipn k l = map (fun t => nth (k + t) l d) (seq 0 n).
Proof.
  revert l n. induction k as [| k IH]; intros l n Hlen.
  - cbn [skipn Nat.add]. simpl in Hlen. subst n. induction l as [| x l IHl]; [reflexivity |].
    cbn [length seq map nth]. f_equal. rewrite <- seq_shift, map_map. exact IHl.
  - destruct l as [| x l]; [simpl in Hlen; lia |].
    cbn [skipn]. rewrite (IH l n) by (simpl in Hlen; lia). reflexivity.
Qed.

Lemma broadcast_pointwise {A : Type} (op : A -> A -> A) (f g : nat -> A)
    (ts : list nat) :
  broadcast op (map f ts) (map g ts) = Ok (map (fun t => op (f t) (g t)) ts).
Proof.
  unfold broadcast. rewrite !length_map, Nat.eqb_refl. f_equal.
  induction ts as [| t ts IH]; [reflexivity |].
  cbn [map combine fst snd]. now rewrite IH.
Qed.

Lemma py_sum_float_cons (g : nat -> float64) (t : nat) (ts : list nat) :
  py_sum (np_abs (Float64 (map g (t :: ts)))) = NpFloat (float_sum_abs (t :: ts) g).
Proof. unfold float_sum_abs. cbn [map np_abs py_sum]. now rewrite map_map. Qed.

Lemma py_sum_int_cons (g : nat -> Z) (t : nat) (ts : list nat) :
  py_sum (np_abs (Int64 (map g (t :: ts)))) = NpInt (int_sum_abs (t :: ts) g).
Proof. unfold int_sum_abs. cbn [map np_abs py_sum]. now rewrite map_map. Qed.

Lemma removelast_seq (start n : nat) :
  removelast (seq start (S n)) = seq start n.
Proof.
  revert start. induction n as [| n IH]; intros start; [reflexivity |].
  change (seq start (S (S n))) with (start :: seq (S start) (S n)).
  cbn [removelast]. rewrite IH.
  destruct (seq (S start) (S n)) eqn:E; [discriminate | reflexivity].
Qed.

Lemma window_shift {A : Type} (v : list A) (d : A) (start m : nat) :
  map (fun t => nth (S start + t) v d) (seq 0 m)
  = map (fun t => nth (start + t) v d) (seq 1 m)
  /\ map (fun t => nth (start + t) v d) (seq 0 m)
     = map (fun t => nth (start + (t - 1)) v d) (seq 1 m).
Proof.
  split; rewrite <- (seq_shift m 0), map_map; apply map_ext; intros t; f_equal; lia.
Qed.

(** C6 (as amended): over a test window of [n >= 2] consecutive rows,
    the score that [hts] computes for a node is the formula of the
    specification evaluated in machine arithmetic: the sum of the
    absolute errors of the last [n] forecast rows, in float64, divided by
    [n/(n-1)] times the sum of the absolute first differences of the
    actuals inside the window, these differences and their sum being
    taken in the type of the column, int64 or float64.  For actuals 10,
    12, 14, 16 and forecasts 11, 11, 15, 15 it is the float 0.5. *)
Theorem mase_is_scaled_error :
  (forall (ynew : Forecasts) (y : DataFrame) (key start n : nat)
          (tbl : list float64) (col : narray),
      lookup ynew key = Ok tbl ->
      index y (key + 1) = Ok col ->
      2 <= n -> start + n <= alen col -> n <= length tbl ->
      let forecast := fun t => nth (length tbl - n + t) tbl f_zero in
      mase ynew y (seq start n) key
      = Ok (mase_machine forecast (window_actuals col start) n))
  /\ mase ynew_scenario y_scenario [4; 5; 6; 7] 0 = Ok (f_div (f_of_int 1) (f_of_int 2))
  /\ (exists q, f_value (f_div (f_of_int 1) (f_of_int 2)) = Fin q /\ q == 1 # 2).
Proof.
  split; [| split; [vm_compute; reflexivity | eexists; split; [vm_compute; reflexivity | reflexivity]]].
  intros ynew y key start n tbl col Htbl Hcol Hn Hlen Htlen forecast.
  unfold mase, mase_numerator, mase_divisor, iloc.
  rewrite Htbl, Hcol, length_seq. cbn [rbind].
  destruct n as [| [| m]]; [lia | lia |].
  unfold last_n.
  rewrite (skipn_as_map tbl f_zero (length tbl - S (S m)) (S (S m))) by lia.
  fold forecast.
  unfold int_truediv.
  replace (Z.of_nat (S (S m)) - 1 =? 0)%Z with false
    by (symmetry; apply Z.eqb_neq; lia).
  change (tl (seq start (S (S m)))) with (seq (S start) (S m)).
  unfold drop_last. rewrite removelast_seq.
  destruct col as [v | v]; cbn [alen] in Hlen; unfold take, mase_machine;
    cbn [window_actuals actual_float diff_sum].
  - rewrite (mapM_index_seq v 0%Z start (S (S m)) Hlen). cbn [rbind].
    rewrite (mapM_index_seq v 0%Z (S start) (S m)) by lia.
    rewrite (mapM_index_seq v 0%Z start (S m)) by lia.
    cbn [rbind].
    destruct (window_shift v 0%Z start (S m)) as [-> ->].
    unfold np_sub. cbn [as_float64]. rewrite map_map.
    rewrite (broadcast_pointwise f_sub forecast). cbn [rbind].
    rewrite (broadcast_pointwise (fun x y => wrap64 (x - y))
               (fun t => nth (start + t) v 0%Z)). cbn [rbind].
    change (seq 0 (S (S m))) with (0 :: seq 1 (S m)).
    rewrite py_sum_float_cons.
    change (seq 1 (S m)) with (1 :: seq 2 m).
    rewrite py_sum_int_cons.
    cbn [py_mul truediv scalar_float].
    replace (S (S m) - 1) with (S m) by lia. reflexivity.
  - rewrite (mapM_index_seq v f_zero start (S (S m)) Hlen). cbn [rbind].
    rewrite (mapM_index_seq v f_zero (S start) (S m)) by lia.
    rewrite (mapM_index_seq v f_zero start (S m)) by lia.
    cbn [rbind].
    destruct (window_shift v f_zero start (S m)) as [-> ->].
    unfold np_sub. cbn [as_float64].
    rewrite (broadcast_pointwise f_sub forecast). cbn [rbind].
    rewrite (broadcast_pointwise f_sub (fun t => nth (start + t) v f_zero)).
    cbn [rbind].
    change (seq 0 (S (S m))) with (0 :: seq 1 (S m)).
    rewrite py_sum_float_cons.
    change (seq 1 (S m)) with (1 :: seq 2 m).
    rewrite py_sum_float_cons.
    cbn [py_mul truediv scalar_float].
    replace (S (S m) - 1) with (S m) by lia. reflexivity.
Qed.

Lemma mase_is_scaled_error_witness :
  mase ynew_scenario y_scenario (seq 4 4) 0
  = Ok (mase_machine (fun t => nth (8 - 4 + t) (floats [3;5;8;9;11;11;15;15]%Z) f_zero)
                     (window_actuals (Int64 [3;5;8;9;10;12;14;16]%Z) 4) 4).
Proof.
  refine (proj1 mase_is_scaled_error ynew_scenario y_scenario 0 4 4
            (floats [3;5;8;9;11;11;15;15]%Z) (Int64 [3;5;8;9;10;12;14;16]%Z)
            _ _ _ _ _).
  - reflexivity.
  - reflexivity.
  - lia.
  - simpl; lia.
  - simpl; lia.
Defined.

(** C6 (as stated) fails in machine arithmetic.  On an int64 column
    with the actuals 2^62 and -2^62 the first difference is -2^63, whose
    absolute value in int64 is -2^63 again: with forecasts 0 the score is
    -0.5, where the formula in exact arithmetic gives 0.5. *)
Lemma mase_overflow_is_negative :
  (exists r q, mase ynew_overflow y_overflow [0; 1] 0 = Ok r
               /\ f_value r = Fin q /\ (q == - (1 # 2))%Q)
  /\ mase_divisor y_overflow [0; 1] 0 = Ok (NpFloat (f_of_int (- 2 ^ 64)))
  /\ (mase_spec (fun _ => 0)
                (fun t => inject_Z (nth t [2 ^ 62; - 2 ^ 62]%Z 0%Z)) 2 == 1 # 2)%Q.
Proof.
  split; [| split].
  - eexists. eexists. split; [vm_compute; reflexivity |].
    split; [vm_compute; reflexivity | reflexivity].
  - vm_compute. reflexivity.
  - vm_compute. reflexivity.
Qed.

(** ** Division by zero in the MASE *)

(** C10: the division of the MASE is not guarded.  On a table of six
    rows every test window has one row; the configuration is accepted,
    the five fits of the first fold are made on three rows, and the
    factor [n / (n - 1)] raises ZeroDivisionError.  On [y8_flat] the last
    column is constant over the first test window: the divisor is zero,
    numpy divides and the score is infinite; the run goes on to the end. *)
Theorem mase_division_by_zero_reachable :
  (config_error y6 1 [[2]] "cvSelect" CapNone CapNone = None
   /\ TimeSeriesSplit (nrows_df y6)
      = Ok [([0; 1; 2], [3]); ([0; 1; 2; 3], [4]); ([0; 1; 2; 3; 4], [5])]
   /\ mase_divisor y6 [3] 0 = Raise ZeroDivisionError
   /\ hts_naive y6 1 [[2]] "cvSelect" []
      = (Raise ZeroDivisionError,
         [BackendCall "OC" 1 3; BackendCall "FP" 1 3; BackendCall "PHA" 1 3;
          BackendCall "AHP" 1 3; BackendCall "BU" 1 3]))
  /\ (config_error y8_flat 2 [[2]] "cvSelect" CapNone CapNone = None
      /\ mase_divisor y8_flat [2; 3] 2 = Ok (NpFloat f_zero)
      /\ (exists ynew, naive_fitForecast
                         [Int64 [1; 2]; Int64 [10; 12]; Int64 [4; 5]; Int64 [6; 7]]%Z 2
                         sumMat2 [[2]] "OC" true CapNone CapNone tt = Ok ynew
                       /\ mase ynew y8_flat [2; 3] 2 = Ok f_inf)
      /\ exists ynew tr, hts_naive y8_flat 2 [[2]] "cvSelect" [] = (Ok ynew, tr)).
Proof.
  split.
  - repeat split; reflexivity.
  - split; [reflexivity |]. split; [| split].
    + reflexivity.
    + eexists. split; reflexivity.
    + eexists. eexists. vm_compute. reflexivity.
Qed.

(** ** Validation comes before any forecasting *)

Lemma str_in_In (s : string) (l : list string) : str_in s l = true <-> In s l.
Proof.
  unfold str_in. rewrite existsb_exists. split.
  - intros [x [Hin Heq]]. apply String.eqb_eq in Heq. now subst.
  - intros Hin. exists s. split; [assumption | apply String.eqb_refl].
Qed.

Lemma config_error_misconfigured y h nodes method cap capF :
  misconfigured y h nodes method cap capF ->
  exists msg, config_error y h nodes method cap capF = Some msg.
Proof.
  unfold misconfigured, config_error. intros Hbad.
  destruct (h <? 1)%Z eqn:Hh; [eauto |].
  destruct (str_in method _) eqn:Hm; simpl; [| eauto].
  destruct (length nodes <? 1) eqn:Hn; [eauto |].
  destruct (Z.of_nat (list_sum (numAtLev nodes)) =? Z.of_nat (length y) - 2)%Z eqn:Hs;
    simpl; [| eauto].
  destruct (is_cap_other cap) eqn:Hc; [eauto |].
  destruct (is_cap_other capF) eqn:HcF; [eauto |].
  apply Z.ltb_ge in Hh. apply str_in_In in Hm. apply Z.eqb_eq in Hs.
  apply Nat.ltb_ge in Hn.
  destruct Hbad as [H | [H | [H | [H | [H | H]]]]].
  - lia.
  - contradiction.
  - subst nodes. simpl in Hn. lia.
  - contradiction.
  - destruct H as [df [-> Hne]]. simpl.
    destruct (Z.of_nat (length df) =? Z.of_nat (length y) - 1)%Z eqn:E; simpl; [| eauto].
    apply Z.eqb_eq in E. contradiction.
  - destruct H as [df [-> Hne]].
    destruct (is_frame cap && _); [eauto |]. simpl.
    destruct (Z.of_nat (length df) =? Z.of_nat (length y) - 1)%Z eqn:E; simpl; [| eauto].
    apply Z.eqb_eq in E. contradiction.
Qed.

(** C7: a misconfigured call of [hts] (horizon below 1, unknown method,
    empty [nodes], [nodes] whose total differs from the number of columns
    of [y] minus 2, [cap] or [capF] table whose number of columns differs
    from that of [y] minus 1) ends in [sys.exit] with the trace of events
    as it was: the backend has not been called and nothing has been
    printed or returned. *)
Theorem hts_misconfigured_exits
    (Hyper : Type)
    (fitForecast : DataFrame -> Z -> ndarray -> topology -> string -> bool ->
                   capacity -> capacity -> Hyper -> result Forecasts)
    (tscv_split : nat -> result (list (list nat * list nat)))
    (y : DataFrame) (h : Z) (nodes : topology) (method : string)
    (include_history : bool) (cap capF : capacity) (hp : Hyper)
    (tr : list event) :
  misconfigured y h nodes method cap capF ->
  exists msg,
    hts Hyper fitForecast tscv_split y h nodes method include_history cap capF hp tr
    = (Raise (SystemExit msg), tr).
Proof.
  intros Hbad.
  destruct (config_error_misconfigured _ _ _ _ _ _ Hbad) as [msg Hmsg].
  exists msg. unfold hts. rewrite Hmsg. reflexivity.
Qed.

Lemma hts_misconfigured_exits_witness :
  misconfigured y8 0 [[2]] "cvSelect" CapNone CapNone
  /\ exists msg, hts_naive y8 0 [[2]] "cvSelect" [] = (Raise (SystemExit msg), []).
Proof.
  assert (Hbad : misconfigured y8 0 [[2]] "cvSelect" CapNone CapNone)
    by (left; reflexivity).
  split; [exact Hbad |].
  exact (hts_misconfigured_exits unit naive_fitForecast TimeSeriesSplit
           y8 0 [[2]] "cvSelect" true CapNone CapNone tt [] Hbad).
Defined.

(** ** What the cross-validation scores *)

Lemma mapM_length {A B : Type} (f : A -> result B) (l : list A) (l' : list B) :
  mapM f l = Ok l' -> length l' = length l.
Proof.
  revert l'. induction l as [| x l IH]; intros l' H.
  - inversion H. reflexivity.
  - cbn [mapM] in H. destruct (f x); [| discriminate]. cbn [rbind] in H.
    destruct (mapM f l) as [ys |]; [| discriminate]. cbn [rbind] in H.
    inversion H. cbn [length]. now rewrite (IH ys).
Qed.

Section ScoreCount.

Variable Hyper : Type.
Variable fitForecast :
  DataFrame -> Z -> ndarray -> topology -> string -> bool ->
  capacity -> capacity -> Hyper -> result Forecasts.
Variable tscv_split : nat -> result (list (list nat * list nat)).

Lemma score_key_adds_one ynew1 ynew2 ynew3 ynew4 ynew5 y testIndex key s s' tr tr' n :
  score_key ynew1 ynew2 ynew3 ynew4 ynew5 y testIndex key s tr = (Ok s', tr') ->
  scores_each s n -> scores_each s' (S n) /\ tr' = tr.
Proof.
  destruct s as [[[[m1 m2] m3] m4] m5]. unfold score_key, mbind, lift, mret.
  destruct (mase ynew1 y testIndex key); [| discriminate].
  destruct (mase ynew2 y testIndex key); [| discriminate].
  destruct (mase ynew3 y testIndex key); [| discriminate].
  destruct (mase ynew4 y testIndex key); [| discriminate].
  destruct (mase ynew5 y testIndex key); [| discriminate].
  intros H (H1 & H2 & H3 & H4 & H5). inversion H; subst. split; [| reflexivity].
  unfold scores_each. rewrite !length_app. cbn [length]. lia.
Qed.

Lemma score_keys_add ynew1 ynew2 ynew3 ynew4 ynew5 y testIndex ks :
  forall s s' tr tr' n,
    forM ks s (score_key ynew1 ynew2 ynew3 ynew4 ynew5 y testIndex) tr = (Ok s', tr') ->
    scores_each s n -> scores_each s' (n + length ks) /\ tr' = tr.
Proof.
  induction ks as [| key ks IH]; intros s s' tr tr' n H Hs.
  - cbn in H. inversion H; subst. rewrite Nat.add_0_r. now split.
  - cbn [forM] in H. unfold mbind at 1 in H.
    destruct (score_key _ _ _ _ _ _ _ key s tr) as [[s1 | e] tr1] eqn:E; [| discriminate].
    destruct (score_key_adds_one _ _ _ _ _ _ _ _ _ _ _ _ _ E Hs) as [Hs1 ->].
    destruct (IH _ _ _ _ _ H Hs1) as [Hs' ->]. split; [| reflexivity].
    cbn [length]. now replace (n + S (length ks)) with (S n + length ks) by lia.
Qed.

Lemma cv_fold_adds y sumMat nodes ih cap capF hp fold s s' tr tr' n :
  cv_fold Hyper fitForecast y sumMat nodes ih cap capF hp fold s tr = (Ok s', tr') ->
  scores_each s n ->
  scores_each s' (n + keys_scored Hyper fitForecast y sumMat nodes ih cap capF hp fold).
Proof.
  destruct fold as [trainIndex testIndex].
  unfold cv_fold, keys_scored, call_fitForecast, mbind, lift, emit. cbn [fst snd].
  destruct (iloc_rows y trainIndex) as [ytrain |]; [| discriminate].
  cbn [index nth_error methodList].
  destruct (fitForecast ytrain _ sumMat nodes "OC" ih cap capF hp) as [ynew1 |];
    [| discriminate].
  destruct (fitForecast ytrain _ sumMat nodes "FP" ih cap capF hp) as [ynew2 |];
    [| discriminate].
  destruct (fitForecast ytrain _ sumMat nodes "PHA" ih cap capF hp) as [ynew3 |];
    [| discriminate].
  destruct (fitForecast ytrain _ sumMat nodes "AHP" ih cap capF hp) as [ynew4 |];
    [| discriminate].
  destruct (fitForecast ytrain _ sumMat nodes "BU" ih cap capF hp) as [ynew5 |];
    [| discriminate].
  intros H Hs. now destruct (score_keys_add _ _ _ _ _ _ _ _ _ _ _ _ _ H Hs).
Qed.

Lemma cv_folds_add y sumMat nodes ih cap capF hp folds :
  forall s s' tr tr' n,
    forM folds s (cv_fold Hyper fitForecast y sumMat nodes ih cap capF hp) tr = (Ok s', tr') ->
    scores_each s n ->
    scores_each s'
      (n + list_sum (map (keys_scored Hyper fitForecast y sumMat nodes ih cap capF hp) folds)).
Proof.
  induction folds as [| fold folds IH]; intros s s' tr tr' n H Hs.
  - cbn in H. inversion H; subst. cbn. now rewrite Nat.add_0_r.
  - cbn [forM] in H. unfold mbind at 1 in H.
    destruct (cv_fold _ _ _ _ _ _ _ _ _ fold s tr) as [[s1 | e] tr1] eqn:E; [| discriminate].
    pose proof (cv_fold_adds _ _ _ _ _ _ _ _ _ _ _ _ _ E Hs) as Hs1.
    pose proof (IH _ _ _ _ _ H Hs1) as Hs'.
    simpl. rewrite Nat.add_assoc. exact Hs'.
Qed.

Lemma keys_scored_per_node y sumMat nodes ih cap capF hp fold s s' tr tr' :
  per_node_backend Hyper fitForecast ->
  cv_fold Hyper fitForecast y sumMat nodes ih cap capF hp fold s tr = (Ok s', tr') ->
  keys_scored Hyper fitForecast y sumMat nodes ih cap capF hp fold = length y - 1.
Proof.
  intros Hb. destruct fold as [trainIndex testIndex].
  unfold cv_fold, keys_scored, call_fitForecast, mbind, lift, emit. cbn [fst snd].
  destruct (iloc_rows y trainIndex) as [ytrain |] eqn:Ey; [| discriminate].
  cbn [index nth_error methodList].
  destruct (fitForecast ytrain _ sumMat nodes "OC" ih cap capF hp) as [ynew1 |] eqn:E1;
    [| discriminate].
  intros _. rewrite (Hb _ _ _ _ _ _ _ _ _ _ E1), length_seq.
  unfold iloc_rows in Ey. now rewrite (mapM_length _ _ _ Ey).
Qed.

Lemma cv_folds_per_node y sumMat nodes ih cap capF hp folds :
  per_node_backend Hyper fitForecast ->
  forall s s' tr tr',
    forM folds s (cv_fold Hyper fitForecast y sumMat nodes ih cap capF hp) tr = (Ok s', tr') ->
    list_sum (map (keys_scored Hyper fitForecast y sumMat nodes ih cap capF hp) folds)
    = length folds * (length y - 1).
Proof.
  intros Hb. induction folds as [| fold folds IH]; intros s s' tr tr' H; [reflexivity |].
  cbn [forM] in H. unfold mbind at 1 in H.
  destruct (cv_fold _ _ _ _ _ _ _ _ _ fold s tr) as [[s1 | e] tr1] eqn:E; [| discriminate].
  simpl.
  rewrite (keys_scored_per_node _ _ _ _ _ _ _ _ _ _ _ _ Hb E), (IH _ _ _ _ H).
  reflexivity.
Qed.

End ScoreCount.

(** C5 (as amended): in a cross-validation that succeeds, each of the
    five lists receives, in every fold, one score per key of the forecast
    tables returned for the first method; with a backend that returns one
    table per node of the wide table, that is one score per node, the
    total and the intermediate aggregates included, in every fold.  The
    choices compared are the means of the five lists. *)
Theorem cv_scores_one_per_forecast_table
    (Hyper : Type)
    (fitForecast : DataFrame -> Z -> ndarray -> topology -> string -> bool ->
                   capacity -> capacity -> Hyper -> result Forecasts)
    (tscv_split : nat -> result (list (list nat * list nat)))
    (y : DataFrame) (sumMat : ndarray) (nodes : topology)
    (include_history : bool) (cap capF : capacity) (hp : Hyper)
    (time : narray) (folds : list (list nat * list nat))
    (s : Scores) (tr0 tr1 : list event) :
  index y 0 = Ok time ->
  tscv_split (alen time) = Ok folds ->
  cv_scores Hyper fitForecast tscv_split y sumMat nodes include_history cap capF hp tr0
  = (Ok s, tr1) ->
  scores_each s
    (list_sum (map (keys_scored Hyper fitForecast y sumMat nodes include_history cap capF hp)
                   folds))
  /\ (per_node_backend Hyper fitForecast ->
      Z.of_nat (node_count nodes) = (Z.of_nat (length y) - 2)%Z ->
      scores_each s (length folds * (1 + node_count nodes)))
  /\ (forall MASE1 MASE2 MASE3 MASE4 MASE5,
         s = (MASE1, MASE2, MASE3, MASE4, MASE5) ->
         choices_of s
         = map f_value
               [np_mean MASE1; np_mean MASE2; np_mean MASE3; np_mean MASE4; np_mean MASE5]).
Proof.
  intros Htime Hsplit Hcv.
  unfold cv_scores, mbind, lift in Hcv. rewrite Htime, Hsplit in Hcv.
  assert (H0 : scores_each no_scores 0) by (cbn; tauto).
  pose proof (cv_folds_add _ _ _ _ _ _ _ _ _ _ _ _ _ _ _ Hcv H0) as Hall.
  split; [exact Hall |]. split.
  - intros Hb Hnodes.
    rewrite (cv_folds_per_node _ _ _ _ _ _ _ _ _ _ Hb _ _ _ _ Hcv) in Hall.
    replace (1 + node_count nodes) with (length y - 1) by lia. exact Hall.
  - intros m1 m2 m3 m4 m5 ->. reflexivity.
Qed.

Lemma naive_per_node : per_node_backend unit naive_fitForecast.
Proof.
  intros y h sumMat nodes method ih cap capF hp ynew H.
  unfold naive_fitForecast in H. inversion H. unfold keys.
  rewrite map_map. cbn [fst]. apply map_id.
Qed.

Lemma cv_scores_one_per_forecast_table_witness :
  exists s tr,
    cv_scores unit naive_fitForecast TimeSeriesSplit y8
              (Arr2 2 [[1;1]; [1;0]; [0;1]]%Z) [[2]] true CapNone CapNone tt []
    = (Ok s, tr)
    /\ scores_each s (3 * (1 + node_count [[2]])).
Proof.
  eexists. eexists. split; [vm_compute; reflexivity |].
  refine (proj1 (proj2 (cv_scores_one_per_forecast_table unit naive_fitForecast
            TimeSeriesSplit y8 (Arr2 2 [[1;1]; [1;0]; [0;1]]%Z) [[2]] true CapNone CapNone tt
            (Int64 [1;2;3;4;5;6;7;8]%Z)
            [([0;1], [2;3]); ([0;1;2;3], [4;5]); ([0;1;2;3;4;5], [6;7])]
            _ [] _ _ _ _)) naive_per_node _).
  - reflexivity.
  - reflexivity.
  - vm_compute; reflexivity.
  - reflexivity.
Defined.

(** C5 (as stated) fails: on [y8], a total with two leaves, every method
    receives nine scores over the three folds, three per fold and not one
    per leaf; the first of them is the score of key 0, whose actuals are
    column 1 of the table, the total. *)
Lemma cv_scores_include_aggregates :
  exists MASE1 MASE2 MASE3 MASE4 MASE5 tr ynew1 v,
    cv_scores unit naive_fitForecast TimeSeriesSplit y8
              (Arr2 2 [[1;1]; [1;0]; [0;1]]%Z) [[2]] true CapNone CapNone tt []
    = (Ok (MASE1, MASE2, MASE3, MASE4, MASE5), tr)
    /\ leaf_count [[2]] = 2
    /\ length MASE1 = 9
    /\ length MASE1 <> 3 * leaf_count [[2]]
    /\ naive_fitForecast [Int64 [1; 2]; Int64 [10; 12]; Int64 [4; 5]; Int64 [6; 7]]%Z 2
         (Arr2 2 [[1;1]; [1;0]; [0;1]]%Z) [[2]] "OC" true CapNone CapNone tt = Ok ynew1
    /\ mase ynew1 y8 [2; 3] 0 = Ok v
    /\ nth_error MASE1 0 = Some v
    /\ iloc y8 [2; 3] (0 + 1) = Ok (Int64 [15; 17]%Z).
Proof.
  do 8 eexists.
  split; [vm_compute; reflexivity |].
  split; [reflexivity |].
  split; [reflexivity |].
  split; [vm_compute; discriminate |].
  split; [reflexivity |].
  split; [vm_compute; reflexivity |].
  split; reflexivity.
Qed.

(** ** The selection of the method *)

Ltac qbool :=
  repeat match goal with
  | H : Qle_bool _ _ = true |- _ => apply Qle_bool_iff in H
  | H : Qle_bool _ _ = false |- _ =>
      apply not_true_iff_false in H; rewrite Qle_bool_iff in H
  | H : Qeq_bool _ _ = true |- _ => apply Qeq_bool_iff in H
  | H : Qeq_bool _ _ = false |- _ =>
      apply not_true_iff_false in H; rewrite Qeq_bool_iff in H
  | H : negb _ = true |- _ => apply negb_true_iff in H
  | H : negb _ = false |- _ => apply negb_false_iff in H
  end.

Ltac qgoal :=
  match goal with
  | |- negb _ = true => apply negb_true_iff
  | |- negb _ = false => apply negb_false_iff
  | |- _ => idtac
  end;
  match goal with
  | |- Qle_bool _ _ = true => apply Qle_bool_iff
  | |- Qle_bool _ _ = false =>
      apply not_true_iff_false; rewrite Qle_bool_iff
  | |- Qeq_bool _ _ = true => apply Qeq_bool_iff
  | |- _ => idtac
  end.

Lemma flt_irrefl (a : fval) : flt a a = false.
Proof. destruct a; cbn; try reflexivity. qgoal. apply Qle_refl. Qed.

Lemma flt_asym (a b : fval) : flt a b = true -> flt b a = false.
Proof.
  destruct a, b; cbn; try reflexivity; try discriminate.
  intros H. qbool. qgoal. apply Qnot_le_lt in H. now apply Qlt_le_weak.
Qed.

(** If [c] is below [best], whatever is not below [best] is not below [c]. *)
Lemma flt_false_below (c best d : fval) :
  d <> NaN -> flt c best = true -> flt d best = false -> flt d c = false.
Proof.
  destruct c, best, d; cbn; try reflexivity; try discriminate; try congruence.
  intros _ H1 H2. qbool. qgoal.
  apply Qnot_le_lt in H1. apply Qlt_le_weak.
  now apply (Qlt_le_trans _ _ _ H1).
Qed.

Lemma fsame_refl (a : fval) : fsame a a = true.
Proof. destruct a; cbn; try reflexivity. qgoal. reflexivity. Qed.

Lemma fsame_flt_r (a b c : fval) : fsame a b = true -> flt c a = flt c b.
Proof.
  destruct a, b; cbn; try discriminate; try reflexivity.
  intros H. qbool. destruct c; try reflexivity. cbn.
  f_equal. destruct (Qle_bool q q1) eqn:E1, (Qle_bool q0 q1) eqn:E2;
    try reflexivity; qbool; exfalso.
  - apply E2. now rewrite <- H.
  - apply E1. now rewrite H.
Qed.

Lemma fsame_flt_l (a b c : fval) : fsame a b = true -> flt a c = flt b c.
Proof.
  destruct a, b; cbn; try discriminate; try reflexivity.
  intros H. qbool. destruct c; try reflexivity. cbn.
  f_equal. destruct (Qle_bool q1 q) eqn:E1, (Qle_bool q1 q0) eqn:E2;
    try reflexivity; qbool; exfalso.
  - apply E2. now rewrite <- H.
  - apply E1. now rewrite H.
Qed.

Lemma flt_trichotomy (a b : fval) :
  a <> NaN -> b <> NaN -> flt a b = false -> fsame a b = false -> flt b a = true.
Proof.
  destruct a, b; cbn; try reflexivity; try discriminate; try congruence.
  intros _ _ H1 H2. qbool. qgoal. intros H3. apply H2. now apply Qle_antisym.
Qed.

Lemma fold_min_spec (l : list fval) :
  forall x,
    (forall c, In c l -> c <> NaN) ->
    let m := fold_left keep_smaller l x in
    (m = x \/ In m l)
    /\ (forall c, In c l -> flt c m = false)
    /\ (forall d, d <> NaN -> flt d x = false -> flt d m = false).
Proof.
  induction l as [| c l IH]; intros x Hl; cbn [fold_left].
  - repeat split; [now left | intros c [] | auto].
  - assert (Hc : c <> NaN) by (apply Hl; now left).
    assert (Hl' : forall c', In c' l -> c' <> NaN) by (intros; apply Hl; now right).
    destruct (IH (keep_smaller x c) Hl') as (Hin & Hlow & Hprev).
    set (m := fold_left keep_smaller l (keep_smaller x c)) in *.
    split; [| split].
    + destruct Hin as [-> | Hin]; [| right; now right].
      unfold keep_smaller. destruct (flt c x); [right; now left | now left].
    + intros c' [<- | Hc']; [| now apply Hlow].
      apply Hprev; [assumption |]. unfold keep_smaller.
      destruct (flt c x) eqn:E; [apply flt_irrefl | exact E].
    + intros d Hd Hdx. apply Hprev; [assumption |]. unfold keep_smaller.
      destruct (flt c x) eqn:E; [| exact Hdx].
      now apply (flt_false_below c x d).
Qed.

Lemma py_min_spec (l : list fval) :
  l <> [] -> (forall c, In c l -> c <> NaN) ->
  exists m, py_min l = Ok m /\ In m l /\ forall c, In c l -> flt c m = false.
Proof.
  destruct l as [| x l]; [congruence |]. intros _ Hl.
  exists (fold_left keep_smaller l x). split; [reflexivity |].
  destruct (fold_min_spec l x (fun c H => Hl c (or_intror H))) as (Hin & Hlow & Hprev).
  split.
  - destruct Hin as [-> | Hin]; [now left | now right].
  - intros c [<- | Hc]; [| now apply Hlow].
    apply Hprev; [apply Hl; now left | apply flt_irrefl].
Qed.

Lemma py_index_spec (l : list fval) (m : fval) :
  In m l ->
  exists i ci,
    py_index l m = Ok i /\ nth_error l i = Some ci /\ fsame ci m = true
    /\ forall j cj, j < i -> nth_error l j = Some cj -> fsame cj m = false.
Proof.
  induction l as [| c l IH]; intros Hin; [destruct Hin |].
  cbn [py_index]. destruct (fsame c m) eqn:E.
  - exists 0, c. repeat split; auto. intros j cj Hj. lia.
  - destruct Hin as [-> | Hin]; [rewrite fsame_refl in E; discriminate |].
    destruct (IH Hin) as (i & ci & Hi & Hnth & Hsame & Hfirst).
    exists (S i), ci. rewrite Hi. repeat split; auto.
    intros [| j] cj Hj Hcj.
    + cbn in Hcj. inversion Hcj; subst. exact E.
    + cbn in Hcj. apply (Hfirst j); [lia | assumption].
Qed.

(** [choose] returns the method of the first position that holds a
    minimal average, when no average is a NaN. *)
Lemma choose_first_minimum (choices : list fval) :
  length choices = 5 ->
  (forall c, In c choices -> c <> NaN) ->
  exists i choice ci,
    choose choices = Ok choice
    /\ nth_error methodList i = Some choice
    /\ nth_error choices i = Some ci
    /\ (forall j cj, nth_error choices j = Some cj -> flt cj ci = false)
    /\ (forall j cj, j < i -> nth_error choices j = Some cj -> flt ci cj = true).
Proof.
  intros Hlen Hnan.
  assert (Hne : choices <> []) by (intros ->; discriminate).
  destruct (py_min_spec choices Hne Hnan) as (m & Hmin & Hin & Hlow).
  destruct (py_index_spec choices m Hin) as (i & ci & Hi & Hnth & Hsame & Hfirst).
  assert (Hi5 : i < 5).
  { rewrite <- Hlen. apply nth_error_Some. congruence. }
  destruct (nth_error methodList i) as [choice |] eqn:Hm.
  2:{ apply nth_error_None in Hm. cbn in Hm. lia. }
  exists i, choice, ci. unfold choose. rewrite Hmin. cbn [rbind]. rewrite Hi.
  cbn [rbind]. unfold index. rewrite Hm. repeat split; auto.
  - intros j cj Hj. rewrite (fsame_flt_r ci m cj Hsame).
    apply Hlow. eapply nth_error_In; eauto.
  - intros j cj Hj Hcj. rewrite (fsame_flt_l ci m cj Hsame).
    assert (Hcjin : In cj choices) by (eapply nth_error_In; eauto).
    apply flt_trichotomy.
    + now apply Hnan.
    + now apply Hnan.
    + now apply Hlow.
    + now apply (Hfirst j).
Qed.

(** *** The five lists are the scores of the five methods *)

Section ScoresOfMethods.

Variable Hyper : Type.
Variable fitForecast :
  DataFrame -> Z -> ndarray -> topology -> string -> bool ->
  capacity -> capacity -> Hyper -> result Forecasts.
Variables (y : DataFrame) (sumMat : ndarray) (nodes : topology)
          (ih : bool) (cap capF : capacity) (hp : Hyper).

Lemma score_keys_lists ynew1 ynew2 ynew3 ynew4 ynew5 testIndex ks :
  forall a1 a2 a3 a4 a5 s' tr tr',
    forM ks (a1, a2, a3, a4, a5)
         (score_key ynew1 ynew2 ynew3 ynew4 ynew5 y testIndex) tr = (Ok s', tr') ->
    exists l1 l2 l3 l4 l5,
      mapM (mase ynew1 y testIndex) ks = Ok l1
      /\ mapM (mase ynew2 y testIndex) ks = Ok l2
      /\ mapM (mase ynew3 y testIndex) ks = Ok l3
      /\ mapM (mase ynew4 y testIndex) ks = Ok l4
      /\ mapM (mase ynew5 y testIndex) ks = Ok l5
      /\ s' = (a1 ++ l1, a2 ++ l2, a3 ++ l3, a4 ++ l4, a5 ++ l5).
Proof.
  induction ks as [| key ks IH]; intros a1 a2 a3 a4 a5 s' tr tr' H.
  - cbn in H. inversion H. exists [], [], [], [], []. now rewrite !app_nil_r.
  - cbn [forM] in H. unfold mbind at 1 in H.
    unfold score_key in H. cbv iota beta in H. unfold mbind, lift, mret in H.
    cbn [mapM].
    destruct (mase ynew1 y testIndex key) as [v1 |]; [| discriminate].
    destruct (mase ynew2 y testIndex key) as [v2 |]; [| discriminate].
    destruct (mase ynew3 y testIndex key) as [v3 |]; [| discriminate].
    destruct (mase ynew4 y testIndex key) as [v4 |]; [| discriminate].
    destruct (mase ynew5 y testIndex key) as [v5 |]; [| discriminate].
    apply IH in H. destruct H as (l1 & l2 & l3 & l4 & l5 & -> & -> & -> & -> & -> & ->).
    cbn [rbind]. exists (v1 :: l1), (v2 :: l2), (v3 :: l3), (v4 :: l4), (v5 :: l5).
    rewrite <- !app_assoc. repeat split; reflexivity.
Qed.

Lemma cv_fold_lists fold s s' tr tr' :
  cv_fold Hyper fitForecast y sumMat nodes ih cap capF hp fold s tr = (Ok s', tr') ->
  forall k m, nth_error methodList k = Some m ->
    exists l, fold_scores Hyper fitForecast y sumMat nodes ih cap capF hp m fold = Ok l
              /\ scores_nth s' k = scores_nth s k ++ l.
Proof.
  destruct fold as [trainIndex testIndex]. destruct s as [[[[a1 a2] a3] a4] a5].
  unfold cv_fold, fold_scores, call_fitForecast, mbind, lift, emit. cbn [fst snd].
  destruct (iloc_rows y trainIndex) as [ytrain |]; [| discriminate].
  cbn [index nth_error methodList rbind].
  destruct (fitForecast ytrain _ sumMat nodes "OC" ih cap capF hp) as [ynew1 |] eqn:E1;
    [| discriminate].
  destruct (fitForecast ytrain _ sumMat nodes "FP" ih cap capF hp) as [ynew2 |] eqn:E2;
    [| discriminate].
  destruct (fitForecast ytrain _ sumMat nodes "PHA" ih cap capF hp) as [ynew3 |] eqn:E3;
    [| discriminate].
  destruct (fitForecast ytrain _ sumMat nodes "AHP" ih cap capF hp) as [ynew4 |] eqn:E4;
    [| discriminate].
  destruct (fitForecast ytrain _ sumMat nodes "BU" ih cap capF hp) as [ynew5 |] eqn:E5;
    [| discriminate].
  intros H. apply score_keys_lists in H.
  destruct H as (l1 & l2 & l3 & l4 & l5 & H1 & H2 & H3 & H4 & H5 & ->).
  intros k m Hk. cbn [rbind].
  destruct k as [| [| [| [| [| k]]]]]; cbn in Hk; try (destruct k; discriminate);
    injection Hk as <-; cbn [scores_nth nth].
  - rewrite E1. exists l1. now split.
  - rewrite E2. exists l2. now split.
  - rewrite E3. exists l3. now split.
  - rewrite E4. exists l4. now split.
  - rewrite E5. exists l5. now split.
Qed.

Lemma cv_folds_lists folds :
  forall s s' tr tr',
    forM folds s (cv_fold Hyper fitForecast y sumMat nodes ih cap capF hp) tr
    = (Ok s', tr') ->
    forall k m, nth_error methodList k = Some m ->
      exists l, method_scores Hyper fitForecast y sumMat nodes ih cap capF hp m folds = Ok l
                /\ scores_nth s' k = scores_nth s k ++ l.
Proof.
  unfold method_scores.
  induction folds as [| fold folds IH]; intros s s' tr tr' H k m Hk.
  - cbn in H. inversion H. exists []. now rewrite app_nil_r.
  - cbn [forM] in H. unfold mbind at 1 in H.
    destruct (cv_fold _ _ _ _ _ _ _ _ _ fold s tr) as [[s1 | e] tr1] eqn:E;
      [| discriminate].
    destruct (cv_fold_lists _ _ _ _ _ E k m Hk) as (l & Hl & Hs1).
    destruct (IH _ _ _ _ H k m Hk) as (ls & Hls & Hs').
    cbn [mapM]. rewrite Hl. cbn [rbind].
    destruct (mapM _ folds) as [per_fold |]; [| discriminate]. cbn [rbind] in *.
    inversion Hls. subst ls. exists (l ++ concat per_fold).
    split; [reflexivity |]. now rewrite Hs', Hs1, app_assoc.
Qed.

(** In a cross-validation that succeeds the average compared for each
    method is the mean of the scores of that method. *)
Lemma choices_are_averages tscv_split time folds s tr0 tr1 :
  index y 0 = Ok time ->
  tscv_split (alen time) = Ok folds ->
  cv_scores Hyper fitForecast tscv_split y sumMat nodes ih cap capF hp tr0 = (Ok s, tr1) ->
  forall k m, nth_error methodList k = Some m ->
    exists a, method_average Hyper fitForecast y sumMat nodes ih cap capF hp m folds = Ok a
              /\ nth_error (choices_of s) k = Some a.
Proof.
  intros Htime Hsplit Hcv k m Hk.
  unfold cv_scores, mbind, lift in Hcv. rewrite Htime, Hsplit in Hcv.
  destruct (cv_folds_lists _ _ _ _ _ Hcv k m Hk) as (l & Hl & Hs).
  unfold method_average. rewrite Hl. cbn [rbind]. eexists. split; [reflexivity |].
  destruct s as [[[[m1 m2] m3] m4] m5]. cbn [scores_nth no_scores] in Hs.
  destruct k as [| [| [| [| [| k]]]]]; cbn in Hk; try (destruct k; discriminate);
    cbn [nth app] in Hs; subst; reflexivity.
Qed.

End ScoresOfMethods.

(** C4 (as amended): in [cvSelect] mode, once the configuration is
    accepted and the cross-validation has gone through, every method has
    an average, the float64 mean of its scores over all folds and scored
    nodes.  When none of the five is a NaN, [hts] fits on the whole of
    [y], at the horizon [h], a method whose average no other average is
    below, every method before it in the order OC, FP, PHA, AHP, BU
    having a greater average; it prints that method and returns its
    forecasts. *)
Theorem cvSelect_fits_first_minimum
    (Hyper : Type)
    (fitForecast : DataFrame -> Z -> ndarray -> topology -> string -> bool ->
                   capacity -> capacity -> Hyper -> result Forecasts)
    (tscv_split : nat -> result (list (list nat * list nat)))
    (y : DataFrame) (h : Z) (nodes : topology)
    (include_history : bool) (cap capF : capacity) (hp : Hyper)
    (sumMat : ndarray) (time : narray) (folds : list (list nat * list nat))
    (s : Scores) (tr0 tr1 : list event) :
  config_error y h nodes "cvSelect" cap capF = None ->
  SummingMat nodes = Ok sumMat ->
  index y 0 = Ok time ->
  tscv_split (alen time) = Ok folds ->
  cv_scores Hyper fitForecast tscv_split y sumMat nodes include_history cap capF hp tr0
  = (Ok s, tr1) ->
  let average m :=
    method_average Hyper fitForecast y sumMat nodes include_history cap capF hp m folds in
  (forall m, In m methodList -> exists a, average m = Ok a)
  /\ ((forall m, In m methodList -> average m <> Ok NaN) ->
      exists i choice ci,
        nth_error methodList i = Some choice
        /\ average choice = Ok ci
        /\ (forall m a, In m methodList -> average m = Ok a -> flt a ci = false)
        /\ (forall j m a, j < i -> nth_error methodList j = Some m ->
                          average m = Ok a -> flt ci a = true)
        /\ hts Hyper fitForecast tscv_split y h nodes "cvSelect" include_history
               cap capF hp tr0
           = match fitForecast y h sumMat nodes choice include_history cap capF hp with
             | Ok ynew => (Ok ynew, tr1 ++ [BackendCall choice h (nrows_df y); Print choice])
             | Raise e => (Raise e, tr1 ++ [BackendCall choice h (nrows_df y)])
             end).
Proof.
  intros Hcfg Hsum Htime Hsplit Hcv average. subst average. cbv beta.
  pose proof (choices_are_averages Hyper fitForecast y sumMat nodes include_history
                cap capF hp tscv_split time folds s tr0 tr1 Htime Hsplit Hcv) as Havg.
  assert (Hin : forall m, In m methodList ->
                  exists k a, nth_error methodList k = Some m
                              /\ method_average Hyper fitForecast y sumMat nodes
                                   include_history cap capF hp m folds = Ok a
                              /\ nth_error (choices_of s) k = Some a).
  { intros m Hm. apply In_nth_error in Hm. destruct Hm as [k Hk].
    destruct (Havg k m Hk) as (a & Ha & Hc). now exists k, a. }
  split.
  - intros m Hm. destruct (Hin m Hm) as (k & a & _ & Ha & _). now exists a.
  - intros Hnan.
    assert (Hlen : length (choices_of s) = 5)
      by (destruct s as [[[[m1 m2] m3] m4] m5]; reflexivity).
    assert (Hnan' : forall c, In c (choices_of s) -> c <> NaN).
    { intros c Hc ->. apply In_nth_error in Hc. destruct Hc as [k Hk].
      assert (Hk5 : k < 5) by (rewrite <- Hlen; apply nth_error_Some; congruence).
      destruct (nth_error methodList k) as [m |] eqn:Hm.
      2:{ apply nth_error_None in Hm. cbn in Hm. lia. }
      destruct (Havg k m Hm) as (a & Ha & Hc). rewrite Hk in Hc. inversion Hc. subst a.
      apply (Hnan m); [eapply nth_error_In; eauto | exact Ha]. }
    destruct (choose_first_minimum (choices_of s) Hlen Hnan')
      as (i & choice & ci & Hchoose & Hm & Hci & Hmin & Hfirst).
    exists i, choice, ci. split; [exact Hm |].
    destruct (Havg i choice Hm) as (a & Ha & Hc). rewrite Hci in Hc. inversion Hc. subst a.
    split; [exact Ha |]. split; [| split].
    + intros m a Hmem Hav. destruct (Hin m Hmem) as (k & a' & _ & Ha' & Hk).
      rewrite Hav in Ha'. inversion Ha'. subst a'. now apply (Hmin k).
    + intros j m a Hj Hjm Hav. destruct (Havg j m Hjm) as (a' & Ha' & Hk).
      rewrite Hav in Ha'. inversion Ha'. subst a'. now apply (Hfirst j).
    + unfold hts. rewrite Hcfg. cbn [String.eqb Ascii.eqb Bool.eqb andb].
      unfold mbind at 1, lift at 1. rewrite Hsum.
      unfold mbind at 1. rewrite Hcv.
      unfold mbind at 1, lift at 1. rewrite Hchoose.
      unfold call_fitForecast, mbind, lift, emit, mret.
      destruct (fitForecast y h sumMat nodes choice include_history cap capF hp).
      * now rewrite <- app_assoc.
      * reflexivity.
Qed.

Lemma offset_run8 :
  exists s tr, cv_scores unit offset_fitForecast TimeSeriesSplit y8 sumMat2 [[2]]
                         true CapNone CapNone tt [] = (Ok s, tr).
Proof. eexists. eexists. vm_compute. reflexivity. Qed.

Lemma offset_hts8 :
  exists ynew tr,
    hts_offset y8 2 [[2]] "cvSelect" []
    = (Ok ynew, tr ++ [BackendCall "FP" 2 8; Print "FP"]).
Proof.
  do 2 eexists. vm_compute.
  match goal with |- (?a, ?l) = _ => instantiate (1 := firstn 15 l) end.
  reflexivity.
Qed.

Lemma cvSelect_fits_first_minimum_witness :
  let average m :=
    method_average unit offset_fitForecast y8 sumMat2 [[2]] true CapNone CapNone tt
                   m folds8 in
  (exists i choice ci,
      nth_error methodList i = Some choice
      /\ average choice = Ok ci
      /\ (forall m a, In m methodList -> average m = Ok a -> flt a ci = false)
      /\ (forall j m a, j < i -> nth_error methodList j = Some m ->
                        average m = Ok a -> flt ci a = true))
  /\ (exists aOC aFP aBU,
        average "OC" = Ok aOC /\ average "FP" = Ok aFP /\ average "PHA" = Ok aFP
        /\ average "BU" = Ok aBU
        /\ flt aFP aOC = true /\ flt aFP aBU = true)
  /\ exists ynew tr,
       hts_offset y8 2 [[2]] "cvSelect" []
       = (Ok ynew, tr ++ [BackendCall "FP" 2 8; Print "FP"]).
Proof.
  intros average.
  destruct offset_run8 as (s & tr & Hrun).
  assert (H1 : config_error y8 2 [[2]] "cvSelect" CapNone CapNone = None)
    by (vm_compute; reflexivity).
  assert (H2 : SummingMat [[2]] = Ok sumMat2) by (vm_compute; reflexivity).
  assert (H3 : index y8 0 = Ok (Int64 [1;2;3;4;5;6;7;8]%Z)) by reflexivity.
  assert (H4 : TimeSeriesSplit (alen (Int64 [1;2;3;4;5;6;7;8]%Z)) = Ok folds8)
    by (vm_compute; reflexivity).
  pose proof (cvSelect_fits_first_minimum unit offset_fitForecast TimeSeriesSplit
                y8 2 [[2]] true CapNone CapNone tt sumMat2 (Int64 [1;2;3;4;5;6;7;8]%Z)
                folds8 s [] tr H1 H2 H3 H4 Hrun) as Hthm.
  cbv zeta in Hthm. destruct Hthm as [_ Hmin].
  split; [| split].
  - destruct Hmin as (i & choice & ci & Hm & Hci & Hlow & Hfirst & _).
    + intros m Hm.
      repeat (destruct Hm as [<- | Hm]; [vm_compute; discriminate |]). destruct Hm.
    + exists i, choice, ci.
      split; [exact Hm | split; [exact Hci | split; [exact Hlow | exact Hfirst]]].
  - do 3 eexists. repeat split; vm_compute; reflexivity.
  - exact offset_hts8.
Defined.

(** C4 (as stated) fails on ties: on [y8] the stand-in backend forecasts
    alike for every method, the five averages are equal, and [hts] fits
    and prints OC, where the order of the specification would take BU. *)
Lemma cvSelect_tie_selects_OC :
  cv_run8 = (Ok scores8, trace8)
  /\ (exists q, choices_of scores8 = [Fin q; Fin q; Fin q; Fin q; Fin q])
  /\ choose (choices_of scores8) = Ok "OC"
  /\ choose_by_priority (choices_of scores8) = Some "BU"
  /\ exists ynew,
       hts_naive y8 2 [[2]] "cvSelect" []
       = (Ok ynew, trace8 ++ [BackendCall "OC" 2 8; Print "OC"]).
Proof.
  split; [vm_compute; reflexivity |].
  split; [eexists; vm_compute; reflexivity |].
  split; [vm_compute; reflexivity |].
  split; [vm_compute; reflexivity |].
  eexists. vm_compute. reflexivity.
Qed.

(** ** The hierarchy builder *)

(** C8: on tag columns that both take the values a and b, [orderHier]
    names the columns time, total, a, b, a_a, a_b, b_a, b_b and returns
    the descriptor [[2],[4,4]]: each level-1 name is counted by
    [str.count] in every level-2 name that contains it (twice in a_a),
    where counting the names it prefixes gives [2,2].  The descriptor sums
    to 10, not to the 8 - 2 = 6 of the table, and [hts] refuses the pair. *)
Theorem orderHier_counts_occurrences :
  orderHier [ab; ab] (Some 1%Z) (Some 2%Z) None None false (fun _ => false) []
  = (Ok (["time"; "total"; "a"; "b"; "a_a"; "a_b"; "b_a"; "b_b"], [[2]; [4; 4]]),
     [BuildSeries "a"; BuildSeries "a1"; BuildSeries "a_a"; BuildSeries "a_b";
      BuildSeries "b"; BuildSeries "b1"; BuildSeries "b_a"; BuildSeries "b_b";
      BuildSeries "total"])
  /\ numberList ["a"; "b"] ["a_a"; "a_b"; "b_a"; "b_b"] = [4; 4]
  /\ prefix_counts ["a"; "b"] ["a_a"; "a_b"; "b_a"; "b_b"] = [2; 2]
  /\ list_sum (numAtLev [[2]; [4; 4]]) = 10
  /\ config_error (empty_table 8) 1 [[2]; [4; 4]] "BU" CapNone CapNone
     = Some "The sum of the nodes list does not equal the number of columns - 2, dataframe should contain a time column in the 0th pos. Double check node input".
Proof. repeat split; reflexivity. Qed.

(** C9: with [col1 = 1], [col2 = 1], [col3 = 2] the test of line 279 is
    false, no [sys.exit] happens, and [orderHier] stores the series of x
    and of x_a before [orderList.index(3)] raises ValueError. *)
Theorem orderHier_equal_levels_pass :
  same_level (Some 1%Z) (Some 1%Z) (Some 2%Z) = Ok false
  /\ orderHier [xy; pq; ab] (Some 1%Z) (Some 1%Z) (Some 2%Z) None false
               (fun _ => false) []
     = (Raise ValueError, [BuildSeries "x"; BuildSeries "x1"; BuildSeries "x_a"]).
Proof. split; reflexivity. Qed.

(** X3: When the three assignments are among 1, 2, 3, the test of line 279
    holds exactly when [col1 = col3] and the bits of [col2] are among
    those of [col1]. *)
Lemma same_level_fires_iff (c1 c2 c3 : Z) :
  (1 <= c1 <= 3)%Z -> (1 <= c2 <= 3)%Z -> (1 <= c3 <= 3)%Z ->
  (same_level (Some c1) (Some c2) (Some c3) = Ok true
   <-> c1 = c3 /\ Z.lor c2 c1 = c1).
Proof.
  intros H1 H2 H3.
  assert (E1 : (c1 = 1 \/ c1 = 2 \/ c1 = 3)%Z) by lia.
  assert (E2 : (c2 = 1 \/ c2 = 2 \/ c2 = 3)%Z) by lia.
  assert (E3 : (c3 = 1 \/ c3 = 2 \/ c3 = 3)%Z) by lia.
  destruct E1 as [-> | [-> | ->]], E2 as [-> | [-> | ->]], E3 as [-> | [-> | ->]];
    vm_compute; split; try (intros [? ?]); try intro; try discriminate;
    try reflexivity; try (split; reflexivity).
Qed.

(** * Further properties *)

(** ** The summing matrix, whatever the topology *)

Lemma SummingMat_regular_example :
  regular [[2]; [1; 2]]
  /\ SummingMat [[2]; [1; 2]]
     = Ok (Arr2 (leaf_count [[2]; [1; 2]])
                (repeat 1%Z (leaf_count [[2]; [1; 2]])
                 :: all_rows (leaf_count [[2]; [1; 2]]) [[1; 2]])).
Proof.
  assert (H : regular [[2]; [1; 2]]) by (cbn; repeat split; repeat constructor).
  split; [exact H | exact (SummingMat_regular _ H)].
Defined.

(** X4: A hierarchy of one level, whatever its counts (none, or zero
    leaves): the row of ones above the identity. *)
Theorem SummingMat_one_level (l0 : list nat) :
  SummingMat [l0]
  = Ok (Arr2 (list_sum l0) (repeat 1%Z (list_sum l0) :: identity_rows (list_sum l0))).
Proof.
  unfold SummingMat, numAtLev. cbn [map length Nat.sub seq].
  rewrite neg_index_last. cbn [last rbind build_levels].
  unfold vstack, ones, identity. cbn [atleast_2d].
  rewrite repeat_length, Nat.eqb_refl. reflexivity.
Qed.

Lemma shaped_vstack (n : nat) (a b : ndarray) :
  shaped n a -> shaped n b ->
  exists rows, vstack a b = Ok (Arr2 n rows)
               /\ rows = snd (atleast_2d a) ++ snd (atleast_2d b)
               /\ Forall (fun r => length r = n) rows.
Proof.
  intros Ha Hb. unfold vstack.
  assert (Ha2 : fst (atleast_2d a) = n
                /\ Forall (fun r => length r = n) (snd (atleast_2d a))).
  { destruct a; cbn in *; [split; auto | destruct Ha; subst; auto]. }
  assert (Hb2 : fst (atleast_2d b) = n
                /\ Forall (fun r => length r = n) (snd (atleast_2d b))).
  { destruct b; cbn in *; [split; auto | destruct Hb; subst; auto]. }
  destruct (atleast_2d a) as [ca ra], (atleast_2d b) as [cb rb]. cbn in *.
  destruct Ha2 as [-> Hra], Hb2 as [-> Hrb]. rewrite Nat.eqb_refl.
  eexists. split; [reflexivity |]. split; [reflexivity |].
  apply Forall_app. now split.
Qed.

(** On a matrix the inner loop never raises, and keeps the shape. *)
Lemma sum_blocks_shaped (n : nat) (R : list (list Z)) (summing : list nat) :
  Forall (fun r => length r = n) R ->
  forall count ind B, shaped n B ->
    exists B', sum_blocks (Arr2 n R) summing count ind B = Ok B' /\ shaped n B'.
Proof.
  intros HR. induction summing as [| k summing IH]; intros count ind B HB.
  - exists B. now split.
  - cbn [sum_blocks block_sum rbind].
    assert (Hs : shaped n (Arr1 (colsum n (slice R count (ind + k))))).
    { cbn. apply colsum_length. now apply Forall_slice. }
    destruct (all_zero B); [now apply IH |].
    destruct (shaped_vstack n B _ HB Hs) as (rows & -> & _ & Hrows).
    cbn [rbind]. apply IH. cbn. now split.
Qed.

(** The outer loop raises IndexError or returns a matrix that ends with
    the identity. *)
Lemma build_levels_shaped (nodes : topology) (n : nat) (levs : list nat) :
  forall upper blMat r,
    Forall (fun r => length r = n) upper -> shaped n blMat ->
    build_levels nodes levs n (Arr2 n (upper ++ identity_rows n)) blMat = r ->
    r = Raise IndexError
    \/ exists upper',
         r = Ok (Arr2 n (upper' ++ identity_rows n))
         /\ Forall (fun r => length r = n) upper'.
Proof.
  induction levs as [| lev levs IH]; intros upper blMat r Hup Hbl Hr.
  - right. exists upper. cbn in Hr. now split.
  - cbn [build_levels] in Hr. unfold neg_index in Hr.
    destruct ((lev + 1 <=? length nodes) && (1 <=? lev + 1)); [| now left].
    destruct (nth_error nodes (length nodes - (lev + 1))) as [summing |];
      [| now left].
    cbn [rbind] in Hr.
    assert (HB : sum_blocks blMat summing 0 0 (zeros n) = Raise IndexError
                 \/ exists B, sum_blocks blMat summing 0 0 (zeros n) = Ok B
                              /\ shaped n B).
    { destruct blMat as [v | c R].
      - destruct summing as [| k summing]; [| now left].
        right. exists (zeros n). split; [reflexivity | apply repeat_length].
      - destruct Hbl as [-> HR]. right.
        apply sum_blocks_shaped; [assumption | apply repeat_length]. }
    destruct HB as [HB | (B & HB & HBs)]; rewrite HB in Hr; [now left |].
    cbn [rbind] in Hr.
    assert (HF : shaped n (Arr2 n (upper ++ identity_rows n))).
    { cbn. split; [reflexivity |]. apply Forall_app. split; [assumption |].
      apply identity_rows_length. }
    destruct (shaped_vstack n B _ HBs HF) as (rows & Hv & Hrows & Hlen).
    rewrite Hv in Hr. cbn [rbind] in Hr.
    cbn [atleast_2d snd] in Hrows. rewrite app_assoc in Hrows. subst rows.
    apply (IH _ _ _ (proj1 (proj1 (Forall_app _ _ _) Hlen)) HBs Hr).
Qed.

Lemma SummingMat_shaped (nodes : topology) :
  SummingMat nodes = Raise IndexError
  \/ exists upper,
       SummingMat nodes
       = Ok (Arr2 (leaf_count nodes)
                  (repeat 1%Z (leaf_count nodes)
                   :: upper ++ identity_rows (leaf_count nodes)))
       /\ Forall (fun r => length r = leaf_count nodes) upper.
Proof.
  destruct nodes as [| l0 levels]; [now left |].
  unfold SummingMat. change (numAtLev (l0 :: levels))
    with (list_sum l0 :: numAtLev levels).
  rewrite neg_index_last. cbn [rbind].
  change (last (list_sum l0 :: numAtLev levels) 0) with (leaf_count (l0 :: levels)).
  set (n := leaf_count (l0 :: levels)).
  assert (Hid : shaped n (identity n))
    by (cbn; split; [reflexivity | apply identity_rows_length]).
  destruct (build_levels_shaped (l0 :: levels) n
              (seq 0 (length (list_sum l0 :: numAtLev levels) - 1)) [] (identity n)
              _ (Forall_nil _) Hid eq_refl)
    as [HE | (upper & HE & Hup)].
  - left. cbn [app] in HE.
    change (identity n) with (Arr2 n (identity_rows n)) in HE |- *.
    now rewrite HE.
  - right. exists upper. cbn [app] in HE.
    change (identity n) with (Arr2 n (identity_rows n)) in HE |- *.
    rewrite HE. cbn [rbind].
    unfold vstack, ones. cbn [atleast_2d]. rewrite repeat_length, Nat.eqb_refl.
    now split.
Qed.

(** X5: Whenever [SummingMat] returns, whatever the topology, the result is
    a matrix with one column per leaf, all its rows of that length, whose
    first row is all ones and whose last rows are those of the identity. *)
Theorem SummingMat_result_shape (nodes : topology) (M : ndarray) :
  SummingMat nodes = Ok M ->
  exists upper,
    M = Arr2 (leaf_count nodes)
             (repeat 1%Z (leaf_count nodes) :: upper ++ identity_rows (leaf_count nodes))
    /\ Forall (fun r => length r = leaf_count nodes) upper.
Proof.
  intros H. destruct (SummingMat_shaped nodes) as [HE | (upper & HE & Hup)].
  - congruence.
  - exists upper. split; [congruence | assumption].
Qed.

Lemma SummingMat_result_shape_example :
  exists upper,
    Arr2 2 [[1;1]; [1;1]; [1;0]; [0;1]]%Z
    = Arr2 (leaf_count [[2]; [0; 2]])
           (repeat 1%Z (leaf_count [[2]; [0; 2]])
            :: upper ++ identity_rows (leaf_count [[2]; [0; 2]]))
    /\ Forall (fun r => length r = leaf_count [[2]; [0; 2]]) upper.
Proof.
  exact (SummingMat_result_shape [[2]; [0; 2]]
           (Arr2 2 [[1;1]; [1;1]; [1;0]; [0;1]]%Z) eq_refl).
Defined.

(** X6: The only exception [SummingMat] raises is IndexError: the stacked
    arrays always agree on their number of columns. *)
Theorem SummingMat_raises_only_IndexError (nodes : topology) (e : exn) :
  SummingMat nodes = Raise e -> e = IndexError.
Proof.
  intros H. destruct (SummingMat_shaped nodes) as [HE | (upper & HE & _)];
    congruence.
Qed.

Lemma SummingMat_raises_only_IndexError_example :
  SummingMat [[1]; [1]; [1]; [4]] = Raise IndexError /\ IndexError = IndexError.
Proof.
  split; [reflexivity |].
  exact (SummingMat_raises_only_IndexError [[1]; [1]; [1]; [4]] IndexError eq_refl).
Defined.

(** ** Entries of the matrix on regular topologies *)

Lemma zsum_nonneg_ge (f : list Z -> Z) (rows : list (list Z)) (r : list Z) :
  (forall r', In r' rows -> (0 <= f r')%Z) -> In r rows ->
  (f r <= zsum (map f rows))%Z.
Proof.
  induction rows as [| r0 rows IH]; intros Hpos Hin; [destruct Hin |].
  cbn [map zsum fold_right]. fold (zsum (map f rows)).
  assert (H0 : (0 <= f r0)%Z) by (apply Hpos; now left).
  assert (Hrest : (0 <= zsum (map f rows))%Z).
  { clear IH Hin. induction rows as [| r1 rows IH1]; cbn; [lia |].
    fold (zsum (map f rows)).
    assert ((0 <= f r1)%Z) by (apply Hpos; right; now left).
    assert ((0 <= zsum (map f rows))%Z).
    { apply IH1. intros r' Hr'. apply Hpos. destruct Hr' as [<- | Hr'];
        [now left | right; now right]. }
    lia. }
  destruct Hin as [<- | Hin]; [lia |].
  assert ((f r <= zsum (map f rows))%Z).
  { apply IH; [| assumption]. intros r' Hr'. apply Hpos. now right. }
  lia.
Qed.

Lemma good_row_nth_nonneg (n j : nat) (r : list Z) :
  good_row n r -> (0 <= nth j r 0)%Z.
Proof.
  intros (_ & Hpos & _). destruct (nth_in_or_default j r 0%Z) as [Hin | ->]; [| lia].
  rewrite Forall_forall in Hpos. now apply Hpos.
Qed.

(** In a level of a consistent topology every entry is 0 or 1. *)
Lemma level_rows_zero_one (levels : topology) (p : nat) :
  consistent p levels ->
  Forall (Forall (fun x => x = 0%Z \/ x = 1%Z)) (level_rows (width p levels) levels).
Proof.
  intros Hc. destruct (level_rows_good levels p Hc) as (_ & HG).
  pose proof (level_rows_partition levels p Hc) as Hones.
  set (n := width p levels) in *.
  apply Forall_forall. intros r Hr. apply Forall_forall. intros x Hx.
  destruct (In_nth r x 0%Z Hx) as (j & Hj & <-).
  assert (Hgr : good_row n r) by (rewrite Forall_forall in HG; now apply HG).
  assert (Hjn : j < n) by (destruct Hgr as (Hl & _); lia).
  pose proof (good_row_nth_nonneg n j r Hgr) as H0.
  assert (H1 : (nth j r 0 <= 1)%Z).
  { pose proof (colsum_nth n j _ (good_row_length _ _ HG) Hjn) as Hsum.
    rewrite Hones in Hsum.
    rewrite (nth_indep _ 0%Z 1%Z) in Hsum by now rewrite repeat_length.
    rewrite nth_repeat in Hsum. rewrite Hsum.
    apply (zsum_nonneg_ge (fun r' => nth j r' 0%Z)); [| assumption].
    intros r' Hr'. apply (good_row_nth_nonneg n).
    rewrite Forall_forall in HG. now apply HG. }
  lia.
Qed.

Lemma all_rows_zero_one (levels : topology) :
  forall p, consistent p levels ->
    Forall (Forall (fun x => x = 0%Z \/ x = 1%Z)) (all_rows (width p levels) levels).
Proof.
  induction levels as [| c ls IH]; intros p Hc.
  - exact (level_rows_zero_one [] p Hc).
  - cbn [all_rows]. apply Forall_app. split.
    + exact (level_rows_zero_one (c :: ls) p Hc).
    + destruct Hc as (_ & _ & Hc). cbn [width]. now apply IH.
Qed.

(** X7: On a regular topology the summing matrix is a matrix of zeros and
    ones. *)
Theorem SummingMat_regular_zero_one (nodes : topology) :
  regular nodes ->
  exists c rows,
    SummingMat nodes = Ok (Arr2 c rows)
    /\ Forall (Forall (fun x => x = 0%Z \/ x = 1%Z)) rows.
Proof.
  intros Hreg. pose proof (SummingMat_regular nodes Hreg) as HS.
  destruct nodes as [| l0 levels]; [destruct Hreg |].
  destruct Hreg as (_ & Hc & _).
  eexists. eexists. split; [exact HS |]. constructor.
  - apply Forall_forall. intros x Hx. apply repeat_spec in Hx. now right.
  - cbn [tl]. rewrite width_leaf_count. now apply all_rows_zero_one.
Qed.

Lemma SummingMat_regular_zero_one_example :
  regular [[2]; [2; 1]; [2; 1; 3]]
  /\ exists c rows,
       SummingMat [[2]; [2; 1]; [2; 1; 3]] = Ok (Arr2 c rows)
       /\ Forall (Forall (fun x => x = 0%Z \/ x = 1%Z)) rows.
Proof.
  assert (H : regular [[2]; [2; 1]; [2; 1; 3]])
    by (cbn; repeat split; repeat constructor).
  split; [exact H | exact (SummingMat_regular_zero_one _ H)].
Defined.

(** ** A single node above the leaves, at any depth *)

Lemma neg_index_app_last {A : Type} (l : list A) (x : A) :
  neg_index (l ++ [x]) 1 = Ok x.
Proof.
  unfold neg_index. rewrite length_app. cbn [length].
  replace (1 <=? length l + 1) with true by (symmetry; apply Nat.leb_le; lia).
  cbn [andb Nat.leb]. replace (length l + 1 - 1) with (length l) by lia.
  rewrite nth_error_app2 by lia. now rewrite Nat.sub_diag.
Qed.

(** X8: When the level just above the leaves is a single node and there are
    two levels or more above it, of which the next has a node, the
    one-dimensional block sum is sliced with two indices: [SummingMat]
    raises IndexError, whatever the counts. *)
Theorem SummingMat_single_parent_of_leaves
    (pre : topology) (c : nat) (cs : list nat) (k : nat) :
  pre <> [] ->
  SummingMat (pre ++ [c :: cs; [k]]) = Raise IndexError.
Proof.
  intros Hpre. unfold SummingMat.
  replace (numAtLev (pre ++ [c :: cs; [k]]))
    with ((numAtLev pre ++ [list_sum (c :: cs)]) ++ [list_sum [k]])
    by (unfold numAtLev; now rewrite map_app, <- app_assoc).
  rewrite neg_index_app_last. cbn [rbind].
  set (n := list_sum [k]).
  rewrite !length_app. cbn [length]. unfold numAtLev. rewrite length_map.
  rewrite build_levels_rev by (rewrite length_app; cbn [length]; lia).
  cbn [skipn]. rewrite rev_app_distr. cbn [rev app].
  destruct pre as [| p0 pre']; [congruence |]. cbn [length].
  replace (S (length pre') + 1 + 1 - 1) with (S (S (length pre'))) by lia.
  cbn [firstn build_up sum_blocks].
  unfold identity at 1. cbn [block_sum rbind]. rewrite all_zero_zeros.
  cbn [rbind]. unfold vstack, identity. cbn [atleast_2d].
  rewrite colsum_length by apply Forall_slice, identity_rows_length.
  rewrite Nat.eqb_refl. cbn [rbind block_sum]. reflexivity.
Qed.

Lemma SummingMat_single_parent_of_leaves_example :
  [[1]] <> [] /\ SummingMat ([[1]] ++ [[1]; [5]]) = Raise IndexError.
Proof.
  assert (H : [[1]] <> ([] : topology)) by discriminate.
  split; [exact H | exact (SummingMat_single_parent_of_leaves [[1]] 1 [] 5 H)].
Defined.

(** ** The checks of [hts], exactly *)

(** X9: [hts] accepts a configuration exactly when the horizon is positive,
    the method is one of the six, [nodes] is not empty and sums to the
    number of columns minus 2, and [cap] and [capF] are absent, numbers,
    or tables with one column less than [y]. *)
Theorem config_error_None_iff (y : DataFrame) (h : Z) (nodes : topology)
    (method : string) (cap capF : capacity) :
  config_error y h nodes method cap capF = None
  <-> well_configured y h nodes method cap capF.
Proof.
  unfold config_error, well_configured. split.
  - destruct (h <? 1)%Z eqn:Hh; [discriminate |].
    destruct (str_in method _) eqn:Hm; cbn [negb]; [| discriminate].
    destruct (length nodes <? 1) eqn:Hn; [discriminate |].
    destruct (Z.of_nat (list_sum (numAtLev nodes)) =? Z.of_nat (length y) - 2)%Z eqn:Hs;
      cbn [negb]; [| discriminate].
    destruct (is_cap_other cap) eqn:Hc; [discriminate |].
    destruct (is_cap_other capF) eqn:HcF; [discriminate |].
    destruct (is_frame cap && _) eqn:Hf; [discriminate |].
    destruct (is_frame capF && _) eqn:HfF; [discriminate |].
    intros _. apply Z.ltb_ge in Hh. apply str_in_In in Hm. apply Z.eqb_eq in Hs.
    apply Nat.ltb_ge in Hn.
    repeat split; auto; try lia.
    + intros ->. cbn in Hn. lia.
    + intros ->. discriminate.
    + intros ->. discriminate.
    + intros df ->. cbn in Hf. apply negb_false_iff, Z.eqb_eq in Hf. exact Hf.
    + intros df ->. cbn in HfF. apply negb_false_iff, Z.eqb_eq in HfF. exact HfF.
  - intros (Hh & Hm & Hn & Hs & Hc & HcF & Hf & HfF).
    replace (h <? 1)%Z with false by (symmetry; apply Z.ltb_ge; lia).
    apply str_in_In in Hm. rewrite Hm. cbn [negb].
    replace (length nodes <? 1) with false
      by (symmetry; apply Nat.ltb_ge; destruct nodes; [congruence | cbn; lia]).
    apply Z.eqb_eq in Hs. rewrite Hs. cbn [negb].
    destruct cap as [| z | q | df |]; try congruence;
      destruct capF as [| zF | qF | dfF |]; try congruence; cbn;
      try rewrite (proj2 (Z.eqb_eq _ _) (Hf _ eq_refl));
      try rewrite (proj2 (Z.eqb_eq _ _) (HfF _ eq_refl)); reflexivity.
Qed.

(** ** The backend calls of the cross-validation *)

Lemma take_length (a a' : narray) (rows : list nat) :
  take a rows = Ok a' -> alen a' = length rows.
Proof.
  destruct a as [v | v]; unfold take;
    destruct (mapM (index v) rows) as [r |] eqn:E; try discriminate;
    cbn [rbind]; intros H; inversion H; cbn [alen]; now apply mapM_length in E.
Qed.

Lemma iloc_rows_nrows (y ytrain : DataFrame) (rows : list nat) :
  y <> [] -> iloc_rows y rows = Ok ytrain -> nrows_df ytrain = length rows.
Proof.
  destruct y as [| col y]; [congruence |]. intros _. unfold iloc_rows.
  cbn [mapM]. destruct (take col rows) as [col' |] eqn:E; [| discriminate].
  cbn [rbind]. destruct (mapM _ y); [| discriminate]. cbn [rbind].
  intros H. inversion H. cbn. now apply take_length in E.
Qed.

Section CallTrace.

Variable Hyper : Type.
Variable fitForecast :
  DataFrame -> Z -> ndarray -> topology -> string -> bool ->
  capacity -> capacity -> Hyper -> result Forecasts.
Variable tscv_split : nat -> result (list (list nat * list nat)).

Lemma score_key_trace ynew1 ynew2 ynew3 ynew4 ynew5 y testIndex key s r tr tr' :
  score_key ynew1 ynew2 ynew3 ynew4 ynew5 y testIndex key s tr = (r, tr') ->
  tr' = tr.
Proof.
  destruct s as [[[[m1 m2] m3] m4] m5]. unfold score_key, mbind, lift, mret.
  destruct (mase ynew1 y testIndex key); [| intros H; now inversion H].
  destruct (mase ynew2 y testIndex key); [| intros H; now inversion H].
  destruct (mase ynew3 y testIndex key); [| intros H; now inversion H].
  destruct (mase ynew4 y testIndex key); [| intros H; now inversion H].
  destruct (mase ynew5 y testIndex key); intros H; now inversion H.
Qed.

(** Scoring the keys calls nothing and prints nothing. *)
Lemma score_keys_trace ynew1 ynew2 ynew3 ynew4 ynew5 y testIndex ks :
  forall s r tr tr',
    forM ks s (score_key ynew1 ynew2 ynew3 ynew4 ynew5 y testIndex) tr = (r, tr') ->
    tr' = tr.
Proof.
  induction ks as [| key ks IH]; intros s r tr tr' H.
  - cbn in H. now inversion H.
  - cbn [forM] in H. unfold mbind at 1 in H.
    destruct (score_key _ _ _ _ _ _ _ key s tr) as [[s1 | e] tr1] eqn:E.
    + apply score_key_trace in E. subst tr1. now apply IH in H.
    + apply score_key_trace in E. subst tr1. now inversion H.
Qed.

Lemma cv_fold_trace y sumMat nodes ih cap capF hp fold s s' tr tr' :
  y <> [] ->
  cv_fold Hyper fitForecast y sumMat nodes ih cap capF hp fold s tr = (Ok s', tr') ->
  tr' = tr ++ fold_calls fold.
Proof.
  intros Hy. destruct fold as [trainIndex testIndex].
  unfold cv_fold, fold_calls, call_fitForecast, mbind, lift, emit. cbn [fst snd].
  destruct (iloc_rows y trainIndex) as [ytrain |] eqn:Ey; [| discriminate].
  rewrite (iloc_rows_nrows _ _ _ Hy Ey).
  cbn [index nth_error methodList map].
  destruct (fitForecast ytrain _ sumMat nodes "OC" ih cap capF hp) as [ynew1 |];
    [| discriminate].
  destruct (fitForecast ytrain _ sumMat nodes "FP" ih cap capF hp) as [ynew2 |];
    [| discriminate].
  destruct (fitForecast ytrain _ sumMat nodes "PHA" ih cap capF hp) as [ynew3 |];
    [| discriminate].
  destruct (fitForecast ytrain _ sumMat nodes "AHP" ih cap capF hp) as [ynew4 |];
    [| discriminate].
  destruct (fitForecast ytrain _ sumMat nodes "BU" ih cap capF hp) as [ynew5 |];
    [| discriminate].
  intros H. apply score_keys_trace in H. subst tr'.
  rewrite <- !app_assoc. reflexivity.
Qed.

Lemma cv_folds_trace y sumMat nodes ih cap capF hp folds :
  y <> [] ->
  forall s s' tr tr',
    forM folds s (cv_fold Hyper fitForecast y sumMat nodes ih cap capF hp) tr = (Ok s', tr') ->
    tr' = tr ++ flat_map fold_calls folds.
Proof.
  intros Hy. induction folds as [| fold folds IH]; intros s s' tr tr' H.
  - cbn in H. inversion H. now rewrite app_nil_r.
  - cbn [forM] in H. unfold mbind at 1 in H.
    destruct (cv_fold _ _ _ _ _ _ _ _ _ fold s tr) as [[s1 | e] tr1] eqn:E;
      [| discriminate].
    apply (cv_fold_trace _ _ _ _ _ _ _ _ _ _ _ _ Hy) in E. subst tr1.
    apply IH in H. subst tr'. cbn [flat_map]. now rewrite app_assoc.
Qed.

(** X10: A cross-validation that succeeds has called the backend five times
    per fold and no more, in the order OC, FP, PHA, AHP, BU, each time
    with the length of the test window as horizon and a table of the
    train rows only; it has printed nothing. *)
Theorem cv_scores_calls y sumMat nodes ih cap capF hp time folds s tr0 tr1 :
  index y 0 = Ok time ->
  tscv_split (alen time) = Ok folds ->
  cv_scores Hyper fitForecast tscv_split y sumMat nodes ih cap capF hp tr0 = (Ok s, tr1) ->
  tr1 = tr0 ++ flat_map fold_calls folds
  /\ length tr1 = length tr0 + 5 * length folds.
Proof.
  intros Htime Hsplit Hcv.
  assert (Hy : y <> []) by (intros ->; discriminate).
  unfold cv_scores, mbind, lift in Hcv. rewrite Htime, Hsplit in Hcv.
  apply (cv_folds_trace _ _ _ _ _ _ _ _ Hy) in Hcv. split; [exact Hcv |].
  subst tr1. rewrite length_app. f_equal.
  clear. induction folds as [| fold folds IH]; [reflexivity |].
  cbn [flat_map length]. rewrite length_app, IH. unfold fold_calls.
  rewrite length_map. cbn. lia.
Qed.

End CallTrace.

Lemma cv_scores_calls_example :
  trace8 = [] ++ flat_map fold_calls
                   [([0;1], [2;3]); ([0;1;2;3], [4;5]); ([0;1;2;3;4;5], [6;7])]
  /\ length trace8 = length ([] : list event) + 5 * 3.
Proof.
  refine (cv_scores_calls unit naive_fitForecast TimeSeriesSplit y8 sumMat2 [[2]]
            true CapNone CapNone tt (Int64 [1;2;3;4;5;6;7;8]%Z)
            [([0;1], [2;3]); ([0;1;2;3], [4;5]); ([0;1;2;3;4;5], [6;7])]
            scores8 [] trace8 _ _ _).
  - reflexivity.
  - reflexivity.
  - vm_compute. reflexivity.
Defined.

(** ** The selection, NaN included *)

Lemma flt_NaN_r (c : fval) : flt c NaN = false.
Proof. now destruct c. Qed.

Lemma fold_min_NaN (l : list fval) : fold_left keep_smaller l NaN = NaN.
Proof.
  induction l as [| c l IH]; [reflexivity |].
  cbn [fold_left]. unfold keep_smaller at 2. now rewrite flt_NaN_r.
Qed.

Lemma fold_min_in (l : list fval) :
  forall x, In (fold_left keep_smaller l x) (x :: l).
Proof.
  induction l as [| c l IH]; intros x; [now left |].
  cbn [fold_left]. destruct (IH (keep_smaller x c)) as [H | H].
  - rewrite <- H. unfold keep_smaller. destruct (flt c x); [right; now left | now left].
  - right. now right.
Qed.

Lemma fold_min_not_NaN (l : list fval) :
  forall x, x <> NaN -> fold_left keep_smaller l x <> NaN.
Proof.
  induction l as [| c l IH]; intros x Hx; [exact Hx |].
  cbn [fold_left]. apply IH. unfold keep_smaller.
  destruct (flt c x) eqn:E; [| exact Hx]. intros ->. discriminate.
Qed.

(** X11: On five averages the selection never fails, NaN or not: it returns
    one of the five methods. *)
Theorem choose_total (choices : list fval) :
  length choices = 5 ->
  exists m, choose choices = Ok m /\ In m ["OC"; "FP"; "PHA"; "AHP"; "BU"].
Proof.
  intros Hlen. destruct choices as [| x l]; [discriminate |].
  unfold choose. cbn [py_min rbind].
  pose proof (fold_min_in l x) as Hin.
  destruct (py_index_spec (x :: l) _ Hin) as (i & ci & Hi & Hnth & _).
  rewrite Hi. cbn [rbind].
  assert (Hi5 : i < 5) by (rewrite <- Hlen; apply nth_error_Some; congruence).
  unfold index. destruct (nth_error methodList i) as [m |] eqn:Hm.
  - exists m. split; [reflexivity |]. eapply nth_error_In; eauto.
  - apply nth_error_None in Hm. cbn in Hm. lia.
Qed.

Lemma choose_total_example :
  exists m, choose [NaN; PInf; Fin 1; Fin 1; NaN] = Ok m
            /\ In m ["OC"; "FP"; "PHA"; "AHP"; "BU"].
Proof. exact (choose_total [NaN; PInf; Fin 1; Fin 1; NaN] eq_refl). Defined.

(** X12: When the average of OC, the first one, is a NaN, [min] returns it
    and OC is selected, whatever the other averages. *)
Theorem choose_NaN_first (rest : list fval) : choose (NaN :: rest) = Ok "OC".
Proof.
  unfold choose. cbn [py_min rbind]. rewrite fold_min_NaN. reflexivity.
Qed.

(** X13: When the average of OC is a number or an infinity, the method
    selected never has a NaN average. *)
Theorem choose_skips_NaN (x : fval) (rest : list fval) :
  x <> NaN -> length (x :: rest) = 5 ->
  exists i m ci,
    choose (x :: rest) = Ok m
    /\ nth_error ["OC"; "FP"; "PHA"; "AHP"; "BU"] i = Some m
    /\ nth_error (x :: rest) i = Some ci
    /\ ci <> NaN.
Proof.
  intros Hx Hlen. unfold choose. cbn [py_min rbind].
  pose proof (fold_min_in rest x) as Hin.
  pose proof (fold_min_not_NaN rest x Hx) as Hm.
  destruct (py_index_spec (x :: rest) _ Hin) as (i & ci & Hi & Hnth & Hsame & _).
  rewrite Hi. cbn [rbind].
  assert (Hi5 : i < 5) by (rewrite <- Hlen; apply nth_error_Some; congruence).
  unfold index. destruct (nth_error methodList i) as [m |] eqn:Hmeth.
  - exists i, m, ci. repeat split; auto. intros ->.
    destruct (fold_left keep_smaller rest x); cbn in Hsame; congruence.
  - apply nth_error_None in Hmeth. cbn in Hmeth. lia.
Qed.

Lemma choose_skips_NaN_example :
  exists i m ci,
    choose [Fin 2; NaN; Fin 1; NaN; Fin 3] = Ok m
    /\ nth_error ["OC"; "FP"; "PHA"; "AHP"; "BU"] i = Some m
    /\ nth_error [Fin 2; NaN; Fin 1; NaN; Fin 3] i = Some ci
    /\ ci <> NaN.
Proof.
  refine (choose_skips_NaN (Fin 2) [NaN; Fin 1; NaN; Fin 3] _ eq_refl).
  discriminate.
Defined.

(** ** The MASE: missing tables *)

Lemma lookup_missing (d : Forecasts) (key : nat) :
  ~ In key (keys d) -> lookup d key = Raise KeyError.
Proof.
  induction d as [| [k v] d IH]; intros H; [reflexivity |].
  cbn [lookup]. destruct (Nat.eqb_spec k key) as [-> | Hne].
  - exfalso. apply H. now left.
  - apply IH. intros Hin. apply H. now right.
Qed.

Lemma lookup_present (d : Forecasts) (key : nat) :
  In key (keys d) -> exists tbl, lookup d key = Ok tbl /\ In (key, tbl) d.
Proof.
  induction d as [| [k v] d IH]; intros H; [destruct H |].
  cbn [lookup]. destruct (Nat.eqb_spec k key) as [-> | Hne].
  - exists v. split; [reflexivity | now left].
  - destruct H as [H | H]; [cbn in H; congruence |].
    destruct (IH H) as (tbl & Htbl & Hin). exists tbl. split; [assumption | now right].
Qed.

(** X14: The keys scored are those of the first method's tables: when the
    tables of the second method miss one of them, the scoring of that key
    raises KeyError, with no call of the backend and nothing printed. *)
Theorem score_key_missing_table
    (ynew1 ynew2 ynew3 ynew4 ynew5 : Forecasts) (y : DataFrame)
    (testIndex : list nat) (key : nat) (s : Scores) (tr : list event) (v1 : float64) :
  mase ynew1 y testIndex key = Ok v1 ->
  ~ In key (keys ynew2) ->
  score_key ynew1 ynew2 ynew3 ynew4 ynew5 y testIndex key s tr = (Raise KeyError, tr).
Proof.
  intros H1 H2. destruct s as [[[[m1 m2] m3] m4] m5].
  unfold score_key, mbind, lift. rewrite H1.
  unfold mase, mase_numerator. rewrite (lookup_missing _ _ H2). reflexivity.
Qed.

Lemma score_key_missing_table_example :
  score_key ynew_scenario [] [] [] [] y_scenario [4; 5; 6; 7] 0 no_scores []
  = (Raise KeyError, []).
Proof.
  refine (score_key_missing_table ynew_scenario [] [] [] [] y_scenario
            [4; 5; 6; 7] 0 no_scores [] _ _ _).
  - vm_compute. reflexivity.
  - intros [].
Defined.

(** ** The MASE: sign and perfect forecasts *)

Lemma round_sign_clear (mx ex : Z) (lx : SpecFloat.location) :
  sign_clear (SpecFloat.binary_round_aux prec emax false mx ex lx).
Proof.
  unfold SpecFloat.binary_round_aux.
  destruct (SpecFloat.shr_fexp prec emax mx ex lx) as [mrs' e'].
  destruct (SpecFloat.shr_fexp prec emax _ e' SpecFloat.loc_Exact) as [mrs'' e''].
  destruct (SpecFloat.shr_m mrs''); cbn; auto.
  destruct (e'' <=? 971)%Z; reflexivity.
Qed.

Lemma normalize_sign_clear (z e : Z) :
  (0 <= z)%Z -> sign_clear (SpecFloat.binary_normalize prec emax z e false).
Proof.
  intros Hz. destruct z as [| m | m]; [reflexivity | | lia].
  cbn [SpecFloat.binary_normalize]. unfold SpecFloat.binary_round.
  destruct (SpecFloat.shl_align m e _) as [mz ez]. apply round_sign_clear.
Qed.

Lemma f_of_int_sign_clear (z : Z) : (0 <= z)%Z -> sign_clear (f_of_int z).
Proof. apply normalize_sign_clear. Qed.

Lemma f_abs_sign_clear (x : float64) : sign_clear (f_abs x).
Proof. now destruct x. Qed.

Lemma f_add_sign_clear (x y : float64) :
  sign_clear x -> sign_clear y -> sign_clear (f_add x y).
Proof.
  destruct x as [sx | sx | | sx mx ex], y as [sy | sy | | sy my ey];
    cbn [sign_clear]; intros Hx Hy; subst; try exact I; try reflexivity.
  unfold f_add, SpecFloat.SFadd. apply normalize_sign_clear.
  cbn [SpecFloat.cond_Zopp]. lia.
Qed.

Lemma f_mul_sign_clear (x y : float64) :
  sign_clear x -> sign_clear y -> sign_clear (f_mul x y).
Proof.
  destruct x as [sx | sx | | sx mx ex], y as [sy | sy | | sy my ey];
    cbn [sign_clear]; intros Hx Hy; subst; try exact I; try reflexivity.
  unfold f_mul, SpecFloat.SFmul. cbn [xorb]. apply round_sign_clear.
Qed.

Lemma f_div_sign_clear (x y : float64) :
  sign_clear x -> sign_clear y -> sign_clear (f_div x y).
Proof.
  destruct x as [sx | sx | | sx mx ex], y as [sy | sy | | sy my ey];
    cbn [sign_clear]; intros Hx Hy; subst; try exact I; try reflexivity.
  unfold f_div, SpecFloat.SFdiv. cbn [xorb].
  destruct (SpecFloat.SFdiv_core_binary prec emax (Z.pos mx) ex (Z.pos my) ey)
    as [[mz ez] lz].
  apply round_sign_clear.
Qed.

Lemma fold_add_sign_clear (l : list float64) :
  forall acc, sign_clear acc -> Forall sign_clear l ->
              sign_clear (fold_left f_add l acc).
Proof.
  induction l as [| x l IH]; intros acc Hacc Hl; [exact Hacc |].
  inversion Hl; subst. cbn [fold_left]. apply IH; [| assumption].
  now apply f_add_sign_clear.
Qed.

Lemma sign_clear_value (x : float64) :
  sign_clear x ->
  f_value x <> NInf /\ forall q, f_value x = Fin q -> (0 <= q)%Q.
Proof.
  destruct x as [s | s | | s m e]; cbn [sign_clear f_value]; intros Hx; subst.
  - split; [discriminate |]. intros q H. inversion H. apply Qle_refl.
  - split; discriminate.
  - split; discriminate.
  - split; [discriminate |]. intros q H. inversion H. clear H.
    destruct e as [| p | p]; unfold Qle; cbn [Qnum Qden inject_Z]; try lia;
      match goal with
      | |- context [(2 ^ ?e)%Z] =>
          pose proof (Z.pow_nonneg 2 e ltac:(lia)); destruct (2 ^ e)%Z; lia
      end.
Qed.

Lemma py_sum_abs_float_sign (r : list float64) :
  sign_clear (scalar_float (py_sum (np_abs (Float64 r)))).
Proof.
  destruct r as [| x r]; cbn [np_abs map py_sum scalar_float].
  - apply f_of_int_sign_clear. lia.
  - apply fold_add_sign_clear.
    + apply f_of_int_sign_clear. lia.
    + change (f_abs x :: map f_abs r) with (map f_abs (x :: r)).
      apply Forall_forall. intros z Hz. apply in_map_iff in Hz.
      destruct Hz as (u & <- & _). apply f_abs_sign_clear.
Qed.

Lemma py_mul_sign_clear (x : float64) (s : scalar) :
  sign_clear x -> sign_clear (scalar_float s) ->
  sign_clear (scalar_float (py_mul x s)).
Proof. destruct s; cbn [py_mul scalar_float]; apply f_mul_sign_clear. Qed.

Lemma truediv_sign_clear (num den : scalar) (r : float64) :
  sign_clear (scalar_float num) -> sign_clear (scalar_float den) ->
  truediv num den = Ok r -> sign_clear r.
Proof.
  intros Hn Hd. destruct num, den; cbn [truediv];
    try (destruct (f_is_zero _); [discriminate |]);
    intros H; inversion H; now apply f_div_sign_clear.
Qed.

Lemma take_Float64 (v : list float64) (rows : list nat) (a : narray) :
  take (Float64 v) rows = Ok a -> exists r, a = Float64 r /\ length r = length rows.
Proof.
  unfold take. destruct (mapM (index v) rows) as [r |] eqn:E; [| discriminate].
  cbn [rbind]. intros H. inversion H. exists r. split; [reflexivity |].
  now apply mapM_length in E.
Qed.

Lemma np_sub_Float64 (u : list float64) (b c : narray) :
  np_sub (Float64 u) b = Ok c -> exists r, c = Float64 r.
Proof.
  unfold np_sub. destruct b as [v | v];
    (destruct (broadcast _ _ _) as [r |]; [| discriminate]);
    cbn [rbind]; intros H; inversion H; now exists r.
Qed.

(** The numerator has its sign clear, whatever the type of the column:
    the errors are float64. *)
Lemma numerator_sign_clear ynew y testIndex key num :
  mase_numerator ynew y testIndex key = Ok num -> sign_clear (scalar_float num).
Proof.
  unfold mase_numerator.
  destruct (lookup ynew key) as [tbl |]; [| discriminate]. cbn [rbind].
  destruct (iloc y testIndex (key + 1)) as [actual |]; [| discriminate]. cbn [rbind].
  destruct (np_sub _ actual) as [err |] eqn:E; [| discriminate]. cbn [rbind].
  apply np_sub_Float64 in E. destruct E as [r ->].
  intros H. inversion H. apply py_sum_abs_float_sign.
Qed.

(** Over an empty test window both operands of the division are Python
    numbers and the divisor is a zero: the division raises. *)
Lemma mase_empty_window ynew y key r :
  mase ynew y [] key = Ok r -> False.
Proof.
  unfold mase.
  destruct (mase_numerator ynew y [] key) as [num |] eqn:En; [| discriminate].
  cbn [rbind]. unfold mase_numerator, mase_divisor, iloc in *.
  destruct (lookup ynew key) as [tbl |]; [| discriminate]. cbn [rbind] in En.
  destruct (index y (key + 1)) as [col |]; [| discriminate]. cbn [rbind] in *.
  cbn [tl drop_last removelast length last_n] in *.
  assert (Hnum : num = PyInt 0).
  { destruct col as [v | v]; cbn [take mapM rbind np_sub as_float64 map] in En;
      destruct tbl as [| x [| x' tbl]]; cbn in En; inversion En; reflexivity. }
  subst num.
  destruct col as [v | v]; cbn [take mapM rbind]; vm_compute; discriminate.
Qed.

(** X15: on a float64 column a score that is computed is never below
    zero: it is a non-negative number, plus infinity or a NaN.  (On an
    int64 column the differences can wrap around and make it negative.) *)
Theorem mase_float_column_not_negative (ynew : Forecasts) (y : DataFrame)
    (testIndex : list nat) (key : nat) (v : list float64) (r : float64) :
  index y (key + 1) = Ok (Float64 v) ->
  mase ynew y testIndex key = Ok r ->
  f_value r <> NInf /\ forall q, f_value r = Fin q -> (0 <= q)%Q.
Proof.
  intros Hcol Hr. apply sign_clear_value.
  destruct testIndex as [| t0 testIndex]; [now apply mase_empty_window in Hr |].
  revert Hr. unfold mase.
  destruct (mase_numerator ynew y (t0 :: testIndex) key) as [num |] eqn:En;
    [| discriminate].
  cbn [rbind]. apply numerator_sign_clear in En.
  unfold mase_divisor, iloc, int_truediv. rewrite Hcol. cbn [rbind].
  destruct (Z.of_nat (length (t0 :: testIndex)) - 1 =? 0)%Z eqn:E1; [discriminate |].
  cbn [rbind].
  destruct (take (Float64 v) (tl (t0 :: testIndex))) as [later |] eqn:El;
    [| discriminate].
  destruct (take (Float64 v) (drop_last (t0 :: testIndex))) as [earlier |];
    [| discriminate].
  cbn [rbind].
  apply take_Float64 in El. destruct El as (l & -> & _).
  destruct (np_sub (Float64 l) earlier) as [diffs |] eqn:Ed; [| discriminate].
  cbn [rbind]. apply np_sub_Float64 in Ed. destruct Ed as [d ->].
  apply truediv_sign_clear; [exact En |].
  apply py_mul_sign_clear; [| apply py_sum_abs_float_sign].
  apply Z.eqb_neq in E1. cbn [length] in *.
  apply f_div_sign_clear; apply f_of_int_sign_clear; lia.
Qed.

Lemma mase_float_column_not_negative_example :
  exists r,
    mase ynew_scenario [Int64 [1;2;3;4;5;6;7;8]%Z; Float64 (floats [3;5;8;9;10;12;14;16]%Z)]
         [4; 5; 6; 7] 0 = Ok r
    /\ f_value r <> NInf /\ forall q, f_value r = Fin q -> (0 <= q)%Q.
Proof.
  eexists. split; [vm_compute; reflexivity |].
  refine (mase_float_column_not_negative ynew_scenario
            [Int64 [1;2;3;4;5;6;7;8]%Z; Float64 (floats [3;5;8;9;10;12;14;16]%Z)]
            [4; 5; 6; 7] 0 (floats [3;5;8;9;10;12;14;16]%Z) _ _ _).
  - reflexivity.
  - vm_compute. reflexivity.
Defined.

Lemma f_sub_self (x : float64) : f_is_finite x = true -> f_sub x x = f_zero.
Proof.
  destruct x as [s | s | | s m e]; cbn [f_is_finite]; try discriminate; intros _.
  - now destruct s.
  - unfold f_sub, SpecFloat.SFsub. rewrite Z.sub_diag. reflexivity.
Qed.

Lemma broadcast_sub_self (l : list float64) :
  Forall (fun x => f_is_finite x = true) l ->
  broadcast f_sub l l = Ok (map (fun _ => f_zero) l).
Proof.
  intros Hfin. unfold broadcast. rewrite Nat.eqb_refl. f_equal.
  induction Hfin as [| x l Hx _ IH]; [reflexivity |].
  cbn [combine map fst snd]. now rewrite IH, f_sub_self.
Qed.

Lemma fold_add_zeros (l : list float64) :
  Forall (fun x => x = f_zero) l -> fold_left f_add l f_zero = f_zero.
Proof.
  induction 1 as [| x l -> _ IH]; [reflexivity |]. cbn [fold_left]. exact IH.
Qed.

Lemma f_div_zero (d : float64) :
  f_is_zero d = false -> f_is_nan d = false -> f_is_zero (f_div f_zero d) = true.
Proof. destruct d; cbn; congruence. Qed.

(** X16: a forecast whose last rows are the actuals of the test window,
    all of them finite, scores a zero, as soon as the divisor is neither
    a zero nor a NaN. *)
Theorem mase_perfect_forecast (ynew : Forecasts) (y : DataFrame)
    (testIndex : list nat) (key : nat) (tbl : list float64) (actual : narray)
    (den : scalar) :
  lookup ynew key = Ok tbl ->
  iloc y testIndex (key + 1) = Ok actual ->
  last_n tbl (length testIndex) = as_float64 actual ->
  Forall (fun x => f_is_finite x = true) (as_float64 actual) ->
  mase_divisor y testIndex key = Ok den ->
  f_is_zero (scalar_float den) = false ->
  f_is_nan (scalar_float den) = false ->
  exists r, mase ynew y testIndex key = Ok r /\ f_is_zero r = true.
Proof.
  intros Htbl Hact Hlast Hfin Hden Hnz Hnn. unfold mase, mase_numerator.
  rewrite Htbl, Hact. cbn [rbind]. rewrite Hlast.
  assert (Herr : np_sub (Float64 (as_float64 actual)) actual
                 = Ok (Float64 (map (fun _ => f_zero) (as_float64 actual)))).
  { pose proof (broadcast_sub_self _ Hfin) as H.
    unfold np_sub. destruct actual as [v | v]; cbn [as_float64] in *; now rewrite H. }
  rewrite Herr. cbn [rbind]. rewrite Hden. cbn [rbind].
  assert (Hnum : scalar_float (py_sum (np_abs (Float64 (map (fun _ => f_zero)
                                                            (as_float64 actual)))))
                 = f_zero).
  { destruct (as_float64 actual) as [| x l]; [reflexivity |].
    cbn [map np_abs py_sum scalar_float fold_left].
    change (f_add (f_of_int 0) (f_abs f_zero)) with f_zero.
    apply fold_add_zeros. apply Forall_forall. intros z Hz.
    rewrite map_map in Hz. apply in_map_iff in Hz. now destruct Hz as (u & <- & _). }
  destruct (py_sum _) as [z | x | z | x], den as [z' | x' | z' | x'];
    cbn [truediv scalar_float] in *; rewrite ?Hnz, Hnum;
    eexists; (split; [reflexivity | now apply f_div_zero]).
Qed.

Lemma mase_perfect_forecast_example :
  exists r,
    mase [(0, floats [3;5;8;9;10;12;14;16]%Z)] y_scenario [4; 5; 6; 7] 0 = Ok r
    /\ f_is_zero r = true.
Proof.
  refine (mase_perfect_forecast [(0, floats [3;5;8;9;10;12;14;16]%Z)] y_scenario
            [4; 5; 6; 7] 0 (floats [3;5;8;9;10;12;14;16]%Z) (Int64 [10;12;14;16]%Z)
            (NpFloat (f_of_int 8)) _ _ _ _ _ _ _).
  - reflexivity.
  - reflexivity.
  - vm_compute. reflexivity.
  - repeat constructor.
  - vm_compute. reflexivity.
  - reflexivity.
  - reflexivity.
Defined.

(** ** The hierarchy builder: the checks of the levels *)

Lemma same_level_fires_iff_example :
  same_level (Some 3%Z) (Some 1%Z) (Some 3%Z) = Ok true.
Proof.
  apply (same_level_fires_iff 3 1 3); [lia | lia | lia |].
  split; reflexivity.
Defined.

(** X17: Without a level for the second tag column [orderHier] always exits,
    before anything is built: the branch for a hierarchy of one tag
    column (lines 283-288) is never reached. *)
Theorem orderHier_needs_second_level (tags : list (list string))
    (col1 col3 col4 : option Z) (rmZeros : bool) (dropped : string -> bool)
    (tr : list event) :
  orderHier tags col1 None col3 col4 rmZeros dropped tr
  = (Raise (SystemExit (if in_123 col1
                        then "col2 should equal 1, 2, 3, or 4"
                        else "col1 should equal 1, 2, 3, or 4")), tr).
Proof. unfold orderHier. destruct (in_123 col1); reflexivity. Qed.



(** X19: With two tag columns ([col3] left out), levels of which the second
    adds no bit to the first (the same level twice, or level 3 first) end
    in a TypeError of line 279, with nothing built; the other pairs pass
    the line: its exit is never taken with two columns. *)
Theorem orderHier_two_levels_TypeError (tags : list (list string))
    (c1 c2 : Z) (col4 : option Z) (rmZeros : bool) (dropped : string -> bool)
    (tr : list event) :
  (1 <= c1 <= 3)%Z -> (1 <= c2 <= 3)%Z ->
  (same_level (Some c1) (Some c2) None
   = if (Z.lor c2 c1 =? c1)%Z then Raise TypeError else Ok false)
  /\ (Z.lor c2 c1 = c1 ->
      orderHier tags (Some c1) (Some c2) None col4 rmZeros dropped tr
      = (Raise TypeError, tr)).
Proof.
  intros H1 H2.
  assert (E : same_level (Some c1) (Some c2) None
              = if (Z.lor c2 c1 =? c1)%Z then Raise TypeError else Ok false).
  { unfold same_level. cbn [py_or rbind py_eq].
    rewrite (Z.eqb_sym c1). now destruct (Z.lor c2 c1 =? c1)%Z. }
  split; [exact E |]. intros Hor. unfold orderHier.
  assert (I1 : in_123 (Some c1) = true).
  { assert (c1 = 1 \/ c1 = 2 \/ c1 = 3)%Z as [-> | [-> | ->]] by lia; reflexivity. }
  assert (I2 : in_123 (Some c2) = true).
  { assert (c2 = 1 \/ c2 = 2 \/ c2 = 3)%Z as [-> | [-> | ->]] by lia; reflexivity. }
  rewrite I1, I2. cbn [negb is_None andb]. rewrite E.
  apply Z.eqb_eq in Hor. rewrite Hor. reflexivity.
Qed.

Lemma orderHier_two_levels_TypeError_example :
  same_level (Some 2%Z) (Some 2%Z) None = Raise TypeError
  /\ orderHier [ab; xy] (Some 2%Z) (Some 2%Z) None None false (fun _ => false) []
     = (Raise TypeError, []).
Proof.
  destruct (orderHier_two_levels_TypeError [ab; xy] 2 2 None false
              (fun _ => false) []) as [E H]; [lia | lia |].
  split; [exact E | apply H; reflexivity].
Defined.

(** ** The hierarchy builder: the node counts *)

Lemma prefix_counted (sub s : string) :
  String.prefix sub s = true -> 1 <= str_count s sub.
Proof.
  intros H. unfold str_count. destruct sub as [| a sub']; [lia |].
  destruct s as [| b s']; [discriminate |].
  cbn [count_from]. rewrite H. lia.
Qed.

(** X20: The count of a parent column is never below the number of child
    columns whose name starts with the parent's name: [str.count] can
    only count more. *)
Theorem numberList_at_least_prefix_counts (parents children : list string) :
  Forall2 le (prefix_counts parents children) (numberList parents children).
Proof.
  unfold prefix_counts, numberList.
  induction parents as [| p parents IH]; [constructor |].
  cbn [map]. constructor; [| exact IH].
  clear IH. induction children as [| c children IH]; [apply Nat.le_refl |].
  cbn [filter map]. change (list_sum (str_count c p :: map (fun i => str_count i p) children))
    with (str_count c p + list_sum (map (fun i => str_count i p) children)).
  destruct (String.prefix p c) eqn:E.
  - apply prefix_counted in E. cbn [length]. lia.
  - lia.
Qed.

(** ** The hierarchy builder: what a call that returns has done *)

Lemma mbind_Ok_inv {A B : Type} (m : M A) (k : A -> M B)
    (tr tr' : list event) (b : B) :
  mbind m k tr = (Ok b, tr') ->
  exists a tr1, m tr = (Ok a, tr1) /\ k a tr1 = (Ok b, tr').
Proof.
  unfold mbind. destruct (m tr) as [[a | e] tr1]; [| discriminate].
  intros H. now exists a, tr1.
Qed.

Lemma lift_Ok_inv {A : Type} (r : result A) (tr tr' : list event) (a : A) :
  lift r tr = (Ok a, tr') -> r = Ok a /\ tr' = tr.
Proof. unfold lift. intros H. inversion H. now split. Qed.

Lemma merged_columns_head numIn orderList uniqueList merged :
  merged_columns numIn orderList uniqueList = Ok merged ->
  exists below, merged = "time" :: "total" :: below.
Proof.
  unfold merged_columns. destruct (level_values orderList uniqueList 1); [| discriminate].
  cbn [rbind]. destruct (concatM _ _) as [below |]; [| discriminate].
  cbn [rbind]. intros H. inversion H. now exists below.
Qed.

Lemma slice_app_mid {A : Type} (a b c : list A) :
  slice (a ++ b ++ c) (length a) (length a + length b) = b.
Proof.
  unfold slice. rewrite skipn_app, skipn_all, Nat.sub_diag. cbn [skipn app].
  replace (length a + length b - length a) with (length b + 0) by lia.
  rewrite firstn_app_2. cbn [firstn]. apply app_nil_r.
Qed.

Lemma with_underscores_In (k : nat) (cols : list string) (c : string) :
  In c (with_underscores k cols) -> str_count c "_" = k.
Proof.
  unfold with_underscores. intros H. apply filter_In in H. now apply Nat.eqb_eq.
Qed.

(** Columns of distinct names stay distinct when they are put in the
    order of their underscores. *)
Lemma newOrder_NoDup (cols : list string) :
  NoDup cols ->
  NoDup (with_underscores 0 cols ++ with_underscores 1 cols
         ++ with_underscores 2 cols ++ with_underscores 3 cols).
Proof.
  intros H.
  assert (F : forall k, NoDup (with_underscores k cols))
    by (intros k; now apply NoDup_filter).
  repeat (apply NoDup_app; [apply F | | ]); try apply F;
    intros c Hc Hc'; apply with_underscores_In in Hc;
    rewrite ?in_app_iff in Hc';
    repeat (destruct Hc' as [Hc' | Hc']);
    apply with_underscores_In in Hc'; lia.
Qed.

(** Lines 283-305 on a call that has passed the checks. *)
Lemma setup_of_levels (tags : list (list string)) (c1 c2 : Z) (col3 col4 : option Z)
    (orderList : list Z) (uniqueList : list (list string)) (numIn : nat) :
  match col3, col4 with
  | None, _ =>
      u1 <- index tags 0 ;; u2 <- index tags 1 ;;
      Ok ([c1; c2], [u1; u2], 2)
  | Some c3, None =>
      u1 <- index tags 0 ;; u2 <- index tags 1 ;; u3 <- index tags 2 ;;
      Ok ([c1; c2; c3], [u1; u2; u3], 3)
  | Some c3, Some c4 =>
      u1 <- index tags 0 ;; u2 <- index tags 1 ;; u3 <- index tags 2 ;;
      u4 <- index tags 3 ;;
      Ok ([c1; c2; c3; c4], [u1; u2; u3; u4], 4)
  end = Ok (orderList, uniqueList, numIn) ->
  orderList = order_list (Some c1) (Some c2) col3 col4
  /\ numIn = length orderList
  /\ uniqueList = firstn numIn tags
  /\ 2 <= numIn.
Proof.
  destruct tags as [| t0 [| t1 [| t2 [| t3 tags]]]];
    destruct col3 as [c3 |]; try destruct col4 as [c4 |];
    cbn; intros H; inversion H; repeat split; lia.
Qed.

(** X21: A call of [orderHier] that returns, on data whose names are
    apart, gives the columns time and total first, then the columns that
    the merges have added and [dropna] has kept, those without
    underscore, with one, with two and with three, each group in the
    order of the merges; a column with more underscores is not returned,
    and no name is returned twice.  The descriptor holds the number of
    columns without underscore and then, for each group but the last
    level's, the counts of its columns over the next group. *)
Theorem orderHier_columns_by_depth (numCol : string) (tags : list (list string))
    (col1 col2 col3 col4 : option Z) (rmZeros : bool) (dropped : string -> bool)
    (tr tr' : list event) (cols : list string) (nodes : topology)
    (level1 merged : list string) :
  let orderList := order_list col1 col2 col3 col4 in
  let numIn := length orderList in
  level_values orderList (firstn numIn tags) 1 = Ok level1 ->
  merged_columns numIn orderList (firstn numIn tags) = Ok merged ->
  names_apart numCol level1 merged ->
  orderHier tags col1 col2 col3 col4 rmZeros dropped tr = (Ok (cols, nodes), tr') ->
  exists below,
    merged = "time" :: "total" :: below
    /\ let kept := if rmZeros then filter (fun c => negb (dropped c)) below else below in
       let l0 := with_underscores 0 kept in
       let l1 := with_underscores 1 kept in
       let l2 := with_underscores 2 kept in
       let l3 := with_underscores 3 kept in
       cols = "time" :: "total" :: l0 ++ l1 ++ l2 ++ l3
       /\ NoDup cols
       /\ nodes = [[length l0]; numberList l0 l1]
                  ++ (if 2 <? numIn then [numberList l1 l2] else [])
                  ++ (if 3 <? numIn then [numberList l2 l3] else []).
Proof.
  intros orderList numIn Hl1 Hmerged [Hnd _].
  unfold orderHier.
  destruct (in_123 col1); [| discriminate].
  destruct (in_123 col2) eqn:I2; [| discriminate].
  cbn [negb]. destruct (negb (is_None col3) && negb (in_123 col3)); [discriminate |].
  intros H. apply mbind_Ok_inv in H. destruct H as (dup & tr1 & _ & H).
  destruct dup; [discriminate |].
  destruct col1 as [c1 |]; [| discriminate].
  destruct col2 as [c2 |]; [| discriminate].
  apply mbind_Ok_inv in H. destruct H as ([[orderList' uniqueList'] numIn'] & tr2 & Hs & H).
  apply lift_Ok_inv in Hs. destruct Hs as [Hs _].
  apply setup_of_levels in Hs. destruct Hs as (Eo & En & Eu & Hn).
  fold orderList in Eo. subst orderList'. fold numIn in En. subst numIn' uniqueList'.
  apply mbind_Ok_inv in H. destruct H as ([] & tr3 & _ & H).
  apply mbind_Ok_inv in H. destruct H as (merged' & tr4 & Hm & H).
  apply lift_Ok_inv in Hm. destruct Hm as [Hm _].
  rewrite Hmerged in Hm. injection Hm as <-.
  destruct (merged_columns_head _ _ _ _ Hmerged) as [below ->].
  exists below. split; [reflexivity |].
  set (kept := if rmZeros then filter (fun c => negb (dropped c)) below else below).
  assert (Hc : (if rmZeros
                then firstn 2 ("time" :: "total" :: below)
                     ++ filter (fun c => negb (dropped c))
                               (skipn 2 ("time" :: "total" :: below))
                else "time" :: "total" :: below)
               = "time" :: "total" :: kept)
    by (unfold kept; now destruct rmZeros).
  rewrite Hc in H. clear Hc. cbv zeta in H. unfold mret in H.
  change (with_underscores 0 ("time" :: "total" :: kept))
    with ("time" :: "total" :: with_underscores 0 kept) in H.
  change (with_underscores 1 ("time" :: "total" :: kept))
    with (with_underscores 1 kept) in H.
  change (with_underscores 2 ("time" :: "total" :: kept))
    with (with_underscores 2 kept) in H.
  change (with_underscores 3 ("time" :: "total" :: kept))
    with (with_underscores 3 kept) in H.
  cbv zeta.
  set (l0 := with_underscores 0 kept) in *. set (l1 := with_underscores 1 kept) in *.
  set (l2 := with_underscores 2 kept) in *. set (l3 := with_underscores 3 kept) in *.
  inversion H. clear H. subst cols nodes. split; [reflexivity |]. split.
  - apply NoDup_app_remove_r in Hnd.
    assert (Hk : NoDup ("time" :: "total" :: kept)).
    { inversion Hnd as [| t lt Ht Hnd']. inversion Hnd' as [| t' lt' Ht' Hb]. subst.
      assert (Hin : forall c, In c kept -> In c below).
      { unfold kept. destruct rmZeros; [| auto]. intros c Hc.
        apply filter_In in Hc. tauto. }
      constructor; [| constructor].
      - intros [E | Hc]; [discriminate |]. apply Ht. right. now apply Hin.
      - intros Hc. apply Ht'. now apply Hin.
      - unfold kept. destruct rmZeros; [now apply NoDup_filter | exact Hb]. }
    apply newOrder_NoDup in Hk. exact Hk.
  - unfold derive_nodes.
    assert (E1 : (1 <? numIn) = true) by (apply Nat.ltb_lt; lia). rewrite E1.
    set (list1 := "time" :: "total" :: l0).
    assert (S1 : slice (list1 ++ l1 ++ l2 ++ l3) 2 (length list1) = l0).
    { exact (slice_app_mid ["time"; "total"] l0 (l1 ++ l2 ++ l3)). }
    assert (S2 : slice (list1 ++ l1 ++ l2 ++ l3) (length list1)
                       (length list1 + length l1) = l1).
    { exact (slice_app_mid list1 l1 (l2 ++ l3)). }
    assert (S3 : slice (list1 ++ l1 ++ l2 ++ l3) (length list1 + length l1)
                       (length list1 + length l1 + length l2) = l2).
    { replace (list1 ++ l1 ++ l2 ++ l3) with ((list1 ++ l1) ++ l2 ++ l3)
        by now rewrite <- app_assoc.
      replace (length list1 + length l1) with (length (list1 ++ l1))
        by apply length_app.
      apply slice_app_mid. }
    assert (S4 : slice (list1 ++ l1 ++ l2 ++ l3) (length list1 + length l1 + length l2)
                       (length list1 + length l1 + length l2 + length l3) = l3).
    { replace (list1 ++ l1 ++ l2 ++ l3) with ((list1 ++ l1 ++ l2) ++ l3 ++ [])
        by (rewrite app_nil_r, <- !app_assoc; reflexivity).
      replace (length list1 + length l1 + length l2) with (length (list1 ++ l1 ++ l2))
        by (rewrite !length_app; lia).
      apply slice_app_mid. }
    unfold list1 in S1, S2, S3, S4. cbn [app length] in S1, S2, S3, S4.
    rewrite S1, S2, S3, S4. cbn [app length]. do 2 f_equal. lia.
Qed.

Lemma orderHier_columns_by_depth_example :
  exists below,
    ["time"; "total"; "a"; "a_x"; "a_y"; "b"; "b_x"; "b_y"]
    = "time" :: "total" :: below
    /\ let l0 := with_underscores 0 below in
       let l1 := with_underscores 1 below in
       let l2 := with_underscores 2 below in
       let l3 := with_underscores 3 below in
       ["time"; "total"; "a"; "b"; "a_x"; "a_y"; "b_x"; "b_y"]
       = "time" :: "total" :: l0 ++ l1 ++ l2 ++ l3
       /\ NoDup ["time"; "total"; "a"; "b"; "a_x"; "a_y"; "b_x"; "b_y"]
       /\ [[2]; [2; 2]] = [[length l0]; numberList l0 l1] ++ [] ++ [].
Proof.
  refine (orderHier_columns_by_depth "sessions" [ab; xy] (Some 1%Z) (Some 2%Z) None None false
            (fun _ => false) []
            [BuildSeries "a"; BuildSeries "a1"; BuildSeries "a_x"; BuildSeries "a_y";
             BuildSeries "b"; BuildSeries "b1"; BuildSeries "b_x"; BuildSeries "b_y";
             BuildSeries "total"]
            ["time"; "total"; "a"; "b"; "a_x"; "a_y"; "b_x"; "b_y"]
            [[2]; [2; 2]] ab
            ["time"; "total"; "a"; "a_x"; "a_y"; "b"; "b_x"; "b_y"] _ _ _ _).
  - reflexivity.
  - reflexivity.
  - split.
    + repeat constructor; cbn; intuition discriminate.
    + cbn; intuition discriminate.
  - vm_compute. reflexivity.
Defined.

Lemma forM__cons_Ok {A : Type} (x : A) (l : list A) (body : A -> M unit)
    (tr tr' : list event) :
  forM_ (x :: l) body tr = (Ok tt, tr') ->
  exists tr1, body x tr = (Ok tt, tr1).
Proof.
  cbn [forM_]. intros H. apply mbind_Ok_inv in H.
  destruct H as ([] & tr1 & H & _). now exists tr1.
Qed.

Lemma list_index_In (l : list Z) (k : Z) (i : nat) :
  list_index l k = Ok i -> In k l.
Proof.
  revert i. induction l as [| x l IH]; intros i; [discriminate |].
  cbn [list_index]. destruct (Z.eqb_spec x k) as [-> | _]; [now left |].
  destruct (list_index l k) as [j |]; [| discriminate].
  intros _. right. now apply (IH j).
Qed.

Section LevelsLookedUp.

Variable numIn : nat.
Variable orderList : list Z.
Variable uniqueList : list (list string).
Hypothesis values : Forall (fun u => u <> []) uniqueList.

Lemma level_values_found (k : Z) (tr tr' : list event) (l : list string) :
  lift (level_values orderList uniqueList k) tr = (Ok l, tr') ->
  In k orderList /\ exists u l', l = u :: l'.
Proof.
  intros H. apply lift_Ok_inv in H. destruct H as [H _].
  unfold level_values in H.
  destruct (list_index orderList k) as [i |] eqn:Ei; [| discriminate].
  cbn [rbind] in H. split; [now apply list_index_In in Ei |].
  unfold index in H. destruct (nth_error uniqueList i) as [u |] eqn:Eu; [| discriminate].
  inversion H. subst u. apply nth_error_In in Eu.
  rewrite Forall_forall in values. specialize (values l Eu).
  destruct l as [| u l']; [contradiction | now exists u, l'].
Qed.

(** When every tag column has a value, building the series looks every
    level from 1 to [numIn] up in [orderList]. *)
Lemma build_series_levels (tr tr' : list event) :
  build_series numIn orderList uniqueList tr = (Ok tt, tr') ->
  numIn <= 4 ->
  forall k, 1 <= k <= numIn -> In (Z.of_nat k) orderList.
Proof.
  intros H Hle. unfold build_series in H.
  apply mbind_Ok_inv in H. destruct H as (l1 & t1 & H1 & H).
  apply level_values_found in H1. destruct H1 as [In1 (u1 & l1' & ->)].
  apply mbind_Ok_inv in H. destruct H as ([] & t2 & H & _).
  apply forM__cons_Ok in H. destruct H as [t3 H].
  apply mbind_Ok_inv in H. destruct H as ([] & t4 & _ & H).
  apply mbind_Ok_inv in H. destruct H as ([] & t5 & _ & H).
  destruct (Nat.ltb_spec 1 numIn) as [L1 | L1].
  2:{ intros k Hk. assert (k = 1) as -> by lia. exact In1. }
  apply mbind_Ok_inv in H. destruct H as (l2 & t6 & H2 & H).
  apply level_values_found in H2. destruct H2 as [In2 (u2 & l2' & ->)].
  apply forM__cons_Ok in H. destruct H as [t7 H].
  apply mbind_Ok_inv in H. destruct H as ([] & t8 & _ & H).
  destruct (Nat.ltb_spec 2 numIn) as [L2 | L2].
  2:{ intros k Hk. assert (k = 1 \/ k = 2) as [-> | ->] by lia; assumption. }
  apply mbind_Ok_inv in H. destruct H as (l3 & t9 & H3 & H).
  apply level_values_found in H3. destruct H3 as [In3 (u3 & l3' & ->)].
  apply forM__cons_Ok in H. destruct H as [t10 H].
  apply mbind_Ok_inv in H. destruct H as ([] & t11 & _ & H).
  destruct (Nat.ltb_spec 3 numIn) as [L3 | L3].
  2:{ intros k Hk. assert (k = 1 \/ k = 2 \/ k = 3) as [-> | [-> | ->]] by lia;
        assumption. }
  apply mbind_Ok_inv in H. destruct H as (l4 & t12 & H4 & H).
  apply level_values_found in H4. destruct H4 as [In4 _].
  intros k Hk.
  assert (k = 1 \/ k = 2 \/ k = 3 \/ k = 4) as [-> | [-> | [-> | ->]]] by lia;
    assumption.
Qed.

End LevelsLookedUp.

Lemma levels_seq_NoDup (n : nat) : NoDup (map Z.of_nat (seq 1 n)).
Proof.
  induction n as [| n IH]; [constructor |].
  rewrite seq_S, map_app. cbn [map].
  apply NoDup_app; [exact IH | repeat constructor; intros [] | ].
  intros z Hz [Hz' | []]. apply in_map_iff in Hz. destruct Hz as (k & <- & Hk).
  apply in_seq in Hk. apply Nat2Z.inj in Hz'. lia.
Qed.

(** X22: When every tag column has a value, [orderHier] returns only for
    levels that are 1, ..., n in some order, n the number of levels
    given: a level given twice or left out ends in an exception, at
    line 279 or at an [orderList.index] of the loops. *)
Theorem orderHier_returns_for_permutations (tags : list (list string))
    (col1 col2 col3 col4 : option Z) (rmZeros : bool) (dropped : string -> bool)
    (tr tr' : list event) (r : list string * topology) :
  Forall (fun u => u <> []) tags ->
  orderHier tags col1 col2 col3 col4 rmZeros dropped tr = (Ok r, tr') ->
  Permutation (order_list col1 col2 col3 col4)
              (map Z.of_nat (seq 1 (length (order_list col1 col2 col3 col4)))).
Proof.
  intros Htags. unfold orderHier.
  destruct (in_123 col1); [| discriminate].
  destruct (in_123 col2) eqn:I2; [| discriminate].
  cbn [negb]. destruct (negb (is_None col3) && negb (in_123 col3)); [discriminate |].
  intros H. apply mbind_Ok_inv in H. destruct H as (dup & tr1 & _ & H).
  destruct dup; [discriminate |].
  destruct col1 as [c1 |]; [| discriminate].
  destruct col2 as [c2 |]; [| discriminate].
  apply mbind_Ok_inv in H. destruct H as ([[orderList uniqueList] numIn] & tr2 & Hs & H).
  apply lift_Ok_inv in Hs. destruct Hs as [Hs _].
  apply mbind_Ok_inv in H. destruct H as ([] & tr3 & Hb & _).
  assert (Hn : order_list (Some c1) (Some c2) col3 col4 = orderList
               /\ length orderList = numIn /\ numIn <= 4
               /\ Forall (fun u => u <> []) uniqueList).
  { assert (Hi : forall i u, index tags i = Ok u -> u <> []).
    { intros i u Hu. unfold index in Hu.
      destruct (nth_error tags i) as [v |] eqn:Ev; [| discriminate].
      inversion Hu. subst v. apply nth_error_In in Ev.
      rewrite Forall_forall in Htags. now apply Htags. }
    destruct col3 as [c3 |]; [destruct col4 as [c4 |] |];
      repeat (let E := fresh "E" in
              destruct (index tags _) eqn:E; [apply Hi in E | discriminate];
              cbn [rbind] in Hs);
      inversion Hs; cbn; repeat split; try lia; repeat constructor; assumption. }
  destruct Hn as (-> & Hlen & Hle & Hvals). rewrite Hlen.
  apply Permutation_sym. apply NoDup_Permutation_bis.
  - apply levels_seq_NoDup.
  - rewrite length_map, length_seq. lia.
  - intros z Hz. apply in_map_iff in Hz. destruct Hz as (k & <- & Hk).
    apply in_seq in Hk.
    apply (build_series_levels numIn orderList uniqueList Hvals tr2 tr3 Hb Hle).
    lia.
Qed.

Lemma orderHier_returns_for_permutations_example :
  Permutation (order_list (Some 2%Z) (Some 1%Z) None None)
    (map Z.of_nat (seq 1 (length (order_list (Some 2%Z) (Some 1%Z) None None)))).
Proof.
  refine (orderHier_returns_for_permutations [ab; xy] (Some 2%Z) (Some 1%Z) None None
            false (fun _ => false) []
            [BuildSeries "x"; BuildSeries "x1"; BuildSeries "x_a"; BuildSeries "x_b";
             BuildSeries "y"; BuildSeries "y1"; BuildSeries "y_a"; BuildSeries "y_b";
             BuildSeries "total"]
            (["time"; "total"; "x"; "y"; "x_a"; "x_b"; "y_a"; "y_b"], [[2]; [2; 2]])
            _ _).
  - repeat constructor; discriminate.
  - vm_compute. reflexivity.
Defined.

(** ** The hierarchy builder on clean names *)

(** *** [str.count] on joined names *)

Lemma count_underscore_cons (ch : ascii) (s : string) :
  str_count (String ch s) "_"
  = (if ascii_dec "_" ch then 1 else 0) + str_count s "_".
Proof.
  unfold str_count. cbn [count_from String.prefix String.length Nat.sub].
  destruct (ascii_dec "_" ch); [| reflexivity].
  now destruct s.
Qed.

Lemma count_underscore_app (a b : string) :
  str_count (a ++ b) "_" = str_count a "_" + str_count b "_".
Proof.
  induction a as [| ch a IH]; [reflexivity |].
  change (String ch a ++ b)%string with (String ch (a ++ b)).
  rewrite !count_underscore_cons, IH. lia.
Qed.

Lemma count_underscore_joined (a b : string) :
  str_count (joined a b) "_" = str_count a "_" + 1 + str_count b "_".
Proof.
  unfold joined. rewrite !count_underscore_app.
  change (str_count "_" "_") with 1. lia.
Qed.

Lemma prefix_before_underscore (sub x b : string) :
  str_count sub "_" = 0 ->
  String.prefix sub (x ++ String "_" b) = String.prefix sub x.
Proof.
  revert x. induction sub as [| c sub IH]; intros x Hsub; [now destruct x |].
  rewrite count_underscore_cons in Hsub.
  destruct (ascii_dec "_" c) as [E | E]; [discriminate |].
  destruct x as [| d x].
  - cbn. destruct (ascii_dec c "_") as [E' | _]; [now symmetry in E' | reflexivity].
  - cbn [append String.prefix]. destruct (ascii_dec c d); [| reflexivity].
    apply IH. exact Hsub.
Qed.

Lemma prefix_length (sub s : string) :
  String.prefix sub s = true -> String.length sub <= String.length s.
Proof.
  revert s. induction sub as [| c sub IH]; intros s H; [cbn; lia |].
  destruct s as [| d s]; [discriminate |].
  cbn in H. destruct (ascii_dec c d); [| discriminate].
  apply IH in H. cbn. lia.
Qed.

Lemma prefix_refl (s : string) : String.prefix s s = true.
Proof.
  induction s as [| c s IH]; [reflexivity |].
  cbn. now destruct (ascii_dec c c).
Qed.

Lemma count_from_skip_all (sub s : string) (skip : nat) :
  String.length s <= skip -> count_from sub s skip = 0.
Proof.
  revert skip. induction s as [| c s IH]; intros skip H; [reflexivity |].
  cbn in H. destruct skip as [| k]; [lia |].
  cbn [count_from]. apply IH. lia.
Qed.

(** A name without underscore occurs in [a_b] as often as in [a] and in
    [b] together: no occurrence spans the underscore. *)
Lemma count_from_joined (sub a b : string) (skip : nat) :
  sub <> "" -> str_count sub "_" = 0 -> skip <= String.length a ->
  count_from sub (a ++ String "_" b) skip
  = count_from sub a skip + count_from sub b 0.
Proof.
  intros Hne Hsub. revert skip.
  induction a as [| ch a IH]; intros skip Hskip.
  - cbn in Hskip. assert (skip = 0) as -> by lia.
    cbn [append count_from].
    pose proof (prefix_before_underscore sub "" b Hsub) as P. cbn [append] in P.
    rewrite P. destruct sub; [contradiction | reflexivity].
  - change (String ch a ++ String "_" b)%string with (String ch (a ++ String "_" b)).
    cbn [count_from]. destruct skip as [| k].
    + pose proof (prefix_before_underscore sub (String ch a) b Hsub) as P.
      change (String ch a ++ String "_" b)%string
        with (String ch (a ++ String "_" b)) in P.
      rewrite P. destruct (String.prefix sub (String ch a)) eqn:E.
      * rewrite IH; [lia |]. apply prefix_length in E. cbn in E. lia.
      * apply IH. lia.
    + apply IH. cbn in Hskip. lia.
Qed.

Lemma str_count_joined (sub a b : string) :
  sub <> "" -> str_count sub "_" = 0 ->
  str_count (joined a b) sub = str_count a sub + str_count b sub.
Proof.
  intros Hne Hsub. unfold str_count, joined.
  destruct sub as [| c sub]; [contradiction |].
  change ("_" ++ b)%string with (String "_" b).
  apply count_from_joined; [exact Hne | exact Hsub | lia].
Qed.

Lemma str_count_self (p : string) : p <> "" -> str_count p p = 1.
Proof.
  intros Hne. destruct p as [| c p]; [contradiction |].
  unfold str_count. cbn [count_from]. rewrite prefix_refl.
  rewrite count_from_skip_all; [reflexivity |]. cbn. lia.
Qed.

(** *** The columns and the descriptor of a two-level hierarchy *)

Lemma forM__total {A : Type} (l : list A) (body : A -> M unit) :
  (forall x tr, exists tr', body x tr = (Ok tt, tr')) ->
  forall tr, exists tr', forM_ l body tr = (Ok tt, tr').
Proof.
  intros Hb. induction l as [| x l IH]; intros tr; [now exists tr |].
  cbn [forM_]. unfold mbind. destruct (Hb x tr) as [tr1 ->]. apply IH.
Qed.

Lemma concatM_pure {A B : Type} (f : A -> result (list B)) (g : A -> list B)
    (l : list A) :
  (forall x, f x = Ok (g x)) -> concatM f l = Ok (flat_map g l).
Proof.
  intros H. induction l as [| x l IH]; [reflexivity |].
  cbn [concatM flat_map]. now rewrite H, IH.
Qed.

Lemma flat_map_singleton {A B : Type} (f : A -> B) (l : list A) :
  flat_map (fun x => [f x]) l = map f l.
Proof. induction l as [| x l IH]; [reflexivity | cbn; now rewrite IH]. Qed.

Section TwoLevels.

Variables parents children : list string.

Hypothesis parents_clean : Forall (fun p => p <> "" /\ str_count p "_" = 0) parents.
Hypothesis children_clean : Forall (fun c => str_count c "_" = 0) children.
Hypothesis parents_distinct : NoDup parents.
Hypothesis parents_apart :
  forall p q, In p parents -> In q parents -> p <> q -> str_count q p = 0.
Hypothesis parents_not_in_children :
  forall p c, In p parents -> In c children -> str_count c p = 0.

Lemma with_underscores_joined (a : string) (k : nat) :
  str_count a "_" = 0 ->
  with_underscores k (map (joined a) children)
  = if k =? 1 then map (joined a) children else [].
Proof.
  intros Ha. unfold with_underscores.
  assert (H : forall cs, Forall (fun c => str_count c "_" = 0) cs ->
             filter (fun col => str_count col "_" =? k) (map (joined a) cs)
             = if k =? 1 then map (joined a) cs else []).
  { induction 1 as [| c cs Hc _ IH]; [now destruct (k =? 1) |].
    cbn [map filter]. rewrite IH, count_underscore_joined, Ha, Hc.
    change (0 + 1 + 0) with 1. rewrite (Nat.eqb_sym 1 k). now destruct (k =? 1). }
  now apply H.
Qed.

Lemma with_underscores_below (k : nat) :
  with_underscores k (below_total parents children)
  = match k with
    | 0 => parents
    | 1 => second_level parents children
    | _ => []
    end.
Proof.
  unfold below_total, second_level.
  assert (H : forall ps, Forall (fun p => p <> "" /\ str_count p "_" = 0) ps ->
             with_underscores k (flat_map (fun a => a :: map (joined a) children) ps)
             = match k with
               | 0 => ps
               | 1 => flat_map (fun a => map (joined a) children) ps
               | _ => []
               end).
  { induction 1 as [| p ps [_ Hp] _ IH].
    - now destruct k as [| [| k]].
    - cbn [flat_map]. unfold with_underscores in *.
      change (p :: map (joined p) children
                ++ flat_map (fun a => a :: map (joined a) children) ps)
        with ([p] ++ map (joined p) children
                  ++ flat_map (fun a => a :: map (joined a) children) ps).
      rewrite !filter_app, IH.
      pose proof (with_underscores_joined p k Hp) as J. unfold with_underscores in J.
      cbn [filter]. rewrite J, Hp.
      destruct k as [| [| k]]; reflexivity. }
  now apply H.
Qed.

Lemma count_in_children_of (a p : string) :
  In p parents ->
  list_sum (map (fun i => str_count i p) (map (joined a) children))
  = length children * str_count a p.
Proof.
  intros Hp.
  assert (Hpc : p <> "" /\ str_count p "_" = 0)
    by (rewrite Forall_forall in parents_clean; now apply parents_clean).
  destruct Hpc as [Hne Hpu].
  assert (H : forall cs, (forall c, In c cs -> str_count c p = 0) ->
             list_sum (map (fun i => str_count i p) (map (joined a) cs))
             = length cs * str_count a p).
  { induction cs as [| c cs IH]; intros Hcs; [reflexivity |].
    cbn [map length].
    change (list_sum (?x :: ?l)) with (x + list_sum l).
    rewrite IH by (intros c' Hc'; apply Hcs; now right).
    rewrite (str_count_joined p a c Hne Hpu), (Hcs c) by now left. lia. }
  apply H. intros c Hc. now apply parents_not_in_children.
Qed.

Lemma count_in_second_level (p : string) :
  In p parents ->
  list_sum (map (fun i => str_count i p) (second_level parents children))
  = length children.
Proof.
  intros Hp. unfold second_level.
  assert (Hpc : p <> "")
    by (rewrite Forall_forall in parents_clean; now apply parents_clean).
  assert (H : forall ps, NoDup ps -> (forall q, In q ps -> In q parents) ->
             list_sum (map (fun i => str_count i p)
                           (flat_map (fun a => map (joined a) children) ps))
             = if in_dec string_dec p ps then length children else 0).
  { induction ps as [| q ps IH]; intros Hnd Hsub; [reflexivity |].
    cbn [flat_map]. rewrite map_app, list_sum_app.
    rewrite (count_in_children_of q p Hp).
    inversion Hnd as [| ? ? Hq Hnd']. subst.
    rewrite IH by (try assumption; intros q' Hq'; apply Hsub; now right).
    destruct (string_dec q p) as [-> | Hqp].
    - rewrite (str_count_self p Hpc).
      destruct (in_dec string_dec p (p :: ps)) as [_ | N]; [| exfalso; apply N; now left].
      destruct (in_dec string_dec p ps) as [I | _]; [contradiction | lia].
    - rewrite (parents_apart p q Hp) by (try (apply Hsub; now left); congruence).
      destruct (in_dec string_dec p (q :: ps)) as [[E | I] | N],
               (in_dec string_dec p ps) as [I' | N']; try congruence; try lia.
      exfalso. apply N. now right. }
  rewrite (H parents parents_distinct) by auto.
  destruct (in_dec string_dec p parents); [reflexivity | contradiction].
Qed.

Lemma numberList_second_level :
  numberList parents (second_level parents children)
  = map (fun _ => length children) parents.
Proof.
  unfold numberList. apply map_ext_in. intros p Hp.
  now apply count_in_second_level.
Qed.

Lemma second_level_length :
  length (second_level parents children) = length parents * length children.
Proof.
  unfold second_level. apply flat_map_constant_length.
  intros a _. apply length_map.
Qed.

End TwoLevels.

Lemma build_series_two_levels (orderList : list Z) (uniqueList : list (list string))
    (parents children : list string) (tr : list event) :
  level_values orderList uniqueList 1 = Ok parents ->
  level_values orderList uniqueList 2 = Ok children ->
  exists tr', build_series 2 orderList uniqueList tr = (Ok tt, tr').
Proof.
  intros E1 E2. unfold build_series. rewrite E1, E2.
  unfold mbind at 1. unfold lift at 1. unfold mbind at 1.
  match goal with
  | |- context [forM_ parents ?body] =>
      assert (Hbody : forall u1 t, exists t', body u1 t = (Ok tt, t'))
  end.
  { intros u1 t. unfold mbind at 1. unfold emit at 1. unfold mbind at 1. unfold emit at 1.
    change (1 <? 2) with true. cbv iota. unfold mbind at 1. unfold lift at 1.
    apply forM__total. intros u2 t'. unfold mbind, emit. cbn. now eexists. }
  destruct (forM__total parents _ Hbody tr) as [tr1 H].
  rewrite H. unfold emit. now eexists.
Qed.

Lemma merged_columns_two_levels (orderList : list Z) (uniqueList : list (list string))
    (parents children : list string) :
  level_values orderList uniqueList 1 = Ok parents ->
  level_values orderList uniqueList 2 = Ok children ->
  merged_columns 2 orderList uniqueList
  = Ok ("time" :: "total" :: below_total parents children).
Proof.
  intros E1 E2. unfold merged_columns. rewrite E1, E2. cbn [rbind].
  rewrite (concatM_pure _ (fun a => a :: map (joined a) children)); [reflexivity |].
  intros u1. change (1 <? 2) with true. cbv iota. cbn [rbind].
  rewrite (concatM_pure _ (fun u2 => [joined u1 u2])) by reflexivity.
  cbn [rbind]. now rewrite flat_map_singleton.
Qed.

Lemma below_total_parents (parents children : list string) :
  NoDup (below_total parents children) -> NoDup parents.
Proof.
  induction parents as [| a parents IH]; [constructor |].
  unfold below_total. cbn [flat_map app]. fold (below_total parents children).
  intros H. inversion H as [| x l Ha Hl]. subst.
  apply NoDup_app_remove_l in Hl. constructor; [| now apply IH].
  intros Hin. apply Ha. apply in_or_app. right.
  unfold below_total. apply in_flat_map. exists a. split; [exact Hin | now left].
Qed.

(** X23: For two tag columns with the levels 1 and 2, in either order, on
    data whose names are apart (no value of level 1 is time or total,
    the value column is no column of the table), the values carrying no
    underscore, those of level 1 being not empty and occurring neither in
    one another nor in a level-2 value:
    [orderHier] returns the columns time, total, the parents, then every
    parent_child, and the descriptor that gives every parent all the
    children.  The descriptor sums to the number of columns less two, as
    [hts] requires, and when there is a parent and a child [SummingMat]
    turns it into a matrix with one row per column of the table, the
    time column apart, and one column per parent_child. *)
Theorem orderHier_two_levels_clean (numCol : string) (parents children : list string)
    (swap : bool) (col4 : option Z) (dropped : string -> bool) (tr : list event) :
  Forall (fun p => p <> "" /\ str_count p "_" = 0) parents ->
  Forall (fun c => str_count c "_" = 0) children ->
  names_apart numCol parents ("time" :: "total" :: below_total parents children) ->
  (forall p q, In p parents -> In q parents -> p <> q -> str_count q p = 0) ->
  (forall p c, In p parents -> In c children -> str_count c p = 0) ->
  let cols := "time" :: "total" :: parents ++ second_level parents children in
  let nodes := [[length parents]; map (fun _ => length children) parents] in
  (exists tr',
     orderHier (if swap then [children; parents] else [parents; children])
               (Some (if swap then 2 else 1)%Z) (Some (if swap then 1 else 2)%Z)
               None col4 false dropped tr
     = (Ok (cols, nodes), tr'))
  /\ list_sum (numAtLev nodes) = length cols - 2
  /\ (parents <> [] -> children <> [] ->
      exists rows,
        SummingMat nodes = Ok (Arr2 (length (second_level parents children)) rows)
        /\ length rows = length cols - 1).
Proof.
  intros Hp Hc [Hnd _] Hpp Hpc cols nodes. subst cols nodes.
  apply NoDup_app_remove_r in Hnd. apply (NoDup_app_remove_l ["time"; "total"]) in Hnd.
  apply below_total_parents in Hnd.
  assert (Hsum : forall ps : list string,
             list_sum (map (fun _ => length children) ps)
             = length ps * length children).
  { induction ps as [| q ps IH]; [reflexivity |].
    cbn [map length]. change (list_sum (?x :: ?l)) with (x + list_sum l).
    rewrite IH. lia. }
  split; [| split].
  - pose (orderList := if swap then [2; 1]%Z else [1; 2]%Z).
    pose (uniqueList := if swap then [children; parents] else [parents; children]).
    assert (E1 : level_values orderList uniqueList 1 = Ok parents)
      by now destruct swap.
    assert (E2 : level_values orderList uniqueList 2 = Ok children)
      by now destruct swap.
    destruct (build_series_two_levels orderList uniqueList parents children tr E1 E2)
      as [tr' Hb].
    exists tr'.
    assert (Hrun : orderHier (if swap then [children; parents] else [parents; children])
               (Some (if swap then 2 else 1)%Z) (Some (if swap then 1 else 2)%Z)
               None col4 false dropped tr
             = (do build_series 2 orderList uniqueList ;;
                merged <~ lift (merged_columns 2 orderList uniqueList) ;;
                let list1 := with_underscores 0 merged in
                let list2 := with_underscores 1 merged in
                let list3 := with_underscores 2 merged in
                let list4 := with_underscores 3 merged in
                let newOrder := list1 ++ list2 ++ list3 ++ list4 in
                mret (newOrder,
                      derive_nodes 2 newOrder (length list1) (length list2)
                                   (length list3) (length list4))) tr)
      by now destruct swap.
    rewrite Hrun. unfold mbind at 1. rewrite Hb.
    rewrite (merged_columns_two_levels orderList uniqueList parents children E1 E2).
    unfold mbind, lift, mret. cbv zeta.
    assert (W0 : with_underscores 0 ("time" :: "total" :: below_total parents children)
                 = "time" :: "total" :: parents).
    { change (with_underscores 0 ("time" :: "total" :: below_total parents children))
        with ("time" :: "total" :: with_underscores 0 (below_total parents children)).
      now rewrite (with_underscores_below parents children Hp Hc 0). }
    assert (W : forall k, with_underscores (S k)
                            ("time" :: "total" :: below_total parents children)
                          = match k with
                            | 0 => second_level parents children
                            | _ => []
                            end).
    { intros k.
      change (with_underscores (S k) ("time" :: "total" :: below_total parents children))
        with (with_underscores (S k) (below_total parents children)).
      now rewrite (with_underscores_below parents children Hp Hc (S k)). }
    rewrite W0, !W. rewrite !app_nil_r.
    f_equal. f_equal. f_equal.
    unfold derive_nodes. change (1 <? 2) with true. change (2 <? 2) with false.
    change (3 <? 2) with false. cbv iota. cbn [app].
    f_equal.
    + cbn [length]. f_equal. lia.
    + f_equal.
      assert (S1 : slice ("time" :: "total" :: parents ++ second_level parents children)
                         2 (length ("time" :: "total" :: parents)) = parents).
      { unfold slice. cbn [length skipn].
        replace (S (S (length parents)) - 2) with (length parents) by lia.
        apply firstn_exact. }
      assert (S2 : slice ("time" :: "total" :: parents ++ second_level parents children)
                         (length ("time" :: "total" :: parents))
                         (length ("time" :: "total" :: parents)
                          + length (second_level parents children))
                   = second_level parents children).
      { unfold slice.
        change ("time" :: "total" :: parents ++ second_level parents children)
          with (("time" :: "total" :: parents) ++ second_level parents children).
        rewrite skipn_exact.
        replace (length ("time" :: "total" :: parents)
                 + length (second_level parents children)
                 - length ("time" :: "total" :: parents))
          with (length (second_level parents children)) by lia.
        rewrite <- (app_nil_r (second_level parents children)) at 2.
        rewrite firstn_exact. reflexivity. }
      rewrite S1, S2.
      now apply numberList_second_level.
  - unfold numAtLev. cbn [map list_sum fold_right length].
    rewrite length_app, second_level_length.
    change (fold_right Nat.add 0 (map (fun _ => length children) parents))
      with (list_sum (map (fun _ => length children) parents)).
    rewrite Hsum. lia.
  - intros Hne1 Hne2.
    set (levels := [map (fun _ : string => length children) parents]).
    assert (L1 : 1 <= length parents) by (destruct parents; [contradiction | cbn; lia]).
    assert (L2 : 1 <= length children) by (destruct children; [contradiction | cbn; lia]).
    assert (Hcons : consistent (list_sum [length parents]) levels).
    { cbn. rewrite length_map. repeat split; [lia |].
      apply Forall_forall. intros k Hk. apply in_map_iff in Hk.
      destruct Hk as (q & <- & _). lia. }
    assert (Hreg : regular ([length parents] :: levels)).
    { split; [cbn; lia |]. split; [exact Hcons | constructor]. }
    assert (Hleaf : leaf_count ([length parents] :: levels)
                    = length (second_level parents children)).
    { rewrite second_level_length. unfold leaf_count, levels, numAtLev.
      cbn [map last]. apply Hsum. }
    exists (repeat 1%Z (leaf_count ([length parents] :: levels))
            :: all_rows (leaf_count ([length parents] :: levels)) levels).
    split.
    + rewrite <- Hleaf. exact (SummingMat_regular _ Hreg).
    + rewrite width_leaf_count. cbn [length].
      rewrite (all_rows_length levels _ Hcons).
      rewrite length_app, second_level_length. unfold levels, numAtLev.
      cbn [map list_sum fold_right].
      change (fold_right Nat.add 0 (map (fun _ => length children) parents))
        with (list_sum (map (fun _ => length children) parents)).
      rewrite Hsum. lia.
Qed.

Lemma orderHier_two_levels_clean_example :
  (exists tr',
     orderHier [ab; xy] (Some 2%Z) (Some 1%Z) None None false (fun _ => false) []
     = (Ok ("time" :: "total" :: xy ++ second_level xy ab,
            [[length xy]; map (fun _ => length ab) xy]), tr'))
  /\ list_sum (numAtLev [[length xy]; map (fun _ => length ab) xy])
     = length ("time" :: "total" :: xy ++ second_level xy ab) - 2
  /\ (xy <> [] -> ab <> [] ->
      exists rows,
        SummingMat [[length xy]; map (fun _ => length ab) xy]
        = Ok (Arr2 (length (second_level xy ab)) rows)
        /\ length rows = length ("time" :: "total" :: xy ++ second_level xy ab) - 1).
Proof.
  refine (orderHier_two_levels_clean "sessions" xy ab true None (fun _ => false) [] _ _ _ _ _).
  - repeat constructor; discriminate.
  - repeat constructor.
  - split.
    + repeat constructor; cbn; intuition discriminate.
    + cbn; intuition discriminate.
  - intros p q [<- | [<- | []]] [<- | [<- | []]] H;
      try reflexivity; now contradiction H.
  - intros p c [<- | [<- | []]] [<- | [<- | []]]; reflexivity.
Defined.

(** ** A whole run of [hts] *)

Lemma choose_in_methodList (choices : list fval) (m : string) :
  choose choices = Ok m -> In m methodList.
Proof.
  unfold choose. destruct (py_min choices); [| discriminate]. cbn [rbind].
  destruct (py_index choices _) as [i |]; [| discriminate]. cbn [rbind].
  unfold index. destruct (nth_error methodList i) eqn:E; [| discriminate].
  intros H. inversion H. subst. eapply nth_error_In; eauto.
Qed.

Section WholeRun.

Variable Hyper : Type.
Variable fitForecast :
  DataFrame -> Z -> ndarray -> topology -> string -> bool ->
  capacity -> capacity -> Hyper -> result Forecasts.
Variable tscv_split : nat -> result (list (list nat * list nat)).

(** X24: A run of [hts] that returns has passed the checks and built the
    summing matrix; what it returns is the backend's forecast for the
    whole table at horizon [h].  For a method given by name that call is
    the only one.  With cvSelect it comes after the five calls of every
    fold, its method is one of the five, and the method is printed after
    the call. *)
Theorem hts_run_trace y h nodes method ih cap capF hp tr tr' ynew :
  hts Hyper fitForecast tscv_split y h nodes method ih cap capF hp tr = (Ok ynew, tr') ->
  exists sumMat m,
    config_error y h nodes method cap capF = None
    /\ SummingMat nodes = Ok sumMat
    /\ fitForecast y h sumMat nodes m ih cap capF hp = Ok ynew
    /\ (if String.eqb method "cvSelect"
        then In m methodList
             /\ exists time folds,
                  index y 0 = Ok time /\ tscv_split (alen time) = Ok folds
                  /\ tr' = tr ++ flat_map fold_calls folds
                              ++ [BackendCall m h (nrows_df y); Print m]
        else m = method /\ tr' = tr ++ [BackendCall m h (nrows_df y)]).
Proof.
  unfold hts. destruct (config_error y h nodes method cap capF); [discriminate |].
  destruct (String.eqb method "cvSelect"); intros H.
  - apply mbind_Ok_inv in H. destruct H as (sumMat & t1 & HS & H).
    apply lift_Ok_inv in HS. destruct HS as [HS ->].
    apply mbind_Ok_inv in H. destruct H as (s & t2 & Hcv & H).
    apply mbind_Ok_inv in H. destruct H as (choice & t3 & Hch & H).
    apply lift_Ok_inv in Hch. destruct Hch as [Hch ->].
    apply mbind_Ok_inv in H. destruct H as (r & t4 & Hfit & H).
    apply mbind_Ok_inv in H. destruct H as ([] & t5 & Hpr & H).
    unfold mret in H. inversion H. subst r t5. clear H.
    unfold emit in Hpr. inversion Hpr. clear Hpr.
    unfold call_fitForecast in Hfit.
    apply mbind_Ok_inv in Hfit. destruct Hfit as ([] & t6 & Hem & Hfit).
    unfold emit in Hem. inversion Hem. subst t6. clear Hem.
    apply lift_Ok_inv in Hfit. destruct Hfit as [Hfit ->].
    unfold cv_scores in Hcv.
    apply mbind_Ok_inv in Hcv. destruct Hcv as (time & t7 & Ht & Hcv).
    apply lift_Ok_inv in Ht. destruct Ht as [Ht ->].
    apply mbind_Ok_inv in Hcv. destruct Hcv as (folds & t8 & Hf & Hcv).
    apply lift_Ok_inv in Hf. destruct Hf as [Hf ->].
    assert (Hy : y <> []) by (intros ->; discriminate).
    apply (cv_folds_trace Hyper fitForecast _ _ _ _ _ _ _ _ Hy) in Hcv. subst t2.
    exists sumMat, choice. repeat split; try assumption.
    + now apply choose_in_methodList in Hch.
    + exists time, folds. repeat split; try assumption.
      rewrite <- !app_assoc. reflexivity.
  - apply mbind_Ok_inv in H. destruct H as (sumMat & t1 & HS & H).
    apply lift_Ok_inv in HS. destruct HS as [HS ->].
    unfold call_fitForecast in H.
    apply mbind_Ok_inv in H. destruct H as ([] & t2 & Hem & H).
    unfold emit in Hem. inversion Hem. subst t2. clear Hem.
    apply lift_Ok_inv in H. destruct H as [H ->].
    exists sumMat, method. repeat split; assumption.
Qed.

End WholeRun.

Lemma hts_run_trace_example :
  exists ynew tr',
    hts_naive y8 1 [[2]] "cvSelect" [] = (Ok ynew, tr')
    /\ exists sumMat m,
         config_error y8 1 [[2]] "cvSelect" CapNone CapNone = None
         /\ SummingMat [[2]] = Ok sumMat
         /\ naive_fitForecast y8 1 sumMat [[2]] m true CapNone CapNone tt = Ok ynew
         /\ (if String.eqb "cvSelect" "cvSelect"
             then In m methodList
                  /\ exists time folds,
                       index y8 0 = Ok time /\ TimeSeriesSplit (alen time) = Ok folds
                       /\ tr' = [] ++ flat_map fold_calls folds
                                   ++ [BackendCall m 1 (nrows_df y8); Print m]
             else m = "cvSelect" /\ tr' = [] ++ [BackendCall m 1 (nrows_df y8)]).
Proof.
  do 2 eexists. split; [vm_compute; reflexivity |].
  refine (hts_run_trace unit naive_fitForecast TimeSeriesSplit y8 1 [[2]] "cvSelect"
            true CapNone CapNone tt [] _ _ _).
  vm_compute. reflexivity.
Defined.
